(** * rypersensitivity.js: a shallow embedding and its specification

    The program is a fixed-rate tracking loop written in JavaScript.  Every
    JavaScript number is an IEEE 754 binary64 value, so numbers are Rocq's
    primitive floats and every arithmetic expression keeps the source's
    operators, operand order and parenthesisation.  Objects that the source
    mutates through shared references (the tracked targets) live in a store
    indexed by location; the classes whose instances are owned by a single
    field are records passed explicitly.  Reads of the clock and of the random
    generator, and writes to the console, go through a [World]. *)

From Stdlib Require Import Floats ZArith String List Bool.
From stdpp Require Import base option gmap.
Import ListNotations.

Set Warnings "-inexact-float".
Set Default Proof Using "Type".

(* ================================================================== *)
(** ** The JavaScript runtime the program relies on *)

Module JS.

Local Open Scope float_scope.

(** Array lengths are naturals; they enter arithmetic as numbers. *)
Definition Number_of_nat (n : nat) : float :=
  PrimFloat.of_uint63 (Uint63.of_Z (Z.of_nat n)).

(** [a > b] is [b < a]; [a !== b] negates [a === b]. *)
Definition gtb (a b : float) : bool := b <? a.
Definition neqb (a b : float) : bool := negb (a =? b).

(** Truthiness of a number: [0], [-0] and [NaN] are falsy. *)
Definition truthy (a : float) : bool := negb (PrimFloat.is_zero a || PrimFloat.is_nan a).

(** [a || b] on numbers. *)
Definition or_else (a b : float) : float := if truthy a then a else b.

(** [Math.max(a, b)] and [Math.min(a, b)]: NaN is contagious and [+0] is
    larger than [-0]. *)
Definition Math_max (a b : float) : float :=
  if PrimFloat.is_nan a || PrimFloat.is_nan b then nan
  else if a <? b then b
  else if b <? a then a
  else if PrimFloat.get_sign a then b else a.

Definition Math_min (a b : float) : float :=
  if PrimFloat.is_nan a || PrimFloat.is_nan b then nan
  else if a <? b then a
  else if b <? a then b
  else if PrimFloat.get_sign a then a else b.

Definition Math_sqrt (a : float) : float := PrimFloat.sqrt a.
Definition Math_abs (a : float) : float := PrimFloat.abs a.

(** Odd part of a positive mantissa, with the exponent raised to match. *)
Fixpoint strip_zeros (m : positive) (e : Z) : positive * Z :=
  match m with
  | xO m' => strip_zeros m' (e + 1)
  | _ => (m, e)
  end.

(** [x % y]: the remainder of the truncating division, with the sign of the
    dividend; it is always exact. *)
Definition rem (x y : float) : float :=
  match Prim2SF x, Prim2SF y with
  | S754_nan, _ | _, S754_nan => nan
  | S754_infinity _, _ => nan
  | _, S754_zero _ => nan
  | _, S754_infinity _ => x
  | S754_zero _, _ => x
  | S754_finite sx mx ex, S754_finite _ my ey =>
      let e := Z.min ex ey in
      let X := (Zpos mx * 2 ^ (ex - e))%Z in
      let Y := (Zpos my * 2 ^ (ey - e))%Z in
      match (X mod Y)%Z with
      | Zpos r => let '(m, e') := strip_zeros r e in SF2Prim (S754_finite sx m e')
      | _ => if sx then neg_zero else zero
      end
  end.

(** What the program prints, with the numbers it formats kept unformatted. *)
Inductive Log : Type :=
| LogFireHit (consecutiveHits : float)
| LogFireMiss (aimAccuracy : float)
| LogEngineStatus (fps accuracy hitRate : float) (targets : nat).

(** The outside world: the successive values of [Date.now()] and of
    [Math.random()], how many of each have been consumed, and the console. *)
Record World : Type := mkWorld {
  clock : nat -> float;
  clock_reads : nat;
  random : nat -> float;
  random_draws : nat;
  console : list Log
}.

Definition IO (A : Type) : Type := World -> A * World.

Definition ret {A} (a : A) : IO A := fun w => (a, w).
Definition bind {A B} (m : IO A) (k : A -> IO B) : IO B :=
  fun w => let '(a, w') := m w in k a w'.

Definition Date_now : IO float := fun w =>
  (clock w (clock_reads w),
   mkWorld (clock w) (S (clock_reads w)) (random w) (random_draws w) (console w)).

Definition Math_random : IO float := fun w =>
  (random w (random_draws w),
   mkWorld (clock w) (clock_reads w) (random w) (S (random_draws w)) (console w)).

Definition console_log (l : Log) : IO unit := fun w =>
  (tt, mkWorld (clock w) (clock_reads w) (random w) (random_draws w) (console w ++ [l])).

End JS.

Notation "'let*' x ':=' m 'in' k" := (JS.bind m (fun x => k))
  (at level 10, x name, m at level 100, k at level 200).
Notation "'let*' ' p ':=' m 'in' k" := (JS.bind m (fun x => let 'p := x in k))
  (at level 10, p strict pattern, m at level 100, k at level 200).

(* ================================================================== *)
(** ** class Vector3 *)

Module Vector3.

Local Open Scope float_scope.

Record t : Type := new { x : float; y : float; z : float }.

(** [new Vector3()] *)
Definition zero : t := new 0 0 0.

Definition add (this v : t) : t := new (x this + x v) (y this + y v) (z this + z v).
Definition subtract (this v : t) : t := new (x this - x v) (y this - y v) (z this - z v).
Definition multiply (this : t) (s : float) : t := new (x this * s) (y this * s) (z this * s).

Definition dot (this v : t) : float := x this * x v + y this * y v + z this * z v.
Definition cross (this v : t) : t :=
  new (y this * z v - z this * y v)
      (z this * x v - x this * z v)
      (x this * y v - y this * x v).

Definition length (this : t) : float :=
  JS.Math_sqrt (x this * x this + y this * y this + z this * z this).

Definition normalize (this : t) : t :=
  let len := length this in
  if JS.gtb len 0 then multiply this (1 / len) else zero.

Definition lerp (this v : t) (s : float) : t := add this (multiply (subtract v this) s).

Definition distanceTo (this v : t) : float :=
  let dx := x this - x v in
  let dy := y this - y v in
  let dz := z this - z v in
  JS.Math_sqrt (dx * dx + dy * dy + dz * dz).

Definition clone (this : t) : t := new (x this) (y this) (z this).

(** [equals(v, tolerance = 0.001)] *)
Definition default_tolerance : float := 0.001.

Definition equals (this v : t) (tolerance : float) : bool :=
  (JS.Math_abs (x this - x v) <? tolerance) &&
  (JS.Math_abs (y this - y v) <? tolerance) &&
  (JS.Math_abs (z this - z v) <? tolerance).

End Vector3.

(* ================================================================== *)
(** ** class AdvancedKalmanFilter *)

Module AdvancedKalmanFilter.

Local Open Scope float_scope.

(** [state] is the array [[position, velocity]]; [covariance] is the array of
    rows [[[P00, P01], [P10, P11]]]. *)
Record t : Type := mk {
  R : float;
  Q : float;
  processNoise : float;
  state : float * float;
  covariance : (float * float) * (float * float);
  isInitialized : bool;
  lastTime : float
}.

Definition position (k : t) : float := fst (state k).
Definition velocity (k : t) : float := snd (state k).
Definition P00 (k : t) : float := fst (fst (covariance k)).
Definition P01 (k : t) : float := snd (fst (covariance k)).
Definition P10 (k : t) : float := fst (snd (covariance k)).
Definition P11 (k : t) : float := snd (snd (covariance k)).

(** [new AdvancedKalmanFilter(R, Q, processNoise)] *)
Definition constructor (R Q processNoise : float) : JS.IO t :=
  let* now := JS.Date_now in
  JS.ret (mk R Q processNoise (0, 0) ((1, 0), (0, 1)) false now).

(** The defaults of the constructor's parameters. *)
Definition default_R : float := 0.01.
Definition default_Q : float := 0.09.
Definition default_processNoise : float := 0.1.

Definition predict (dt : float) (this : t) : t :=
  if negb (isInitialized this) then this
  else
    let newState := (position this + velocity this * dt, velocity this) in
    let newCov :=
      ((P00 this + dt * P10 this + processNoise this,
        P01 this + dt * P11 this),
       (P10 this,
        P11 this + processNoise this)) in
    mk (R this) (Q this) (processNoise this) newState newCov
       (isInitialized this) (lastTime this).

Definition update (measurement : float) (this : t) : JS.IO (float * t) :=
  let* currentTime := JS.Date_now in
  let dt := (currentTime - lastTime this) / 1000 in
  let this := mk (R this) (Q this) (processNoise this) (state this)
                 (covariance this) (isInitialized this) currentTime in
  if negb (isInitialized this) then
    JS.ret (measurement,
            mk (R this) (Q this) (processNoise this) (measurement, 0)
               (covariance this) true (lastTime this))
  else
    let this := predict dt this in
    let S := P00 this + R this in
    let K := (P00 this / S, P10 this / S) in
    let residual := measurement - position this in
    let state' := (position this + fst K * residual,
                   velocity this + snd K * residual) in
    let newCov :=
      (((1 - fst K) * P00 this,
        (1 - fst K) * P01 this),
       (P10 this - snd K * P00 this,
        P11 this - snd K * P01 this)) in
    JS.ret (fst state',
            mk (R this) (Q this) (processNoise this) state' newCov
               (isInitialized this) (lastTime this)).

Definition getPredictedPosition (timeAhead : float) (this : t) : float :=
  if negb (isInitialized this) then 0
  else position this + velocity this * timeAhead.

Definition getVelocity (this : t) : float :=
  if isInitialized this then velocity this else 0.

Definition reset (this : t) : JS.IO t :=
  let* now := JS.Date_now in
  JS.ret (mk (R this) (Q this) (processNoise this) (0, 0) ((1, 0), (0, 1)) false now).

End AdvancedKalmanFilter.

(* ================================================================== *)
(** ** The configuration object *)

Module Config.

Record t : Type := mk {
  aimSensitivity : float;
  dragForce : float;
  snapThreshold : float;
  velocityThreshold : float;
  maxDistance : float;
  longRangeMultiplier : float;
  maxPredictionTime : float;
  predictionWeight : float;
  kalman_R : float;
  kalman_Q : float;
  smoothingFactor : float;
  recoilCompensation : bool;
  recoilFactor : float;
  lockMode : string;
  headLockOnly : bool;
  instantSwitch : bool;
  switchDelay : float;
  targetTimeout : float;
  maxTargetDistance : float;
  enableSnap : bool;
  snapSpeed : float;
  fireOnLock : bool;
  minLockTime : float;
  fireRate : float;
  maxFireDistance : float;
  minAccuracy : float;
  maxFPS : float;
  adaptiveQuality : bool
}.

End Config.

(** [const EnhancedConfig = { ... }] *)
Definition EnhancedConfig : Config.t :=
  {| Config.aimSensitivity := 4.5;
     Config.dragForce := 5.0;
     Config.snapThreshold := 0.0014;
     Config.velocityThreshold := 0.1;
     Config.maxDistance := 99999;
     Config.longRangeMultiplier := 1.2;
     Config.maxPredictionTime := 150;
     Config.predictionWeight := 0.3;
     Config.kalman_R := 0.004;
     Config.kalman_Q := 0.01;
     Config.smoothingFactor := 0.001;
     Config.recoilCompensation := true;
     Config.recoilFactor := 0.8;
     Config.lockMode := "smart";
     Config.headLockOnly := true;
     Config.instantSwitch := false;
     Config.switchDelay := 200;
     Config.targetTimeout := 2000;
     Config.maxTargetDistance := 99999;
     Config.enableSnap := true;
     Config.snapSpeed := 5.0;
     Config.fireOnLock := true;
     Config.minLockTime := 0.01;
     Config.fireRate := 60;
     Config.maxFireDistance := 99999;
     Config.minAccuracy := 0.0;
     Config.maxFPS := 144;
     Config.adaptiveQuality := true |}.

(* ================================================================== *)
(** ** class EnhancedDragLock *)

Module EnhancedDragLock.

Local Open Scope float_scope.

Record t : Type := mk {
  config : Config.t;
  velocity : Vector3.t;
  lastPosition : Vector3.t;
  lastTime : float
}.

Definition constructor (config : Config.t) : JS.IO t :=
  let* now := JS.Date_now in
  JS.ret (mk config Vector3.zero Vector3.zero now).

(** The force of the pull: the configured one, scaled at long range. *)
Definition force (this : t) (distance : float) : float :=
  let force := Config.dragForce (config this) in
  if JS.gtb distance (Config.maxDistance (config this))
  then force * Config.longRangeMultiplier (config this)
  else force.

(** The snapping test of [applyDragLock], on the velocity already blended. *)
Definition snaps (this : t) (distance : float) (velocity : Vector3.t) : bool :=
  (distance <? Config.snapThreshold (config this)) &&
  (Vector3.length velocity <? Config.velocityThreshold (config this)) &&
  Config.enableSnap (config this).

Definition applyDragLock (currentPos targetPos : Vector3.t) (deltaTime : float)
    (this : t) : Vector3.t * t :=
  let delta := Vector3.subtract targetPos currentPos in
  let distance := Vector3.length delta in
  let force := force this distance in
  let targetVelocity := Vector3.multiply delta force in
  let this := mk (config this)
                 (Vector3.lerp (velocity this) targetVelocity
                    (Config.smoothingFactor (config this)))
                 (lastPosition this) (lastTime this) in
  let movement := Vector3.multiply (velocity this) deltaTime in
  let next := Vector3.add currentPos movement in
  if snaps this distance (velocity this) then (targetPos, this)
  else (next, mk (config this) (velocity this) (Vector3.clone next) (lastTime this)).

Definition applyRecoilCompensation (currentPos recoilVector : Vector3.t) (this : t)
    : Vector3.t :=
  if negb (Config.recoilCompensation (config this)) then currentPos
  else
    let compensation := Vector3.multiply recoilVector (- Config.recoilFactor (config this)) in
    Vector3.add currentPos compensation.

End EnhancedDragLock.

(* ================================================================== *)
(** ** class TargetPredictor *)

Module TargetPredictor.

Local Open Scope float_scope.

(** An entry [{ position, time }] of the history. *)
Record Sample : Type := sample { position : Vector3.t; time : float }.

Record t : Type := mk {
  config : Config.t;
  positionHistory : list Sample;
  maxHistorySize : nat
}.

Definition constructor (config : Config.t) : t := mk config [] 10.

Definition addPosition (pos : Vector3.t) (timestamp : float) (this : t) : t :=
  let history := positionHistory this ++ [sample (Vector3.clone pos) timestamp] in
  mk (config this)
     (if (maxHistorySize this <? List.length history)%nat then tl history else history)
     (maxHistorySize this).

(** [recent.slice(-n)]: the last [n] entries, all of them when there are fewer. *)
Definition slice_last {A} (n : nat) (l : list A) : list A :=
  skipn (List.length l - n) l.

(** The velocity between two consecutive samples, in units per second (the
    times are in milliseconds), and whether the loop adds it. *)
Definition elapsed (prev cur : Sample) : float := (time cur - time prev) / 1000.
Definition pairVelocity (prev cur : Sample) : Vector3.t :=
  Vector3.multiply (Vector3.subtract (position cur) (position prev)) (1 / elapsed prev cur).

(** The loop [for (let i = 1; i < recent.length; i++)], entered with
    [prev = recent[i-1]] and the entries from index [i] on. *)
Fixpoint sumVelocities (prev : Sample) (rest : list Sample) (avgVelocity : Vector3.t)
    : Vector3.t :=
  match rest with
  | [] => avgVelocity
  | cur :: rest' =>
      let avgVelocity :=
        if JS.gtb (elapsed prev cur) 0
        then Vector3.add avgVelocity (pairVelocity prev cur)
        else avgVelocity in
      sumVelocities cur rest' avgVelocity
  end.

Definition predictPosition (timeAhead : float) (this : t) : Vector3.t :=
  let history := positionHistory this in
  if (List.length history <? 2)%nat then
    match history with
    | s :: _ => position s
    | [] => Vector3.zero
    end
  else
    let recent := slice_last 3 history in
    let avgVelocity :=
      match recent with
      | first :: rest => sumVelocities first rest Vector3.zero
      | [] => Vector3.zero
      end in
    let avgVelocity :=
      Vector3.multiply avgVelocity (1 / JS.Number_of_nat (List.length recent - 1)) in
    let currentPos :=
      position (nth (List.length history - 1) history (sample Vector3.zero 0)) in
    Vector3.add currentPos (Vector3.multiply avgVelocity timeAhead).

Definition reset (this : t) : t := mk (config this) [] (maxHistorySize this).

End TargetPredictor.

(* ================================================================== *)
(** ** Target objects and the store that holds them

    A target is an object that [targets], [currentTarget] and the result of
    [getBestTarget] all refer to, and that [getBestTarget] and [updateTarget]
    mutate in place; a reference is a location of the store. *)

Module Target.

Record t : Type := mk {
  id : float;
  position : Vector3.t;
  priority : float;
  targetType : string;
  lastSeen : float;
  isVisible : bool;
  health : float;
  distance : float
}.

Definition set_distance (d : float) (o : t) : t :=
  mk (id o) (position o) (priority o) (targetType o) (lastSeen o) (isVisible o)
     (health o) d.

(** What [updateTarget] writes. *)
Definition set_seen (pos : Vector3.t) (now : float) (o : t) : t :=
  mk (id o) pos (priority o) (targetType o) now true (health o) (distance o).

#[global] Instance inhabited : Inhabited t :=
  populate (mk 0%float Vector3.zero 0%float ""%string 0%float false 0%float 0%float).

End Target.

Abbreviation loc := nat (only parsing).
Abbreviation Heap := (gmap nat Target.t) (only parsing).

(** Reading the object behind a reference, and writing it back. *)
Definition deref (h : Heap) (l : loc) : Target.t := h !!! l.
Definition store (l : loc) (o : Target.t) (h : Heap) : Heap := <[l := o]> h.

(** A reference to a new object. *)
Definition alloc (h : Heap) : loc := fresh (dom h).

(* ================================================================== *)
(** ** class EnhancedTargetManager *)

Module EnhancedTargetManager.

Local Open Scope float_scope.

Record t : Type := mk {
  config : Config.t;
  targets : list loc;
  currentTarget : option loc;
  targetLockTime : float;
  switchCooldown : float
}.

Definition constructor (config : Config.t) : t := mk config [] None 0 0.

Definition addTarget (pos : Vector3.t) (priority : float) (targetType : string)
    (h : Heap) (this : t) : JS.IO (loc * Heap * t) :=
  let* now := JS.Date_now in
  let* r := JS.Math_random in
  let* seen := JS.Date_now in
  let target :=
    Target.mk (now + r) (Vector3.clone pos) priority targetType seen true 100 0 in
  let l := alloc h in
  JS.ret (l, store l target h,
          mk (config this) (targets this ++ [l]) (currentTarget this)
             (targetLockTime this) (switchCooldown this)).

Definition updateTarget (targetId : float) (newPosition : Vector3.t)
    (h : Heap) (this : t) : JS.IO Heap :=
  match List.find (fun l => Target.id (deref h l) =? targetId) (targets this) with
  | Some l =>
      let* now := JS.Date_now in
      JS.ret (store l (Target.set_seen (Vector3.clone newPosition) now (deref h l)) h)
  | None => JS.ret h
  end.

Definition removeTarget (targetId : float) (h : Heap) (this : t) : t :=
  let targets' :=
    List.filter (fun l => JS.neqb (Target.id (deref h l)) targetId) (targets this) in
  let current' :=
    match currentTarget this with
    | Some c => if Target.id (deref h c) =? targetId then None else Some c
    | None => None
    end in
  mk (config this) targets' current' (targetLockTime this) (switchCooldown this).

(** The test of the filter in [getBestTarget]. *)
Definition isValid (this : t) (currentTime : float) (o : Target.t) : bool :=
  let timeSinceLastSeen := currentTime - Target.lastSeen o in
  Target.isVisible o &&
  (timeSinceLastSeen <? Config.targetTimeout (config this)) &&
  JS.gtb (Target.health o) 0.

Definition calculateTargetScore (h : Heap) (this : t) (target : loc) (cameraPos : Vector3.t)
    : float :=
  let o := deref h target in
  let score := Target.priority o * 100 in
  let maxDistance := JS.or_else (Config.maxTargetDistance (config this)) 50 in
  let distanceFactor := JS.Math_max 0 (1 - (Target.distance o / maxDistance)) in
  let score := score + distanceFactor * 50 in
  let score :=
    if String.eqb (Target.targetType o) "head" && Config.headLockOnly (config this)
    then score + 30 else score in
  let score :=
    match currentTarget this with
    | Some c => if Target.id (deref h c) =? Target.id o then score + 20 else score
    | None => score
    end in
  score.

(** [validTargets.forEach(target => target.distance = ...)] *)
Definition updateDistances (cameraPos : Vector3.t) (validTargets : list loc) (h : Heap)
    : Heap :=
  fold_left
    (fun h l =>
       let o := deref h l in
       store l (Target.set_distance (Vector3.distanceTo cameraPos (Target.position o)) o) h)
    validTargets h.

(** The selection loop, entered with the best target and score so far. *)
Fixpoint selectLoop (h : Heap) (this : t) (cameraPos : Vector3.t)
    (rest : list loc) (bestTarget : loc) (bestScore : float) : loc :=
  match rest with
  | [] => bestTarget
  | l :: rest' =>
      let score := calculateTargetScore h this l cameraPos in
      if JS.gtb score bestScore
      then selectLoop h this cameraPos rest' l score
      else selectLoop h this cameraPos rest' bestTarget bestScore
  end.

(** The target switching logic that ends [getBestTarget]. *)
Definition switchTo (h : Heap) (this : t) (bestTarget : loc) : option loc * t :=
  let commit cooldown :=
    (Some bestTarget,
     mk (config this) (targets this) (Some bestTarget) (targetLockTime this) cooldown) in
  match currentTarget this with
  | Some c =>
      if JS.neqb (Target.id (deref h c)) (Target.id (deref h bestTarget)) then
        if JS.gtb (switchCooldown this) 0 && negb (Config.instantSwitch (config this))
        then (currentTarget this, this)
        else commit (Config.switchDelay (config this))
      else commit (switchCooldown this)
  | None => commit (switchCooldown this)
  end.

Definition getBestTarget (cameraPos : Vector3.t) (h : Heap) (this : t)
    : JS.IO (option loc * Heap * t) :=
  if (List.length (targets this) =? 0)%nat then JS.ret (None, h, this)
  else
    let* currentTime := JS.Date_now in
    let validTargets :=
      List.filter (fun l => isValid this currentTime (deref h l)) (targets this) in
    match validTargets with
    | [] => JS.ret (None, h, this)
    | first :: rest =>
        let h := updateDistances cameraPos validTargets h in
        let bestScore := calculateTargetScore h this first cameraPos in
        let bestTarget := selectLoop h this cameraPos rest first bestScore in
        let '(result, this) := switchTo h this bestTarget in
        JS.ret (result, h, this)
    end.

Definition update (deltaTime : float) (this : t) : t :=
  if JS.gtb (switchCooldown this) 0
  then mk (config this) (targets this) (currentTarget this) (targetLockTime this)
          (switchCooldown this - deltaTime)
  else this.

End EnhancedTargetManager.

(* ================================================================== *)
(** ** class PerformanceMonitor *)

Module PerformanceMonitor.

Local Open Scope float_scope.

Record t : Type := mk {
  frameCount : float;
  lastFpsUpdate : float;
  fps : float;
  frameTime : float;
  lastFrameTime : float
}.

Definition constructor : JS.IO t :=
  let* t0 := JS.Date_now in
  let* t1 := JS.Date_now in
  JS.ret (mk 0 t0 0 0 t1).

Definition startFrame (this : t) : JS.IO t :=
  let* now := JS.Date_now in
  JS.ret (mk (frameCount this) (lastFpsUpdate this) (fps this) (frameTime this) now).

Definition endFrame (this : t) : JS.IO t :=
  let* currentTime := JS.Date_now in
  let frameTime := currentTime - lastFrameTime this in
  let frameCount := frameCount this + 1 in
  if JS.gtb (currentTime - lastFpsUpdate this) 1000
  then JS.ret (mk 0 currentTime frameCount frameTime (lastFrameTime this))
  else JS.ret (mk frameCount (lastFpsUpdate this) (fps this) frameTime (lastFrameTime this)).

End PerformanceMonitor.

(* ================================================================== *)
(** ** class EnhancedCamera

    [getViewDirection] is left out: nothing in the control loop calls it. *)

Module EnhancedCamera.

Local Open Scope float_scope.

Record t : Type := mk {
  position : Vector3.t;
  rotation : Vector3.t;
  fov : float;
  sensitivity : float
}.

Definition constructor : t := mk Vector3.zero Vector3.zero 90 1.0.

Definition setPosition (vec : Vector3.t) (this : t) : t :=
  mk (Vector3.clone vec) (rotation this) (fov this) (sensitivity this).

Definition setRotation (rot : Vector3.t) (this : t) : t :=
  mk (position this) (Vector3.clone rot) (fov this) (sensitivity this).

Definition smoothMove (targetPos : Vector3.t) (deltaTime smoothingFactor : float)
    (this : t) : t :=
  mk (Vector3.lerp (position this) targetPos (smoothingFactor * deltaTime))
     (rotation this) (fov this) (sensitivity this).

End EnhancedCamera.

(* ================================================================== *)
(** ** class SmartAutoFire *)

Module SmartAutoFire.

Local Open Scope float_scope.

Record t : Type := mk {
  config : Config.t;
  lastFireTime : float;
  consecutiveHits : float;
  accuracy : float
}.

Definition constructor (config : Config.t) : t := mk config 0 0 10.0.

(** The three gates of [canFire], on a clock reading already taken. *)
Definition gates (this : t) (currentTime targetDistance aimAccuracy : float) : bool :=
  let timeSinceLastFire := currentTime - lastFireTime this in
  if timeSinceLastFire <? Config.fireRate (config this) then false
  else if JS.gtb targetDistance (Config.maxFireDistance (config this)) then false
  else if aimAccuracy <? Config.minAccuracy (config this) then false
  else true.

Definition canFire (targetDistance aimAccuracy : float) (this : t) : JS.IO bool :=
  let* currentTime := JS.Date_now in
  JS.ret (gates this currentTime targetDistance aimAccuracy).

Definition fire (target : Target.t) (aimAccuracy : float) (this : t) : JS.IO (bool * t) :=
  let* ok := canFire (Target.distance target) aimAccuracy this in
  if negb ok then JS.ret (false, this)
  else
    let* now := JS.Date_now in
    let this := mk (config this) now (consecutiveHits this) (accuracy this) in
    let hitChance := aimAccuracy * accuracy this in
    let* r := JS.Math_random in
    let hit := r <? hitChance in
    if hit then
      let this := mk (config this) (lastFireTime this) (consecutiveHits this + 1)
                     (accuracy this) in
      let* _ := JS.console_log (JS.LogFireHit (consecutiveHits this)) in
      JS.ret (hit, this)
    else
      let this := mk (config this) (lastFireTime this) 0 (accuracy this) in
      let* _ := JS.console_log (JS.LogFireMiss aimAccuracy) in
      JS.ret (hit, this).

Definition updateAccuracy (recentPerformance : float) (this : t) : t :=
  mk (config this) (lastFireTime this) (consecutiveHits this)
     (JS.Math_max 0.1 (JS.Math_min 1.0 recentPerformance)).

End SmartAutoFire.

(* ================================================================== *)
(** ** class EnhancedAimLockEngine

    The three-argument [addTarget] written right after the constructor is
    replaced by the five-argument one written later in the class body, so only
    the latter exists at run time.  The interval timer of [start] and [stop]
    is outside the model: a run is a sequence of calls to [updateAimLock]. *)

Module EnhancedAimLockEngine.

Local Open Scope float_scope.

Record t : Type := mk {
  config : Config.t;
  isActive : bool;
  lastUpdateTime : float;
  kalmanX : AdvancedKalmanFilter.t;
  kalmanY : AdvancedKalmanFilter.t;
  kalmanZ : AdvancedKalmanFilter.t;
  dragLock : EnhancedDragLock.t;
  camera : EnhancedCamera.t;
  autoFire : SmartAutoFire.t;
  targetManager : EnhancedTargetManager.t;
  predictor : TargetPredictor.t;
  performance : PerformanceMonitor.t;
  currentAccuracy : float;
  lockDuration : float;
  totalShots : float;
  totalHits : float
}.

Definition constructor (config : Config.t) : JS.IO t :=
  let* now := JS.Date_now in
  let newKalman :=
    AdvancedKalmanFilter.constructor (Config.kalman_R config) (Config.kalman_Q config)
      AdvancedKalmanFilter.default_processNoise in
  let* kx := newKalman in
  let* ky := newKalman in
  let* kz := newKalman in
  let* dl := EnhancedDragLock.constructor config in
  let* pm := PerformanceMonitor.constructor in
  JS.ret (mk config false now kx ky kz dl EnhancedCamera.constructor
             (SmartAutoFire.constructor config)
             (EnhancedTargetManager.constructor config)
             (TargetPredictor.constructor config) pm 0 0 0 0).

Definition addTarget (x y z priority : float) (type : string) (h : Heap) (this : t)
    : JS.IO (loc * Heap * t) :=
  let* '(l, h, tm) :=
    EnhancedTargetManager.addTarget (Vector3.new x y z) priority type h (targetManager this) in
  JS.ret (l, h,
          mk (config this) (isActive this) (lastUpdateTime this) (kalmanX this)
             (kalmanY this) (kalmanZ this) (dragLock this) (camera this) (autoFire this)
             tm (predictor this) (performance this) (currentAccuracy this)
             (lockDuration this) (totalShots this) (totalHits this)).

Definition getHitRate (this : t) : float :=
  if JS.gtb (totalShots this) 0 then totalHits this / totalShots this else 0.

Definition resetTracking (this : t) : JS.IO t :=
  let* kx := AdvancedKalmanFilter.reset (kalmanX this) in
  let* ky := AdvancedKalmanFilter.reset (kalmanY this) in
  let* kz := AdvancedKalmanFilter.reset (kalmanZ this) in
  JS.ret (mk (config this) (isActive this) (lastUpdateTime this) kx ky kz
             (dragLock this) (camera this) (autoFire this) (targetManager this)
             (TargetPredictor.reset (predictor this)) (performance this)
             (currentAccuracy this) 0 (totalShots this) (totalHits this)).

Definition logStatus (this : t) : JS.IO unit :=
  JS.console_log
    (JS.LogEngineStatus (PerformanceMonitor.fps (performance this))
       (currentAccuracy this * 100) (getHitRate this * 100)
       (List.length (EnhancedTargetManager.targets (targetManager this)))).

(** [this.isActive = true; this.lastUpdateTime = Date.now()] of [start]. *)
Definition start (this : t) : JS.IO t :=
  let* now := JS.Date_now in
  JS.ret (mk (config this) true now (kalmanX this) (kalmanY this) (kalmanZ this)
             (dragLock this) (camera this) (autoFire this) (targetManager this)
             (predictor this) (performance this) (currentAccuracy this)
             (lockDuration this) (totalShots this) (totalHits this)).

(** [updateAimLock] from the prediction update to the lock duration: the
    filters, the predictor, the blend, the drag lock and the accuracy. *)
Definition aim (target : Target.t) (currentTime deltaTime : float) (this : t) : JS.IO t :=
  let predictor :=
    TargetPredictor.addPosition (Target.position target) currentTime (predictor this) in
  let* '(fx, kx) :=
    AdvancedKalmanFilter.update (Vector3.x (Target.position target)) (kalmanX this) in
  let* '(fy, ky) :=
    AdvancedKalmanFilter.update (Vector3.y (Target.position target)) (kalmanY this) in
  let* '(fz, kz) :=
    AdvancedKalmanFilter.update (Vector3.z (Target.position target)) (kalmanZ this) in
  let filteredPos := Vector3.new fx fy fz in
  let predictionTime := Config.maxPredictionTime (config this) / 1000 in
  let predictedPos := TargetPredictor.predictPosition predictionTime predictor in
  let blendFactor := JS.Math_min (Target.distance target / 20) 1 in
  let finalTarget :=
    Vector3.lerp filteredPos predictedPos
      (blendFactor * Config.predictionWeight (config this)) in
  let '(newPos, dragLock) :=
    EnhancedDragLock.applyDragLock (EnhancedCamera.position (camera this)) finalTarget
      deltaTime (dragLock this) in
  let camera := EnhancedCamera.setPosition newPos (camera this) in
  let aimError := Vector3.distanceTo newPos finalTarget in
  let currentAccuracy :=
    JS.Math_max 0 (1 - (aimError / Config.snapThreshold (config this))) in
  let lockDuration :=
    if JS.gtb currentAccuracy 0.8 then lockDuration this + deltaTime else 0 in
  JS.ret (mk (config this) (isActive this) (lastUpdateTime this) kx ky kz dragLock
             camera (autoFire this) (targetManager this) predictor (performance this)
             currentAccuracy lockDuration (totalShots this) (totalHits this)).

(** Whether the auto fire logic calls [autoFire.fire] in this state. *)
Definition firesOnLock (this : t) : bool :=
  Config.fireOnLock (config this) &&
  JS.gtb (lockDuration this) (Config.minLockTime (config this)).

(** The counters after a call of [fire] that returned [fired]. *)
Definition tally (fired : bool) (this : t) : float * float :=
  if fired then
    (totalShots this + 1,
     if JS.gtb (currentAccuracy this) 0.9 then totalHits this + 1 else totalHits this)
  else (totalShots this, totalHits this).

(** The auto fire logic of [updateAimLock]. *)
Definition autoFireLogic (target : Target.t) (this : t) : JS.IO t :=
  if firesOnLock this then
    let* '(fired, autoFire) :=
      SmartAutoFire.fire target (currentAccuracy this) (autoFire this) in
    let '(totalShots, totalHits) := tally fired this in
    JS.ret (mk (config this) (isActive this) (lastUpdateTime this) (kalmanX this)
               (kalmanY this) (kalmanZ this) (dragLock this) (camera this) autoFire
               (targetManager this) (predictor this) (performance this)
               (currentAccuracy this) (lockDuration this) totalShots totalHits)
  else JS.ret this.

(** The end of [updateAimLock]: the cooldown, the adaptive accuracy, the
    status line about once a second, and the frame statistics. *)
Definition finish (currentTime deltaTime : float) (this : t) : JS.IO t :=
  let targetManager' := EnhancedTargetManager.update deltaTime (targetManager this) in
  let autoFire' := SmartAutoFire.updateAccuracy (getHitRate this) (autoFire this) in
  let this :=
    mk (config this) (isActive this) (lastUpdateTime this) (kalmanX this)
       (kalmanY this) (kalmanZ this) (dragLock this) (camera this) autoFire'
       targetManager' (predictor this) (performance this)
       (currentAccuracy this) (lockDuration this) (totalShots this) (totalHits this) in
  let* _ := if JS.rem currentTime 1000 <? 16 then logStatus this else JS.ret tt in
  let* performance' := PerformanceMonitor.endFrame (performance this) in
  JS.ret (mk (config this) (isActive this) (lastUpdateTime this) (kalmanX this)
             (kalmanY this) (kalmanZ this) (dragLock this) (camera this) (autoFire this)
             (targetManager this) (predictor this) performance'
             (currentAccuracy this) (lockDuration this) (totalShots this) (totalHits this)).

(** The start of [updateAimLock]: the frame timer, the elapsed time, and the
    selection of the target. *)
Definition select (h : Heap) (this : t) : JS.IO (option loc * float * float * Heap * t) :=
  let* performance := PerformanceMonitor.startFrame (performance this) in
  let* currentTime := JS.Date_now in
  let deltaTime := (currentTime - lastUpdateTime this) / 1000 in
  let* '(target, h, targetManager) :=
    EnhancedTargetManager.getBestTarget (EnhancedCamera.position (camera this)) h
      (targetManager this) in
  JS.ret (target, currentTime, deltaTime, h,
          mk (config this) (isActive this) currentTime (kalmanX this)
             (kalmanY this) (kalmanZ this) (dragLock this) (camera this) (autoFire this)
             targetManager (predictor this) performance
             (currentAccuracy this) (lockDuration this) (totalShots this) (totalHits this)).

Definition updateAimLock (h : Heap) (this : t) : JS.IO (Heap * t) :=
  let* '(target, currentTime, deltaTime, h, this) := select h this in
  match target with
  | None =>
      let* this := resetTracking this in
      let* performance := PerformanceMonitor.endFrame (performance this) in
      JS.ret (h,
              mk (config this) (isActive this) (lastUpdateTime this) (kalmanX this)
                 (kalmanY this) (kalmanZ this) (dragLock this) (camera this)
                 (autoFire this) (targetManager this) (predictor this) performance
                 (currentAccuracy this) (lockDuration this) (totalShots this)
                 (totalHits this))
  | Some target =>
      let* this := aim (deref h target) currentTime deltaTime this in
      let* this := autoFireLogic (deref h target) this in
      let* this := finish currentTime deltaTime this in
      JS.ret (h, this)
  end.

End EnhancedAimLockEngine.

(* ================================================================== *)
(** ** Counters as binary64 numbers

    The engine's counters start at [0] and are only ever incremented by one.
    [count n] is the binary64 number that the natural [n] is, and
    [counts c n] says that the number [c] is that one. *)

Module Binary64.

Local Open Scope Z_scope.

(** Zeros and finite numbers, as opposed to infinities and NaN. *)
Definition SF_is_finite (x : spec_float) : bool :=
  match x with
  | S754_zero _ | S754_finite _ _ _ => true
  | _ => false
  end.

Definition count (n : Z) : spec_float := binary_normalize prec emax n 0 false.

Definition counts (c : float) (n : Z) : Prop := 0 <= n <= 2 ^ 53 /\ Prim2SF c = count n.

End Binary64.

(** The engine states of a run: what the constructor returns, and what
    [addTarget], [start], [resetTracking] and [updateAimLock] lead to from
    there, whatever the store and the world; within a tick, also the states
    its selection, its aiming and its auto fire logic hand on. *)
Inductive reachable : EnhancedAimLockEngine.t -> Prop :=
| reach_constructor config w :
    reachable (fst (EnhancedAimLockEngine.constructor config w))
| reach_addTarget x y z priority type h e w :
    reachable e ->
    reachable (snd (fst (EnhancedAimLockEngine.addTarget x y z priority type h e w)))
| reach_start e w :
    reachable e -> reachable (fst (EnhancedAimLockEngine.start e w))
| reach_resetTracking e w :
    reachable e -> reachable (fst (EnhancedAimLockEngine.resetTracking e w))
| reach_updateAimLock h e w :
    reachable e -> reachable (snd (fst (EnhancedAimLockEngine.updateAimLock h e w)))
| reach_select h e w :
    reachable e -> reachable (snd (fst (EnhancedAimLockEngine.select h e w)))
| reach_aim target currentTime deltaTime e w :
    reachable e ->
    reachable (fst (EnhancedAimLockEngine.aim target currentTime deltaTime e w))
| reach_autoFireLogic target e w :
    reachable e -> reachable (fst (EnhancedAimLockEngine.autoFireLogic target e w)).

(** Both counters are counts, and no more hits than shots were counted. *)
Definition counted (e : EnhancedAimLockEngine.t) : Prop :=
  exists m n : Z,
    (m <= n)%Z /\
    Binary64.counts (EnhancedAimLockEngine.totalHits e) m /\
    Binary64.counts (EnhancedAimLockEngine.totalShots e) n.

(* ================================================================== *)
(** ** What the specification says where it departs from the code *)

Module Spec.

Local Open Scope float_scope.

(** The first covariance entry after [predict(dt)], as the specification
    words it: [P00' = P00 + dt*P10 + dt*P01 + processNoise]. *)
Definition predicted_P00 (dt : float) (k : AdvancedKalmanFilter.t) : float :=
  AdvancedKalmanFilter.P00 k + dt * AdvancedKalmanFilter.P10 k
  + dt * AdvancedKalmanFilter.P01 k + AdvancedKalmanFilter.processNoise k.

(** The prediction from two samples [(p0,t0)], [(p1,t1)], as the
    specification words it: [p1 + ((p1-p0)/(t1-t0))*timeAhead], component by
    component. *)
Definition two_sample_prediction (p0 : Vector3.t) (t0 : float) (p1 : Vector3.t)
    (t1 timeAhead : float) : Vector3.t :=
  Vector3.new
    (Vector3.x p1 + ((Vector3.x p1 - Vector3.x p0) / (t1 - t0)) * timeAhead)
    (Vector3.y p1 + ((Vector3.y p1 - Vector3.y p0) / (t1 - t0)) * timeAhead)
    (Vector3.z p1 + ((Vector3.z p1 - Vector3.z p0) / (t1 - t0)) * timeAhead).

End Spec.

(* ================================================================== *)
(** ** Concrete runs *)

Module Run.

Local Open Scope float_scope.

(** A clock that starts at 1700000000000 ms and advances by 2 ms at every
    reading, and a random generator that always draws 0.5. *)
Definition world : JS.World :=
  JS.mkWorld (fun n => 1700000000000 + 2 * JS.Number_of_nat n) 0 (fun _ => 0.5) 0 [].

(** [k = new AdvancedKalmanFilter()], not yet fed. *)
Definition kalman_new : AdvancedKalmanFilter.t :=
  fst (AdvancedKalmanFilter.constructor AdvancedKalmanFilter.default_R
         AdvancedKalmanFilter.default_Q AdvancedKalmanFilter.default_processNoise world).

(** [k.update(5); k.predict(1)] *)
Definition kalman_moved : AdvancedKalmanFilter.t :=
  AdvancedKalmanFilter.predict 1
    (snd (fst (AdvancedKalmanFilter.update 5 kalman_new world))).

(** A predictor fed the origin at time 0 ms and [(1,0,0)] at time 1000 ms,
    and one fed [(3,0,0)] at time 2000 ms after that. *)
Definition predictor_two : TargetPredictor.t :=
  TargetPredictor.addPosition (Vector3.new 1 0 0) 1000
    (TargetPredictor.addPosition (Vector3.new 0 0 0) 0
       (TargetPredictor.constructor EnhancedConfig)).

Definition predictor_three : TargetPredictor.t :=
  TargetPredictor.addPosition (Vector3.new 3 0 0) 2000 predictor_two.

(** A drag lock at rest. *)
Definition dragLock_new : EnhancedDragLock.t :=
  fst (EnhancedDragLock.constructor EnhancedConfig world).

(** [engine = new EnhancedAimLockEngine(EnhancedConfig);
     engine.addTarget(0, 0, 0, 1, 'head'); engine.start()], then two ticks:
    the store, the engine and the world after each step. *)
Definition started_in (w : JS.World) : (Heap * EnhancedAimLockEngine.t) * JS.World :=
  (let* e := EnhancedAimLockEngine.constructor EnhancedConfig in
   let* '(_, h, e) := EnhancedAimLockEngine.addTarget 0 0 0 1 "head" ∅ e in
   let* e := EnhancedAimLockEngine.start e in
   JS.ret (h, e)) w.

Definition tick (s : (Heap * EnhancedAimLockEngine.t) * JS.World)
    : (Heap * EnhancedAimLockEngine.t) * JS.World :=
  EnhancedAimLockEngine.updateAimLock (fst (fst s)) (snd (fst s)) (snd s).

Definition started : (Heap * EnhancedAimLockEngine.t) * JS.World := started_in world.
Definition after_tick1 : (Heap * EnhancedAimLockEngine.t) * JS.World := tick started.
Definition after_tick2 : (Heap * EnhancedAimLockEngine.t) * JS.World := tick after_tick1.

(** The same run when the generator always draws 0.05. *)
Definition world_lucky : JS.World :=
  JS.mkWorld (JS.clock world) 0 (fun _ => 0.05) 0 [].

Definition lucky_tick1 : (Heap * EnhancedAimLockEngine.t) * JS.World :=
  tick (started_in world_lucky).
Definition lucky_tick2 : (Heap * EnhancedAimLockEngine.t) * JS.World := tick lucky_tick1.

(** The selection of a tick, and the engine as its auto fire logic finds it
    (the one target of these runs is at location 0). *)
Definition select_of (s : (Heap * EnhancedAimLockEngine.t) * JS.World)
    : option loc * float * float * Heap * EnhancedAimLockEngine.t * JS.World :=
  EnhancedAimLockEngine.select (fst (fst s)) (snd (fst s)) (snd s).

Definition aimed_of (s : (Heap * EnhancedAimLockEngine.t) * JS.World)
    : EnhancedAimLockEngine.t * JS.World :=
  let '(_, currentTime, deltaTime, h, e, w) := select_of s in
  EnhancedAimLockEngine.aim (deref h 0%nat) currentTime deltaTime e w.

(** The registry on its own, under a clock that reads 1000, 1000, 1010, 1020,
    1020, 1030, 4000, 4010 ms and a generator that draws 0.25, 0.75:
    [a = addTarget(origin, 1, 'head'); getBestTarget(origin);
     b = addTarget(origin, 2, 'head'); getBestTarget(origin);
     update(3); updateTarget(a.id, origin)].
    The first selection is [a], the second switches to [b] and arms the
    cooldown; three seconds later only [a] has been seen again. *)
Definition registry_world : JS.World :=
  JS.mkWorld (fun n => nth n [1000; 1000; 1010; 1020; 1020; 1030; 4000; 4010] 4010) 0
             (fun n => nth n [0.25; 0.75] 0.5) 0 [].

Definition registry_stale : (Heap * EnhancedTargetManager.t) * JS.World :=
  (let origin := Vector3.new 0 0 0 in
   let m := EnhancedTargetManager.constructor EnhancedConfig in
   let* '(a, h, m) := EnhancedTargetManager.addTarget origin 1 "head" ∅ m in
   let* '(_, h, m) := EnhancedTargetManager.getBestTarget origin h m in
   let* '(_, h, m) := EnhancedTargetManager.addTarget origin 2 "head" h m in
   let* '(_, h, m) := EnhancedTargetManager.getBestTarget origin h m in
   let m := EnhancedTargetManager.update 3 m in
   let* h := EnhancedTargetManager.updateTarget (Target.id (deref h a)) origin h m in
   JS.ret (h, m)) registry_world.

(** The same registry right after its first selection: [a] alone, selected. *)
Definition registry_first : (Heap * EnhancedTargetManager.t) * JS.World :=
  (let origin := Vector3.new 0 0 0 in
   let m := EnhancedTargetManager.constructor EnhancedConfig in
   let* '(a, h, m) := EnhancedTargetManager.addTarget origin 1 "head" ∅ m in
   let* '(_, h, m) := EnhancedTargetManager.getBestTarget origin h m in
   let* '(_, h, m) := EnhancedTargetManager.addTarget origin 2 "head" h m in
   JS.ret (h, m)) registry_world.

(** And before any selection: [a] alone, nothing selected. *)
Definition registry_one : (Heap * EnhancedTargetManager.t) * JS.World :=
  (let origin := Vector3.new 0 0 0 in
   let m := EnhancedTargetManager.constructor EnhancedConfig in
   let* '(_, h, m) := EnhancedTargetManager.addTarget origin 1 "head" ∅ m in
   JS.ret (h, m)) registry_world.

(** [getBestTarget(origin)] in such a registry state, and the targets that
    pass its filter there. *)
Definition select_in (s : (Heap * EnhancedTargetManager.t) * JS.World)
    : option loc * Heap * EnhancedTargetManager.t :=
  fst (EnhancedTargetManager.getBestTarget (Vector3.new 0 0 0)
         (fst (fst s)) (snd (fst s)) (snd s)).

Definition valid_in (s : (Heap * EnhancedTargetManager.t) * JS.World) : list loc :=
  List.filter
    (fun l => EnhancedTargetManager.isValid (snd (fst s))
                (JS.clock (snd s) (JS.clock_reads (snd s))) (deref (fst (fst s)) l))
    (EnhancedTargetManager.targets (snd (fst s))).

End Run.

(* ================================================================== *)
(** ** Sequences of calls *)

Module Scenario.

Local Open Scope float_scope.

(** [addPosition] called once for each sample of a list, first to last. *)
Definition feed (samples : list TargetPredictor.Sample) (p : TargetPredictor.t)
    : TargetPredictor.t :=
  fold_left
    (fun p s =>
       TargetPredictor.addPosition (TargetPredictor.position s) (TargetPredictor.time s) p)
    samples p.

(** Twelve samples along the x axis, one every 10 ms. *)
Definition twelve : list TargetPredictor.Sample :=
  map (fun n =>
         TargetPredictor.sample (Vector3.new (JS.Number_of_nat n) 0 0)
           (10 * JS.Number_of_nat n))
      (seq 0 12).

(** Three samples of which the first two carry the same timestamp. *)
Definition stalled : TargetPredictor.t :=
  feed [TargetPredictor.sample (Vector3.new 0 0 0) 1000;
        TargetPredictor.sample (Vector3.new 1 0 0) 1000;
        TargetPredictor.sample (Vector3.new 3 0 0) 2000]
       (TargetPredictor.constructor EnhancedConfig).

(** A clock stopped at 5000 ms. *)
Definition late_world : JS.World := JS.mkWorld (fun _ => 5000) 0 (fun _ => 0.5) 0 [].

(** Two targets of equal priority at the same place, nothing selected. *)
Definition registry_tie : (Heap * EnhancedTargetManager.t) * JS.World :=
  (let origin := Vector3.new 0 0 0 in
   let m := EnhancedTargetManager.constructor EnhancedConfig in
   let* '(_, h, m) := EnhancedTargetManager.addTarget origin 1 "head" ∅ m in
   let* '(_, h, m) := EnhancedTargetManager.addTarget origin 1 "head" h m in
   JS.ret (h, m)) Run.registry_world.

(** The engine run after its second tick, found again ten seconds later by
    a stopped clock: its one target was last seen long before. *)
Definition abandoned : (Heap * EnhancedAimLockEngine.t) * JS.World :=
  (fst Run.after_tick2, JS.mkWorld (fun _ => 1700000010000) 0 (fun _ => 0.5) 0 []).

(** [k = new AdvancedKalmanFilter(); k.update(5)]: the result, the filter
    and the world afterwards. *)
Definition kalman_first : (float * AdvancedKalmanFilter.t) * JS.World :=
  AdvancedKalmanFilter.update 5 Run.kalman_new Run.world.

(** The engine run with its one target ten units away from the camera. *)
Definition far_started : (Heap * EnhancedAimLockEngine.t) * JS.World :=
  (let* e := EnhancedAimLockEngine.constructor EnhancedConfig in
   let* '(_, h, e) := EnhancedAimLockEngine.addTarget 10 0 0 1 "head" ∅ e in
   let* e := EnhancedAimLockEngine.start e in
   JS.ret (h, e)) Run.world.

End Scenario.

(** Zeros of either sign, among the binary64 values. *)
Definition SF_is_zero (x : spec_float) : bool :=
  match x with
  | S754_zero _ => true
  | _ => false
  end.

(** The number 1 among the binary64 values. *)
Definition SF_one : spec_float := S754_finite false 4503599627370496 (-52).

(** A filter whose velocity and whose covariance entry P10 are zeros. *)
Definition velocity_blind (k : AdvancedKalmanFilter.t) : Prop :=
  PrimFloat.is_zero (AdvancedKalmanFilter.velocity k) = true /\
  PrimFloat.is_zero (AdvancedKalmanFilter.P10 k) = true.

(** The point a tick aims at, [finalTarget] in [updateAimLock]: the filtered
    position of the target blended with the predicted one. *)
Definition finalTarget (target : Target.t) (currentTime : float)
    (this : EnhancedAimLockEngine.t) (w : JS.World) : Vector3.t :=
  fst
    ((let predictor :=
        TargetPredictor.addPosition (Target.position target) currentTime
          (EnhancedAimLockEngine.predictor this) in
      let* '(fx, _) :=
        AdvancedKalmanFilter.update (Vector3.x (Target.position target))
          (EnhancedAimLockEngine.kalmanX this) in
      let* '(fy, _) :=
        AdvancedKalmanFilter.update (Vector3.y (Target.position target))
          (EnhancedAimLockEngine.kalmanY this) in
      let* '(fz, _) :=
        AdvancedKalmanFilter.update (Vector3.z (Target.position target))
          (EnhancedAimLockEngine.kalmanZ this) in
      let filteredPos := Vector3.new fx fy fz in
      let predictionTime :=
        (Config.maxPredictionTime (EnhancedAimLockEngine.config this) / 1000)%float in
      let predictedPos := TargetPredictor.predictPosition predictionTime predictor in
      let blendFactor := JS.Math_min (Target.distance target / 20)%float 1%float in
      JS.ret
        (Vector3.lerp filteredPos predictedPos
           (blendFactor * Config.predictionWeight (EnhancedAimLockEngine.config this))%float))
       w).

(** What [endFrame] makes of the frame statistics with the clock reading
    [now]: the frame lasted since [lastFrameTime]; once more than a second
    has passed since [lastFpsUpdate] the frames counted, this one included,
    become [fps] and the count starts again. *)
Definition framed (before after : PerformanceMonitor.t) (now : float) : Prop :=
  PerformanceMonitor.frameTime after = (now - PerformanceMonitor.lastFrameTime before)%float /\
  PerformanceMonitor.lastFrameTime after = PerformanceMonitor.lastFrameTime before /\
  if JS.gtb (now - PerformanceMonitor.lastFpsUpdate before)%float 1000%float
  then PerformanceMonitor.fps after = (PerformanceMonitor.frameCount before + 1)%float /\
       PerformanceMonitor.frameCount after = 0%float /\
       PerformanceMonitor.lastFpsUpdate after = now
  else PerformanceMonitor.fps after = PerformanceMonitor.fps before /\
       PerformanceMonitor.frameCount after = (PerformanceMonitor.frameCount before + 1)%float /\
       PerformanceMonitor.lastFpsUpdate after = PerformanceMonitor.lastFpsUpdate before.

(** The range [updateAccuracy] clamps to, and what the trigger's accuracy is
    in a run: the constructor's 10, or a number in that range. *)
Definition clamped (a : float) : Prop :=
  (0.1 <=? a)%float = true /\ (a <=? 1)%float = true.

Definition calibrated (e : EnhancedAimLockEngine.t) : Prop :=
  let a := SmartAutoFire.accuracy (EnhancedAimLockEngine.autoFire e) in
  a = 10%float \/ clamped a.

(** Names the components of every pair the goal takes apart. *)
Ltac split_pairs :=
  repeat match goal with
         | |- context [match ?p with pair _ _ => _ end] => destruct p
         end.

(** Closes [a <> b] on closed numbers that [===] tells apart. *)
Ltac float_neq :=
  let H := fresh "H" in
  intro H;
  match type of H with
  | ?a = ?b => apply (f_equal (fun v => PrimFloat.eqb v b)) in H
  end;
  vm_compute in H; discriminate H.

(* ================================================================== *)
(** ** AdvancedKalmanFilter: [predict] and the first [update] *)

Section KalmanFilter.

Import AdvancedKalmanFilter.
Local Open Scope float_scope.

Lemma predict_uninitialized (dt : float) (k : t) :
  isInitialized k = false -> predict dt k = k.
Proof. intros H. unfold predict. now rewrite H. Qed.

Lemma predict_frame (dt : float) (k : t) :
  R (predict dt k) = R k /\ Q (predict dt k) = Q k /\
  processNoise (predict dt k) = processNoise k /\
  isInitialized (predict dt k) = isInitialized k /\
  lastTime (predict dt k) = lastTime k.
Proof. unfold predict. destruct (isInitialized k) eqn:E; cbn; rewrite ?E; repeat split. Qed.

(** C1, as the code has it: on an initialized estimator [predict(dt)] keeps
    the velocity and P10, moves the position to [position + velocity*dt], and
    sets [P00' = P00 + dt*P10 + processNoise] (there is no [dt*P01] term),
    [P01' = P01 + dt*P11], [P11' = P11 + processNoise]; on an uninitialized
    estimator it changes nothing. *)
Theorem predict_relations (dt : float) (k : t) :
  (isInitialized k = true ->
     velocity (predict dt k) = velocity k /\
     position (predict dt k) = position k + velocity k * dt /\
     P00 (predict dt k) = P00 k + dt * P10 k + processNoise k /\
     P01 (predict dt k) = P01 k + dt * P11 k /\
     P10 (predict dt k) = P10 k /\
     P11 (predict dt k) = P11 k + processNoise k) /\
  (isInitialized k = false -> predict dt k = k).
Proof.
  split.
  - intros Hinit. unfold predict. rewrite Hinit. cbn. repeat split.
  - apply predict_uninitialized.
Qed.

(** Both cases of [predict_relations] on estimators the constructor and
    [update] produce. *)
Lemma predict_relations_witness :
  (P00 (predict 1 Run.kalman_moved) = 1.2000000000000002 /\
   P01 (predict 1 Run.kalman_moved) = 2.1000000000000001) /\
  predict 1 Run.kalman_new = Run.kalman_new.
Proof.
  destruct (predict_relations 1 Run.kalman_moved) as [Hinit _].
  destruct (predict_relations 1 Run.kalman_new) as [_ Hnew].
  split.
  - destruct (Hinit eq_refl) as (_ & _ & H00 & H01 & _).
    rewrite H00, H01. split; reflexivity.
  - apply Hnew. reflexivity.
Defined.

(** C1 as stated fails: after [update(5); predict(1)] the covariance has
    [P01 = 1], and a further [predict(1)] yields [P00' = 1.2000000000000002]
    where the stated relation gives [2.2]. *)
Lemma predict_P00_not_as_specified :
  isInitialized Run.kalman_moved = true /\
  P01 Run.kalman_moved = 1 /\
  P00 (predict 1 Run.kalman_moved) = 1.2000000000000002 /\
  Spec.predicted_P00 1 Run.kalman_moved = 2.2000000000000002 /\
  P00 (predict 1 Run.kalman_moved) <> Spec.predicted_P00 1 Run.kalman_moved.
Proof.
  repeat split; try reflexivity. float_neq.
Qed.

(** C4: the first [update(m)] of an estimator stores [[m, 0]], marks it
    initialized and returns [m] itself; the covariance and the noise
    parameters are as before, and the clock reading is remembered. *)
Theorem update_first_sample (m : float) (k : t) (w : JS.World) :
  isInitialized k = false ->
  fst (fst (update m k w)) = m /\
  state (snd (fst (update m k w))) = (m, 0) /\
  isInitialized (snd (fst (update m k w))) = true /\
  covariance (snd (fst (update m k w))) = covariance k /\
  (R (snd (fst (update m k w))), Q (snd (fst (update m k w))),
   processNoise (snd (fst (update m k w)))) = (R k, Q k, processNoise k) /\
  lastTime (snd (fst (update m k w))) = JS.clock w (JS.clock_reads w).
Proof.
  intros Hinit. unfold update, JS.bind, JS.Date_now, JS.ret. cbn.
  rewrite Hinit. cbn. repeat split.
Qed.

Lemma update_first_sample_witness :
  isInitialized Run.kalman_new = false /\
  fst (fst (update 5 Run.kalman_new Run.world)) = 5 /\
  velocity (snd (fst (update 5 Run.kalman_new Run.world))) = 0.
Proof.
  split; [reflexivity|].
  destruct (update_first_sample 5 Run.kalman_new Run.world eq_refl)
    as (Hr & Hs & _).
  split; [exact Hr|]. unfold velocity. now rewrite Hs.
Defined.

End KalmanFilter.

(* ================================================================== *)
(** ** EnhancedDragLock: the step and the state it leaves *)

Section DragLock.

Import EnhancedDragLock.
Local Open Scope float_scope.

Lemma clone_id (v : Vector3.t) : Vector3.clone v = v.
Proof. now destruct v. Qed.

(** The velocity [applyDragLock] stores: the old one blended toward
    [delta * force]. *)
Lemma applyDragLock_velocity (cur tgt : Vector3.t) (dt : float) (this : t) :
  velocity (snd (applyDragLock cur tgt dt this)) =
  Vector3.lerp (velocity this)
    (Vector3.multiply (Vector3.subtract tgt cur)
       (force this (Vector3.length (Vector3.subtract tgt cur))))
    (Config.smoothingFactor (config this)).
Proof.
  unfold applyDragLock. cbv zeta.
  match goal with |- context [if ?b then _ else _] => destruct b end; reflexivity.
Qed.

(** C3: with [delta = target - current], [distance = |delta|] and [v] the
    stored velocity blended toward [delta * force], [applyDragLock] returns
    [target] itself when [distance < snapThreshold], [|v| < velocityThreshold]
    and snapping is enabled, and [current + v * deltaTime] in every other
    case. *)
Theorem applyDragLock_result (cur tgt : Vector3.t) (dt : float) (this : t) :
  let delta := Vector3.subtract tgt cur in
  let distance := Vector3.length delta in
  let v := Vector3.lerp (velocity this) (Vector3.multiply delta (force this distance))
             (Config.smoothingFactor (config this)) in
  ((distance <? Config.snapThreshold (config this)) = true ->
   (Vector3.length v <? Config.velocityThreshold (config this)) = true ->
   Config.enableSnap (config this) = true ->
   fst (applyDragLock cur tgt dt this) = tgt) /\
  ((distance <? Config.snapThreshold (config this)) = false \/
   (Vector3.length v <? Config.velocityThreshold (config this)) = false \/
   Config.enableSnap (config this) = false ->
   fst (applyDragLock cur tgt dt this) = Vector3.add cur (Vector3.multiply v dt)).
Proof.
  intros delta distance v. unfold applyDragLock, snaps. cbv zeta. cbn [config velocity].
  fold delta. fold distance. fold v. split.
  - intros -> -> ->. reflexivity.
  - intros [-> | [-> | ->]]; cbn; rewrite ?andb_false_r; reflexivity.
Qed.

(** At rest at the origin: a target 0.001 away is snapped to (the configured
    threshold is 0.0014), a target 1 away is approached by
    [velocity * deltaTime]. *)
Lemma applyDragLock_result_witness :
  fst (applyDragLock Vector3.zero (Vector3.new 0.001 0 0) 0.007 Run.dragLock_new)
    = Vector3.new 0.001 0 0 /\
  fst (applyDragLock Vector3.zero (Vector3.new 1 0 0) 0.007 Run.dragLock_new)
    = Vector3.new 3.5000000000000004e-05 0 0.
Proof.
  destruct (applyDragLock_result Vector3.zero (Vector3.new 0.001 0 0) 0.007
              Run.dragLock_new) as [Hsnap _].
  destruct (applyDragLock_result Vector3.zero (Vector3.new 1 0 0) 0.007
              Run.dragLock_new) as [_ Hmove].
  split.
  - apply Hsnap; reflexivity.
  - rewrite Hmove; [reflexivity | left; reflexivity].
Defined.

(** C10: every call stores the blended velocity, also the calls that snap;
    a call that snaps leaves [lastPosition] as it was, any other call sets it
    to the position it returns. *)
Theorem applyDragLock_state (cur tgt : Vector3.t) (dt : float) (this : t) :
  let delta := Vector3.subtract tgt cur in
  let distance := Vector3.length delta in
  let v := Vector3.lerp (velocity this) (Vector3.multiply delta (force this distance))
             (Config.smoothingFactor (config this)) in
  velocity (snd (applyDragLock cur tgt dt this)) = v /\
  (snaps this distance v = true ->
   fst (applyDragLock cur tgt dt this) = tgt /\
   lastPosition (snd (applyDragLock cur tgt dt this)) = lastPosition this) /\
  (snaps this distance v = false ->
   fst (applyDragLock cur tgt dt this) = Vector3.add cur (Vector3.multiply v dt) /\
   lastPosition (snd (applyDragLock cur tgt dt this)) = fst (applyDragLock cur tgt dt this)).
Proof.
  intros delta distance v. split; [apply applyDragLock_velocity|].
  unfold applyDragLock. cbv zeta. cbn [config velocity].
  fold delta. fold distance. fold v.
  change (snaps (mk (config this) v (lastPosition this) (lastTime this)) distance v)
    with (snaps this distance v).
  split; intros ->; cbn; rewrite ?clone_id; split; reflexivity.
Qed.

Lemma applyDragLock_state_witness :
  velocity (snd (applyDragLock Vector3.zero (Vector3.new 0.001 0 0) 0.007 Run.dragLock_new))
    = Vector3.new 5.0000000000000004e-06 0 0 /\
  lastPosition (snd (applyDragLock Vector3.zero (Vector3.new 0.001 0 0) 0.007
                       Run.dragLock_new)) = Vector3.zero /\
  lastPosition (snd (applyDragLock Vector3.zero (Vector3.new 1 0 0) 0.007 Run.dragLock_new))
    = Vector3.new 3.5000000000000004e-05 0 0.
Proof.
  destruct (applyDragLock_state Vector3.zero (Vector3.new 0.001 0 0) 0.007
              Run.dragLock_new) as (Hv & Hsnap & _).
  destruct (applyDragLock_state Vector3.zero (Vector3.new 1 0 0) 0.007
              Run.dragLock_new) as (_ & _ & Hmove).
  split; [rewrite Hv; reflexivity|]. split.
  - destruct Hsnap as [_ ->]; reflexivity.
  - destruct Hmove as [Hr ->]; [reflexivity|]. rewrite Hr. reflexivity.
Defined.

End DragLock.

(* ================================================================== *)
(** ** TargetPredictor: the extrapolation *)

Section Predictor.

Import TargetPredictor.
Local Open Scope float_scope.

Lemma slice_last_app {A} (older recent : list A) :
  slice_last (List.length recent) (older ++ recent) = recent.
Proof.
  unfold slice_last. rewrite List.length_app.
  replace (List.length older + List.length recent - List.length recent)%nat
    with (List.length older + 0)%nat by lia.
  rewrite List.skipn_app, Nat.add_comm. cbn.
  replace (List.length older - List.length older)%nat with 0%nat by lia.
  rewrite List.skipn_all. reflexivity.
Qed.

Lemma nth_last_app {A} (older : list A) (a d : A) :
  nth (List.length (older ++ [a]) - 1) (older ++ [a]) d = a.
Proof.
  rewrite List.length_app. cbn.
  replace (List.length older + 1 - 1)%nat with (List.length older) by lia.
  rewrite List.app_nth2 by lia.
  replace (List.length older - List.length older)%nat with 0%nat by lia.
  reflexivity.
Qed.

(** A pair whose elapsed time is not positive adds nothing to the sum. *)
Lemma sumVelocities_skip (prev cur : Sample) (rest : list Sample) (acc : Vector3.t) :
  JS.gtb (elapsed prev cur) 0 = false ->
  sumVelocities prev (cur :: rest) acc = sumVelocities cur rest acc.
Proof. intros H. cbn [sumVelocities]. now rewrite H. Qed.

Lemma sumVelocities_add (prev cur : Sample) (rest : list Sample) (acc : Vector3.t) :
  JS.gtb (elapsed prev cur) 0 = true ->
  sumVelocities prev (cur :: rest) acc =
  sumVelocities cur rest (Vector3.add acc (pairVelocity prev cur)).
Proof. intros H. cbn [sumVelocities]. now rewrite H. Qed.

(** With three samples or more only the last three count. *)
Lemma predictPosition_last_three (timeAhead : float) (this : t)
    (older : list Sample) (s0 s1 s2 : Sample) :
  positionHistory this = older ++ [s0; s1; s2] ->
  predictPosition timeAhead this =
  Vector3.add (position s2)
    (Vector3.multiply
       (Vector3.multiply (sumVelocities s0 [s1; s2] Vector3.zero) 0.5) timeAhead).
Proof.
  intros Hh. unfold predictPosition. rewrite Hh.
  change 3%nat with (List.length [s0; s1; s2]).
  rewrite slice_last_app.
  replace (older ++ [s0; s1; s2]) with ((older ++ [s0; s1]) ++ [s2])
    by (rewrite <- List.app_assoc; reflexivity).
  rewrite nth_last_app.
  destruct (Nat.ltb_spec (List.length ((older ++ [s0; s1]) ++ [s2])) 2) as [Hlt | _].
  - rewrite !List.length_app in Hlt. cbn in Hlt. lia.
  - reflexivity.
Qed.

(** C5, as the code has it.  The times are in milliseconds, so the elapsed
    time of a pair is [(t1 - t0) / 1000] and its velocity is
    [(p1 - p0) * (1 / elapsed)].  With exactly two samples and a positive
    elapsed time the result is [p1 + ((0 + velocity) * (1/1)) * timeAhead];
    with three or more, the last three are taken, and when both of their
    pairs have a positive elapsed time the result is the last position plus
    [((0 + v01 + v12) * (1/2)) * timeAhead]. *)
Theorem predictPosition_recent (timeAhead : float) (this : t) :
  (forall s0 s1,
     positionHistory this = [s0; s1] ->
     JS.gtb (elapsed s0 s1) 0 = true ->
     predictPosition timeAhead this =
     Vector3.add (position s1)
       (Vector3.multiply
          (Vector3.multiply (Vector3.add Vector3.zero (pairVelocity s0 s1)) 1)
          timeAhead)) /\
  (forall older s0 s1 s2,
     positionHistory this = older ++ [s0; s1; s2] ->
     JS.gtb (elapsed s0 s1) 0 = true ->
     JS.gtb (elapsed s1 s2) 0 = true ->
     predictPosition timeAhead this =
     Vector3.add (position s2)
       (Vector3.multiply
          (Vector3.multiply
             (Vector3.add (Vector3.add Vector3.zero (pairVelocity s0 s1))
                (pairVelocity s1 s2)) 0.5)
          timeAhead)).
Proof.
  split.
  - intros s0 s1 Hh H01. unfold predictPosition. rewrite Hh.
    cbn [List.length Nat.ltb Nat.leb slice_last Nat.sub skipn nth].
    rewrite (sumVelocities_add _ _ _ _ H01). reflexivity.
  - intros older s0 s1 s2 Hh H01 H12.
    rewrite (predictPosition_last_three _ _ _ _ _ _ Hh).
    rewrite (sumVelocities_add _ _ _ _ H01), (sumVelocities_add _ _ _ _ H12).
    reflexivity.
Qed.

(** Two samples one second apart and one unit apart: the velocity is one unit
    per second; a third sample two units further after another second: the
    average velocity is 1.5 units per second. *)
Lemma predictPosition_recent_witness :
  predictPosition 1 Run.predictor_two = Vector3.new 2 0 0 /\
  predictPosition 1 Run.predictor_three = Vector3.new 4.5 0 0.
Proof.
  destruct (predictPosition_recent 1 Run.predictor_two) as [Htwo _].
  destruct (predictPosition_recent 1 Run.predictor_three) as [_ Hthree].
  split.
  - rewrite (Htwo (sample (Vector3.new 0 0 0) 0) (sample (Vector3.new 1 0 0) 1000));
      reflexivity.
  - rewrite (Hthree [] (sample (Vector3.new 0 0 0) 0) (sample (Vector3.new 1 0 0) 1000)
               (sample (Vector3.new 3 0 0) 2000)); reflexivity.
Defined.

(** C5 as stated fails: for the samples [((0,0,0), 0)] and [((1,0,0), 1000)]
    with [t1 > t0] and [timeAhead = 1] the code returns [(2,0,0)], the stated
    formula [(1.001,0,0)]. *)
Lemma predictPosition_not_as_specified :
  positionHistory Run.predictor_two
    = [sample (Vector3.new 0 0 0) 0; sample (Vector3.new 1 0 0) 1000] /\
  JS.gtb 1000 0 = true /\
  predictPosition 1 Run.predictor_two = Vector3.new 2 0 0 /\
  Spec.two_sample_prediction (Vector3.new 0 0 0) 0 (Vector3.new 1 0 0) 1000 1
    = Vector3.new 1.001 0 0 /\
  predictPosition 1 Run.predictor_two
    <> Spec.two_sample_prediction (Vector3.new 0 0 0) 0 (Vector3.new 1 0 0) 1000 1.
Proof.
  repeat split; try reflexivity.
  intros H. apply (f_equal Vector3.x) in H. revert H. float_neq.
Qed.

End Predictor.

(* ================================================================== *)
(** ** Comparisons of numbers *)

Section Numbers.

Local Open Scope float_scope.

Lemma SFltb_trans (x y z : spec_float) :
  SFltb x y = true -> SFltb y z = true -> SFltb x z = true.
Proof.
  unfold SFltb, SFcompare.
  destruct x as [sx|sx| |sx mx ex], y as [sy|sy| |sy my ey], z as [sz|sz| |sz mz ez];
    try discriminate; try reflexivity;
    repeat match goal with s : bool |- _ => destruct s end;
    try discriminate; try reflexivity;
    change (PosDef.Pos.compare_cont Eq) with Pos.compare;
    destruct (Z.compare_spec ex ey), (Z.compare_spec ey ez), (Z.compare_spec ex ez),
      (Pos.compare_spec mx my), (Pos.compare_spec my mz), (Pos.compare_spec mx mz);
    cbn; try discriminate; try reflexivity; intros; exfalso; lia.
Qed.

Lemma SFltb_irrefl (x : spec_float) : SFltb x x = false.
Proof.
  unfold SFltb, SFcompare. destruct x as [s|s| |s m e]; try reflexivity.
  - destruct s; reflexivity.
  - change (PosDef.Pos.compare_cont Eq) with Pos.compare.
    rewrite Z.compare_refl, Pos.compare_refl. destruct s; reflexivity.
Qed.

(** [>] is transitive and irreflexive, also in the presence of NaN. *)
Lemma gtb_trans (a b c : float) :
  JS.gtb a b = true -> JS.gtb b c = true -> JS.gtb a c = true.
Proof.
  unfold JS.gtb. rewrite !FloatAxioms.ltb_spec. intros Hab Hbc.
  exact (SFltb_trans _ _ _ Hbc Hab).
Qed.

Lemma gtb_irrefl (a : float) : JS.gtb a a = false.
Proof. unfold JS.gtb. rewrite FloatAxioms.ltb_spec. apply SFltb_irrefl. Qed.

(** What is not above [b] is not above anything that is at least [b]. *)
Lemma not_gtb_mono (a b c : float) :
  JS.gtb a b = false -> c = b \/ JS.gtb c b = true -> JS.gtb a c = false.
Proof.
  intros Hab [-> | Hcb]; [exact Hab|].
  destruct (JS.gtb a c) eqn:Hac; [|reflexivity].
  rewrite (gtb_trans a c b Hac Hcb) in Hab. discriminate Hab.
Qed.

Lemma gtb_asym (a b : float) : JS.gtb a b = true -> JS.gtb b a = false.
Proof.
  intros Hab. destruct (JS.gtb b a) eqn:Hba; [|reflexivity].
  pose proof (gtb_trans a b a Hab Hba) as Haa. rewrite gtb_irrefl in Haa. discriminate Haa.
Qed.

(** A number above zero is neither a zero nor NaN, and a zero is not above
    zero. *)
Lemma gtb_zero_nonzero (s : float) :
  JS.gtb s 0 = true -> PrimFloat.is_zero s = false /\ PrimFloat.is_nan s = false.
Proof.
  unfold JS.gtb, PrimFloat.is_zero, PrimFloat.is_nan.
  rewrite FloatAxioms.ltb_spec, !FloatAxioms.eqb_spec.
  change (Prim2SF 0) with (S754_zero false). change (Prim2SF zero) with (S754_zero false).
  unfold SFltb, SFeqb.
  destruct (Prim2SF s) as [[|]|[|]| |[|] m e]; cbn; try discriminate; intros _; split;
    try reflexivity.
  rewrite Z.compare_refl. change (PosDef.Pos.compare_cont Eq m m) with (m ?= m)%positive.
  rewrite Pos.compare_refl. reflexivity.
Qed.

Lemma is_zero_not_gtb (s : float) :
  PrimFloat.is_zero s = true -> JS.gtb s 0 = false.
Proof.
  intros Hz. destruct (JS.gtb s 0) eqn:Hgt; [|reflexivity].
  apply gtb_zero_nonzero in Hgt. destruct Hgt as [Hz' _]. congruence.
Qed.

End Numbers.

(* ================================================================== *)
(** ** EnhancedTargetManager: selection and hysteresis *)

Section Registry.

Import EnhancedTargetManager.
Local Open Scope float_scope.

Lemma deref_store (l l' : loc) (o : Target.t) (h : Heap) :
  deref (store l o h) l' = if decide (l = l') then o else deref h l'.
Proof.
  unfold deref, store. case_decide as E.
  - subst. apply lookup_total_insert_eq.
  - now apply lookup_total_insert_ne.
Qed.

(** Updating the distances touches no other field of any object. *)
Lemma updateDistances_fields (cameraPos : Vector3.t) (ls : list loc) (h : Heap) (l : loc) :
  exists d, deref (updateDistances cameraPos ls h) l = Target.set_distance d (deref h l).
Proof.
  unfold updateDistances. revert h.
  induction ls as [|a ls IH]; intros h; cbn [fold_left].
  - exists (Target.distance (deref h l)). now destruct (deref h l).
  - destruct (IH (store a
        (Target.set_distance
           (Vector3.distanceTo cameraPos (Target.position (deref h a))) (deref h a)) h))
      as [d Hd].
    rewrite Hd, deref_store. case_decide as E.
    + subst. eexists. reflexivity.
    + exists d. reflexivity.
Qed.

Lemma updateDistances_id (cameraPos : Vector3.t) (ls : list loc) (h : Heap) (l : loc) :
  Target.id (deref (updateDistances cameraPos ls h) l) = Target.id (deref h l).
Proof. destruct (updateDistances_fields cameraPos ls h l) as [d ->]. reflexivity. Qed.

(** The loop returns one of the candidates. *)
Lemma selectLoop_In (h : Heap) (this : t) (cameraPos : Vector3.t) (rest : list loc)
    (best : loc) (score : float) :
  In (selectLoop h this cameraPos rest best score) (best :: rest).
Proof.
  revert best score. induction rest as [|l rest IH]; intros best score; cbn [selectLoop].
  - now left.
  - destruct (JS.gtb _ score).
    + right. apply IH.
    + destruct (IH best score) as [<- | Hin]; [now left | right; now right].
Qed.

(** No candidate scores above the one the loop returns. *)
Lemma selectLoop_highest (h : Heap) (this : t) (cameraPos : Vector3.t) (rest : list loc)
    (best : loc) :
  let score l := calculateTargetScore h this l cameraPos in
  let r := selectLoop h this cameraPos rest best (score best) in
  (score r = score best \/ JS.gtb (score r) (score best) = true) /\
  forall l, In l (best :: rest) -> JS.gtb (score l) (score r) = false.
Proof.
  intros score. revert best.
  induction rest as [|c rest IH]; intros best; cbn [selectLoop].
  - split; [now left|]. intros l [<- | []]. apply gtb_irrefl.
  - fold (score c). destruct (JS.gtb (score c) (score best)) eqn:Hc.
    + destruct (IH c) as [Hup Hmax]. cbv zeta in Hup, Hmax.
      set (r := selectLoop h this cameraPos rest c (score c)) in *.
      assert (Hr : JS.gtb (score r) (score best) = true).
      { destruct Hup as [-> | Hup]; [exact Hc | exact (gtb_trans _ _ _ Hup Hc)]. }
      split; [now right|]. intros l [<- | [<- | Hin]].
      * now apply gtb_asym.
      * apply Hmax. now left.
      * apply Hmax. now right.
    + destruct (IH best) as [Hup Hmax]. cbv zeta in Hup, Hmax.
      set (r := selectLoop h this cameraPos rest best (score best)) in *.
      split; [exact Hup|]. intros l [<- | [<- | Hin]].
      * apply Hmax. now left.
      * apply (not_gtb_mono _ _ _ Hc). exact Hup.
      * apply Hmax. now right.
Qed.

(** The selection when some target passes the filter: one clock reading, the
    distances, the loop, and the switching logic. *)
Lemma getBestTarget_valid (cameraPos : Vector3.t) (h : Heap) (this : t) (w : JS.World)
    (first : loc) (rest : list loc) :
  List.filter (fun l => isValid this (JS.clock w (JS.clock_reads w)) (deref h l))
    (targets this) = first :: rest ->
  let h' := updateDistances cameraPos (first :: rest) h in
  let best := selectLoop h' this cameraPos rest first
                (calculateTargetScore h' this first cameraPos) in
  fst (getBestTarget cameraPos h this w) =
  (fst (switchTo h' this best), h', snd (switchTo h' this best)).
Proof.
  intros Hvalid h' best. unfold getBestTarget.
  destruct (targets this) as [|t0 ts] eqn:Ht; [discriminate Hvalid|].
  cbn [List.length Nat.eqb]. unfold JS.bind, JS.Date_now. cbn [JS.clock JS.clock_reads].
  rewrite Hvalid. fold h'. fold best.
  destruct (switchTo h' this best). reflexivity.
Qed.

Lemma switchTo_deferred (h : Heap) (this : t) (best c : loc) :
  currentTarget this = Some c ->
  JS.neqb (Target.id (deref h c)) (Target.id (deref h best)) = true ->
  JS.gtb (switchCooldown this) 0 = true ->
  Config.instantSwitch (config this) = false ->
  switchTo h this best = (Some c, this).
Proof. intros Hc Hne Hcd Hi. unfold switchTo. now rewrite Hc, Hne, Hcd, Hi. Qed.

Lemma switchTo_switch (h : Heap) (this : t) (best c : loc) :
  currentTarget this = Some c ->
  JS.neqb (Target.id (deref h c)) (Target.id (deref h best)) = true ->
  JS.gtb (switchCooldown this) 0 = false \/ Config.instantSwitch (config this) = true ->
  switchTo h this best =
  (Some best,
   mk (config this) (targets this) (Some best) (targetLockTime this)
      (Config.switchDelay (config this))).
Proof.
  intros Hc Hne Hor. unfold switchTo. rewrite Hc, Hne.
  destruct Hor as [-> | ->]; [|rewrite andb_false_r]; reflexivity.
Qed.

Lemma switchTo_keep (h : Heap) (this : t) (best : loc) :
  currentTarget this = None \/
  (exists c, currentTarget this = Some c /\
             JS.neqb (Target.id (deref h c)) (Target.id (deref h best)) = false) ->
  switchTo h this best =
  (Some best,
   mk (config this) (targets this) (Some best) (targetLockTime this) (switchCooldown this)).
Proof.
  intros [Hc | (c & Hc & He)]; unfold switchTo; rewrite Hc; [|rewrite He]; reflexivity.
Qed.

(** C2: when some target passes the filter, [best] is the one the scoring loop
    picks (a valid target that no valid target scores above), a selection [c]
    exists and its id differs from that of [best]: with a positive cooldown
    and instant switch off, [getBestTarget] returns [c] and leaves the
    manager, cooldown included, as it was; with the cooldown not positive or
    instant switch on, it returns [best], selects it and sets the cooldown to
    [switchDelay]. *)
Theorem getBestTarget_hysteresis (cameraPos : Vector3.t) (h : Heap) (this : t)
    (w : JS.World) (first : loc) (rest : list loc) (c : loc) :
  let h' := updateDistances cameraPos (first :: rest) h in
  let best := selectLoop h' this cameraPos rest first
                (calculateTargetScore h' this first cameraPos) in
  List.filter (fun l => isValid this (JS.clock w (JS.clock_reads w)) (deref h l))
    (targets this) = first :: rest ->
  currentTarget this = Some c ->
  JS.neqb (Target.id (deref h c)) (Target.id (deref h best)) = true ->
  (In best (first :: rest) /\
   forall l, In l (first :: rest) ->
     JS.gtb (calculateTargetScore h' this l cameraPos)
            (calculateTargetScore h' this best cameraPos) = false) /\
  (JS.gtb (switchCooldown this) 0 = true ->
   Config.instantSwitch (config this) = false ->
   fst (getBestTarget cameraPos h this w) = (Some c, h', this)) /\
  (JS.gtb (switchCooldown this) 0 = false \/
   Config.instantSwitch (config this) = true ->
   fst (getBestTarget cameraPos h this w) =
   (Some best, h',
    mk (config this) (targets this) (Some best) (targetLockTime this)
       (Config.switchDelay (config this)))).
Proof.
  intros h' best Hvalid Hc Hne.
  assert (Hne' : JS.neqb (Target.id (deref h' c)) (Target.id (deref h' best)) = true).
  { unfold h'. now rewrite !updateDistances_id. }
  pose proof (getBestTarget_valid cameraPos h this w first rest Hvalid) as Hget.
  cbv zeta in Hget. fold h' in Hget. fold best in Hget.
  split; [split; [apply selectLoop_In | apply selectLoop_highest]|]. split.
  - intros Hcd Hi. rewrite Hget, (switchTo_deferred h' this best c); auto.
  - intros Hor. rewrite Hget, (switchTo_switch h' this best c); auto.
Qed.

(** C7, as the code has it: when exactly one target [l] passes the filter,
    [getBestTarget] returns it and selects it, whatever its score, if there is
    no selection, or the selection has the id of [l], or the cooldown is not
    positive, or instant switch is on; if a selection with another id is held
    by a positive cooldown with instant switch off, that selection is what is
    returned. *)
Theorem getBestTarget_single (cameraPos : Vector3.t) (h : Heap) (this : t)
    (w : JS.World) (l : loc) :
  List.filter (fun l => isValid this (JS.clock w (JS.clock_reads w)) (deref h l))
    (targets this) = [l] ->
  (currentTarget this = None \/
   (exists c, currentTarget this = Some c /\
              JS.neqb (Target.id (deref h c)) (Target.id (deref h l)) = false) \/
   JS.gtb (switchCooldown this) 0 = false \/
   Config.instantSwitch (config this) = true ->
   fst (fst (fst (getBestTarget cameraPos h this w))) = Some l /\
   currentTarget (snd (fst (getBestTarget cameraPos h this w))) = Some l) /\
  (forall c,
   currentTarget this = Some c ->
   JS.neqb (Target.id (deref h c)) (Target.id (deref h l)) = true ->
   JS.gtb (switchCooldown this) 0 = true ->
   Config.instantSwitch (config this) = false ->
   fst (fst (fst (getBestTarget cameraPos h this w))) = Some c).
Proof.
  intros Hvalid.
  pose proof (getBestTarget_valid cameraPos h this w l [] Hvalid) as Hget.
  cbv zeta in Hget. cbn [selectLoop] in Hget.
  set (h' := updateDistances cameraPos [l] h) in *.
  assert (Hid : forall c, Target.id (deref h' c) = Target.id (deref h c)).
  { intros c. apply updateDistances_id. }
  split.
  - intros Hcase. rewrite Hget. cbn [fst snd].
    destruct (currentTarget this) as [c|] eqn:Hc.
    + destruct (JS.neqb (Target.id (deref h c)) (Target.id (deref h l))) eqn:Hne.
      * destruct Hcase as [Hn | [(c' & Hc' & He) | Hor]]; [discriminate Hn| |].
        { injection Hc' as <-. rewrite Hne in He. discriminate He. }
        rewrite (switchTo_switch h' this l c); auto. now rewrite !Hid.
      * rewrite (switchTo_keep h' this l); auto.
        right. exists c. now rewrite !Hid.
    + rewrite (switchTo_keep h' this l); auto.
  - intros c Hc Hne Hcd Hi. rewrite Hget. cbn [fst].
    rewrite (switchTo_deferred h' this l c); auto. now rewrite !Hid.
Qed.

(** With [a] selected and no cooldown, the better [b] is switched to and the
    cooldown armed; with [b] selected and the cooldown at 197, the selection
    stays [b] when the loop picks [a]. *)
Lemma getBestTarget_hysteresis_witness :
  (fst (fst (Run.select_in Run.registry_first)) = Some 1%nat /\
   switchCooldown (snd (Run.select_in Run.registry_first)) = 200) /\
  (fst (fst (Run.select_in Run.registry_stale)) = Some 1%nat /\
   snd (Run.select_in Run.registry_stale) = snd (fst Run.registry_stale)).
Proof.
  split.
  - destruct (getBestTarget_hysteresis (Vector3.new 0 0 0)
                (fst (fst Run.registry_first)) (snd (fst Run.registry_first))
                (snd Run.registry_first) 0%nat [1%nat] 0%nat)
      as (_ & _ & Hswitch); [reflexivity..|].
    unfold Run.select_in. rewrite Hswitch; [split; reflexivity | left; reflexivity].
  - destruct (getBestTarget_hysteresis (Vector3.new 0 0 0)
                (fst (fst Run.registry_stale)) (snd (fst Run.registry_stale))
                (snd Run.registry_stale) 0%nat [] 1%nat)
      as (_ & Hkeep & _); [reflexivity..|].
    unfold Run.select_in. rewrite Hkeep; [split; reflexivity | reflexivity..].
Defined.

(** A lone target with nothing selected is returned; a lone valid target
    facing a held selection is not. *)
Lemma getBestTarget_single_witness :
  Run.valid_in Run.registry_one = [0%nat] /\
  fst (fst (Run.select_in Run.registry_one)) = Some 0%nat /\
  Run.valid_in Run.registry_stale = [0%nat] /\
  fst (fst (Run.select_in Run.registry_stale)) = Some 1%nat.
Proof.
  split; [reflexivity|]. split.
  - destruct (getBestTarget_single (Vector3.new 0 0 0)
                (fst (fst Run.registry_one)) (snd (fst Run.registry_one))
                (snd Run.registry_one) 0%nat eq_refl) as [Hret _].
    apply Hret. left. reflexivity.
  - split; [reflexivity|].
    destruct (getBestTarget_single (Vector3.new 0 0 0)
                (fst (fst Run.registry_stale)) (snd (fst Run.registry_stale))
                (snd Run.registry_stale) 0%nat eq_refl) as [_ Hheld].
    apply (Hheld 1%nat); reflexivity.
Defined.

(** C7 as stated fails: three seconds after the switch to [b], only [a] has
    been seen again and is the one valid target, yet [getBestTarget] returns
    [b], which does not pass the filter, because the cooldown armed by the
    switch still holds it. *)
Lemma getBestTarget_single_not_returned :
  Run.valid_in Run.registry_stale = [0%nat] /\
  currentTarget (snd (fst Run.registry_stale)) = Some 1%nat /\
  switchCooldown (snd (fst Run.registry_stale)) = 197 /\
  isValid (snd (fst Run.registry_stale)) 4010 (deref (fst (fst Run.registry_stale)) 1%nat)
    = false /\
  fst (fst (Run.select_in Run.registry_stale)) = Some 1%nat /\
  fst (fst (Run.select_in Run.registry_stale)) <> Some 0%nat.
Proof. repeat split; try reflexivity. vm_compute. discriminate. Qed.

End Registry.

(* ================================================================== *)
(** ** SmartAutoFire: the gated call changes nothing *)

Section Trigger.

Import SmartAutoFire.
Local Open Scope float_scope.

(** [canFire] fails exactly when one of its three gates does. *)
Lemma gates_false (this : t) (now targetDistance aimAccuracy : float) :
  gates this now targetDistance aimAccuracy = false <->
  (now - lastFireTime this <? Config.fireRate (config this)) = true \/
  JS.gtb targetDistance (Config.maxFireDistance (config this)) = true \/
  (aimAccuracy <? Config.minAccuracy (config this)) = true.
Proof.
  unfold gates.
  destruct (now - lastFireTime this <? Config.fireRate (config this));
    destruct (JS.gtb targetDistance (Config.maxFireDistance (config this)));
    destruct (aimAccuracy <? Config.minAccuracy (config this));
    intuition discriminate.
Qed.

Lemma fire_refused (target : Target.t) (aimAccuracy : float) (this : t) (w : JS.World) :
  gates this (JS.clock w (JS.clock_reads w)) (Target.distance target) aimAccuracy = false ->
  fire target aimAccuracy this w =
  (false, this,
   JS.mkWorld (JS.clock w) (S (JS.clock_reads w)) (JS.random w) (JS.random_draws w)
     (JS.console w)).
Proof.
  intros Hg. unfold fire, canFire, JS.bind, JS.Date_now, JS.ret. now rewrite Hg.
Qed.

(** C6: a [fire] call made less than [fireRate] after the last fire, or at a
    distance above [maxFireDistance], or with an accuracy below [minAccuracy],
    returns [false] and leaves the trigger as it was, [lastFireTime]
    included; it draws no random number and prints nothing. *)
Theorem fire_gated (target : Target.t) (aimAccuracy : float) (this : t) (w : JS.World) :
  (JS.clock w (JS.clock_reads w) - lastFireTime this <? Config.fireRate (config this)) = true \/
  JS.gtb (Target.distance target) (Config.maxFireDistance (config this)) = true \/
  (aimAccuracy <? Config.minAccuracy (config this)) = true ->
  fst (fire target aimAccuracy this w) = (false, this) /\
  lastFireTime (snd (fst (fire target aimAccuracy this w))) = lastFireTime this /\
  JS.random_draws (snd (fire target aimAccuracy this w)) = JS.random_draws w /\
  JS.console (snd (fire target aimAccuracy this w)) = JS.console w.
Proof.
  intros Hgate. apply gates_false in Hgate.
  rewrite (fire_refused _ _ _ _ Hgate). repeat split.
Qed.

(** The trigger of the engine run fired at 1700000000048 ms; the next clock
    reading is 4 ms later, within the 60 ms of [fireRate]. *)
Lemma fire_gated_witness :
  lastFireTime (EnhancedAimLockEngine.autoFire (snd (fst Run.after_tick2)))
    = 1700000000048 /\
  fst (fire (deref (fst (fst Run.after_tick2)) 0%nat) 1
         (EnhancedAimLockEngine.autoFire (snd (fst Run.after_tick2)))
         (snd Run.after_tick2))
    = (false, EnhancedAimLockEngine.autoFire (snd (fst Run.after_tick2))).
Proof.
  split; [reflexivity|].
  apply (fire_gated (deref (fst (fst Run.after_tick2)) 0%nat) 1
           (EnhancedAimLockEngine.autoFire (snd (fst Run.after_tick2)))
           (snd Run.after_tick2)).
  left. reflexivity.
Defined.

End Trigger.

(* ================================================================== *)
(** ** Counting in binary64: increments are exact, quotients are finite *)

Section Counting.

Import Binary64.
Local Open Scope Z_scope.

(** *** Shifting a mantissa right

    One step halves the mantissa, [p] steps divide it by [2^p]. *)
Lemma shr_1_m (mrs : shr_record) : 0 <= shr_m mrs -> shr_m (shr_1 mrs) = shr_m mrs / 2.
Proof.
  destruct mrs as [m r s]. cbn [shr_m]. intros Hm. rewrite <- Z.div2_div.
  destruct m as [|[p|p|]|p]; cbn; try reflexivity; lia.
Qed.

Lemma shr_1_nonneg (mrs : shr_record) : 0 <= shr_m mrs -> 0 <= shr_m (shr_1 mrs).
Proof. intros H. rewrite shr_1_m by assumption. apply Z.div_pos; lia. Qed.

(** *** The number of binary digits *)
Lemma digits2_pos_size (p : positive) : digits2_pos p = Pos.size p.
Proof. induction p; cbn; congruence. Qed.

Lemma digits_gt (p : positive) : Zpos p < 2 ^ Zpos (digits2_pos p).
Proof.
  rewrite digits2_pos_size, <- Pos2Z.inj_pow. apply Pos2Z.pos_lt_pos, Pos.size_gt.
Qed.

Lemma digits_le (p : positive) : 2 ^ Zpos (digits2_pos p) <= 2 * Zpos p.
Proof.
  rewrite digits2_pos_size, <- Pos2Z.inj_pow.
  change (2 * Z.pos p) with (Zpos p~0). apply Pos2Z.pos_le_pos, Pos.size_le.
Qed.

Lemma Zdigits2_bound (m k : Z) : 0 <= m < 2 ^ k -> 0 <= k -> Zdigits2 m <= k.
Proof.
  intros [Hm Hlt] Hk. destruct m as [|p|p]; cbn; [lia| |lia].
  pose proof (digits_le p) as Hle.
  assert (Hpow : 2 ^ Zpos (digits2_pos p) < 2 ^ (k + 1)).
  { rewrite Z.pow_add_r by lia. lia. }
  apply Z.pow_lt_mono_r_iff in Hpow; lia.
Qed.

(** The exponent binary64 gives a number below [2^k]. *)
Lemma fexp_le (x k : Z) : x <= k -> -1021 <= k -> fexp prec emax x <= k - 53.
Proof. unfold fexp, emin, prec, emax. lia. Qed.


Lemma pow2_xO (p : positive) : 2 ^ Zpos p~0 = 2 ^ Zpos p * 2 ^ Zpos p.
Proof. replace (Zpos p~0) with (Zpos p + Zpos p) by lia. apply Z.pow_add_r; lia. Qed.

Lemma pow2_xI (p : positive) : 2 ^ Zpos p~1 = 2 * (2 ^ Zpos p * 2 ^ Zpos p).
Proof.
  replace (Zpos p~1) with (1 + (Zpos p + Zpos p)) by lia.
  rewrite Z.pow_add_r, Z.pow_add_r by lia. reflexivity.
Qed.

Lemma iter_shr_m (p : positive) (mrs : shr_record) :
  0 <= shr_m mrs ->
  0 <= shr_m (SpecFloat.iter_pos shr_1 p mrs) /\
  shr_m (SpecFloat.iter_pos shr_1 p mrs) = shr_m mrs / 2 ^ Zpos p.
Proof.
  revert mrs. induction p as [p IH|p IH|]; intros mrs Hm; cbn [SpecFloat.iter_pos].
  - destruct (IH (shr_1 mrs) (shr_1_nonneg _ Hm)) as [H1 E1].
    destruct (IH _ H1) as [H2 E2]. split; [exact H2|].
    rewrite E2, E1, shr_1_m by assumption.
    rewrite !Z.div_div by lia. now rewrite pow2_xI, Z.mul_assoc.
  - destruct (IH mrs Hm) as [H1 E1].
    destruct (IH _ H1) as [H2 E2]. split; [exact H2|].
    rewrite E2, E1. rewrite !Z.div_div by lia. now rewrite pow2_xO.
  - split; [now apply shr_1_nonneg|]. now rewrite shr_1_m.
Qed.

(** [shr] by [n] places raises the exponent by as much. *)
Lemma shr_spec (mrs : shr_record) (e n : Z) :
  0 <= shr_m mrs ->
  snd (shr mrs e n) = e + Z.max 0 n /\
  0 <= shr_m (fst (shr mrs e n)) /\
  shr_m (fst (shr mrs e n)) = shr_m mrs / 2 ^ Z.max 0 n.
Proof.
  intros Hm. unfold shr. destruct n as [|p|p]; cbn [fst snd].
  - rewrite Z.add_0_r. change (2 ^ Z.max 0 0) with 1. now rewrite Z.div_1_r.
  - replace (Z.max 0 (Zpos p)) with (Zpos p) by lia.
    destruct (iter_shr_m p mrs Hm) as [H1 E1]. auto.
  - replace (Z.max 0 (Zneg p)) with 0 by lia.
    rewrite Z.add_0_r. change (2 ^ 0) with 1. now rewrite Z.div_1_r.
Qed.

Lemma shr_record_of_loc_m (m : Z) (l : location) : shr_m (shr_record_of_loc m l) = m.
Proof. destruct l as [|[| |]]; reflexivity. Qed.

Lemma round_nearest_even_bounds (m : Z) (l : location) :
  m <= round_nearest_even m l <= m + 1.
Proof. unfold round_nearest_even. destruct l as [|[| |]]; try destruct (Z.even m); lia. Qed.

(** One rounding step keeps a mantissa below [2^(k-e)] below [2^(k-e')] at the
    exponent [e'] it moves to, and [e'] is [e] or the exponent of the format. *)
Lemma shr_fexp_spec (m e : Z) (l : location) (k : Z) :
  0 <= m < 2 ^ (k - e) -> 0 <= k - e -> -1021 <= k ->
  let r := shr_fexp prec emax m e l in
  e <= snd r <= Z.max e (k - 53) /\
  0 <= shr_m (fst r) < 2 ^ (k - snd r).
Proof.
  intros [Hm Hlt] Hk Hk' r. unfold r, shr_fexp.
  set (n := fexp prec emax (Zdigits2 m + e) - e).
  destruct (shr_spec (shr_record_of_loc m l) e n) as (He & Hpos & Hdiv).
  { now rewrite shr_record_of_loc_m. }
  rewrite shr_record_of_loc_m in Hdiv.
  assert (Hn : n <= k - 53 - e).
  { unfold n. pose proof (Zdigits2_bound m (k - e) (conj Hm Hlt) Hk).
    pose proof (fexp_le (Zdigits2 m + e) k). lia. }
  rewrite He, Hdiv. split; [lia|]. split; [apply Z.div_pos; lia|].
  apply Z.div_lt_upper_bound; [lia|].
  destruct (Z.max_spec 0 n) as [[Hlt0 ->] | [Hle0 ->]].
  - rewrite <- Z.pow_add_r by lia. replace (n + (k - (e + n))) with (k - e) by lia. exact Hlt.
  - rewrite Z.add_0_r. change (2 ^ 0) with 1. lia.
Qed.

(** *** Rounding does not overflow below [2^1023]

    A mantissa [m] at exponent [e] with [m * 2^e < 2^k], [k <= 1023], rounds to
    a zero or a finite number. *)
Lemma binary_round_aux_finite (sx : bool) (m e : Z) (l : location) (k : Z) :
  0 <= m < 2 ^ (k - e) -> 0 <= k - e -> -1021 <= k <= 1023 -> e <= 971 ->
  SF_is_finite (binary_round_aux prec emax sx m e l) = true.
Proof.
  intros Hm Hke Hk He. unfold binary_round_aux.
  pose proof (shr_fexp_spec m e l k Hm Hke ltac:(lia)) as H1. cbv zeta in H1.
  destruct (shr_fexp prec emax m e l) as [mrs1 e1]. cbn [fst snd] in H1.
  destruct H1 as (He1 & Hm1).
  pose proof (round_nearest_even_bounds (shr_m mrs1) (loc_of_shr_record mrs1)) as Hr.
  set (m2 := round_nearest_even (shr_m mrs1) (loc_of_shr_record mrs1)) in *.
  assert (Hm2 : 0 <= m2 < 2 ^ (k + 1 - e1)).
  { replace (k + 1 - e1) with (1 + (k - e1)) by lia.
    rewrite Z.pow_add_r by lia. change (2 ^ 1) with 2. lia. }
  pose proof (shr_fexp_spec m2 e1 loc_Exact (k + 1) Hm2 ltac:(lia) ltac:(lia)) as H2.
  cbv zeta in H2.
  destruct (shr_fexp prec emax m2 e1 loc_Exact) as [mrs2 e2]. cbn [fst snd] in H2.
  destruct H2 as (He2 & Hm3).
  destruct (shr_m mrs2) as [|p|p]; [reflexivity| |lia].
  replace (e2 <=? emax - prec) with true; [reflexivity|].
  symmetry. apply Z.leb_le. unfold emax, prec. lia.
Qed.

(** A quotient whose magnitude stays below [2^1023] is a finite number. *)
Lemma SFdiv_finite (s1 s2 : bool) (m1 m2 : positive) (e1 e2 : Z) :
  Zpos (digits2_pos m1) + e1 - (Zpos (digits2_pos m2) + e2) <= 1022 ->
  SF_is_finite (SFdiv prec emax (S754_finite s1 m1 e1) (S754_finite s2 m2 e2)) = true.
Proof.
  intros Hmag. unfold SFdiv, SFdiv_core_binary. cbn [Zdigits2].
  set (d1 := Zpos (digits2_pos m1)) in *. set (d2 := Zpos (digits2_pos m2)) in *.
  set (e' := Z.min (fexp prec emax (d1 + e1 - (d2 + e2))) (e1 - e2)).
  set (s := e1 - e2 - e').
  assert (Hs : 0 <= s) by (unfold s, e'; lia).
  set (m' := match s with Z.pos _ => Z.shiftl (Z.pos m1) s | 0 => Z.pos m1 | Z.neg _ => 0 end).
  assert (Hm' : m' = Zpos m1 * 2 ^ s).
  { unfold m'. destruct s as [|p|p]; [change (2 ^ 0) with 1; lia| |lia].
    apply Z.shiftl_mul_pow2. lia. }
  pose proof (Z_div_mod m' (Zpos m2) ltac:(lia)) as Hdiv.
  destruct (Z.div_eucl m' (Zpos m2)) as [q r]. destruct Hdiv as [Hq Hr].
  set (k := Z.max (d1 + e1 - (d2 + e2) + 1) (-1021)).
  assert (He' : e' <= fexp prec emax (d1 + e1 - (d2 + e2))) by (unfold e'; lia).
  assert (Hf : fexp prec emax (d1 + e1 - (d2 + e2)) = Z.max (d1 + e1 - (d2 + e2) - 53) (-1074))
    by reflexivity.
  apply (binary_round_aux_finite _ q e' _ k); [|lia|lia|lia].
  assert (Hqpos : 0 <= q) by nia.
  split; [exact Hqpos|].
  pose proof (digits_gt m1) as Hg1. pose proof (digits_le m2) as Hl2.
  fold d1 in Hg1. fold d2 in Hl2.
  assert (Hp2 : 0 < 2 ^ d2) by (apply Z.pow_pos_nonneg; lia).
  assert (Hps : 0 < 2 ^ s) by (apply Z.pow_pos_nonneg; lia).
  apply (Z.mul_lt_mono_pos_r (2 ^ d2)); [exact Hp2|].
  rewrite <- Z.pow_add_r by lia.
  apply Z.le_lt_trans with (2 * (Zpos m1 * 2 ^ s)); [nia|].
  apply Z.lt_le_trans with (2 ^ (1 + d1 + s)).
  - rewrite !Z.pow_add_r by lia. change (2 ^ 1) with 2. nia.
  - apply Z.pow_le_mono_r; lia.
Qed.

(** *** Exact rounding *)
Lemma Zdigits2_unique (m k : Z) : 2 ^ (k - 1) <= m < 2 ^ k -> 0 < k -> Zdigits2 m = k.
Proof.
  intros [Hlo Hhi] Hk.
  assert (Hm : 0 < m) by (pose proof (Z.pow_pos_nonneg 2 (k - 1)); lia).
  destruct m as [|p|p]; try lia. cbn.
  pose proof (digits_gt p) as Hg. pose proof (digits_le p) as Hl.
  set (d := Zpos (digits2_pos p)) in *.
  assert (H1 : 2 ^ (k - 1) < 2 ^ d) by lia.
  assert (H2 : 2 ^ d < 2 ^ (k + 1)).
  { rewrite Z.pow_add_r by lia. change (2 ^ 1) with 2. lia. }
  apply Z.pow_lt_mono_r_iff in H1; [|lia|lia].
  apply Z.pow_lt_mono_r_iff in H2; lia.
Qed.

(** Shifting out zero bits loses nothing. *)
Lemma shr_1_exact (m : Z) :
  0 <= m -> shr_1 (Build_shr_record (2 * m) false false) = Build_shr_record m false false.
Proof. intros Hm. destruct m as [|p|p]; [reflexivity|reflexivity|lia]. Qed.

Lemma iter_shr_exact (p : positive) (m : Z) :
  0 <= m ->
  SpecFloat.iter_pos shr_1 p (Build_shr_record (m * 2 ^ Zpos p) false false)
  = Build_shr_record m false false.
Proof.
  revert m. induction p as [p IH|p IH|]; intros m Hm; cbn [SpecFloat.iter_pos].
  - rewrite pow2_xI.
    replace (m * (2 * (2 ^ Zpos p * 2 ^ Zpos p))) with (2 * (m * 2 ^ Zpos p * 2 ^ Zpos p)) by lia.
    rewrite shr_1_exact by nia. rewrite IH by nia. apply IH, Hm.
  - rewrite pow2_xO, Z.mul_assoc. rewrite IH by nia. apply IH, Hm.
  - change (2 ^ 1) with 2. rewrite Z.mul_comm. apply shr_1_exact, Hm.
Qed.

Lemma fexp_normal (x : Z) : -1021 <= x -> fexp prec emax x = x - 53.
Proof. unfold fexp, emin, prec, emax. lia. Qed.

(** Rounding a 53-bit mantissa followed by [j] zero bits is exact. *)
Lemma binary_round_aux_exact (s : bool) (q j e : Z) :
  2 ^ 52 <= q < 2 ^ 53 -> 0 <= j -> -1074 <= e + j <= 971 ->
  binary_round_aux prec emax s (q * 2 ^ j) e loc_Exact = S754_finite s (Z.to_pos q) (e + j).
Proof.
  intros Hq Hj He. unfold binary_round_aux.
  assert (Hd : Zdigits2 (q * 2 ^ j) = 53 + j).
  { apply Zdigits2_unique; [|lia].
    replace (53 + j - 1) with (52 + j) by lia. rewrite !Z.pow_add_r by lia.
    pose proof (Z.pow_pos_nonneg 2 j). nia. }
  assert (Hdq : Zdigits2 q = 53) by (apply Zdigits2_unique; [exact Hq|lia]).
  assert (Hshift : shr_fexp prec emax (q * 2 ^ j) e loc_Exact
                   = (Build_shr_record q false false, e + j)).
  { unfold shr_fexp. rewrite Hd. cbn [shr_record_of_loc].
    replace (fexp prec emax (53 + j + e) - e) with j by (unfold fexp, emin, prec, emax; lia).
    unfold shr. destruct j as [|p|p]; [|rewrite iter_shr_exact by lia; reflexivity|lia].
    change (2 ^ 0) with 1. now rewrite Z.mul_1_r, Z.add_0_r. }
  rewrite Hshift. cbn [shr_m loc_of_shr_record round_nearest_even].
  assert (Hstay : shr_fexp prec emax q (e + j) loc_Exact
                  = (Build_shr_record q false false, e + j)).
  { unfold shr_fexp. rewrite Hdq. cbn [shr_record_of_loc].
    replace (fexp prec emax (53 + (e + j)) - (e + j)) with 0
      by (unfold fexp, emin, prec, emax; lia).
    reflexivity. }
  rewrite Hstay. cbn [shr_m].
  destruct q as [|p|p]; [lia| |lia]. cbn [Z.to_pos].
  replace (e + j <=? emax - prec) with true; [reflexivity|].
  symmetry. apply Z.leb_le. unfold emax, prec. lia.
Qed.

(** Aligning a mantissa to a lower exponent multiplies it by a power of two;
    to a higher one, it does nothing. *)
Lemma shl_align_le (mx : positive) (ex ex' : Z) :
  ex' <= ex -> shl_align mx ex ex' = (Z.to_pos (Zpos mx * 2 ^ (ex - ex')), Z.min ex ex').
Proof.
  intros Hle. unfold shl_align.
  destruct (ex' - ex) as [|d|d] eqn:Hd; try lia.
  - replace (ex - ex') with 0 by lia. change (2 ^ 0) with 1.
    rewrite Z.mul_1_r. cbn [Z.to_pos]. f_equal. lia.
  - replace (ex - ex') with (Zpos d) by lia.
    change (Pos.iter xO mx d) with (shift_pos d mx).
    rewrite <- Z.pow_pos_fold, Z.mul_comm, <- shift_pos_correct. cbn [Z.to_pos].
    f_equal. lia.
Qed.

Lemma shl_align_ge (mx : positive) (ex ex' : Z) :
  ex <= ex' -> shl_align mx ex ex' = (mx, ex).
Proof. intros Hle. unfold shl_align. destruct (ex' - ex) eqn:Hd; try reflexivity. lia. Qed.

(** *** Counts

    A count [n] below [2^53] is the 53-bit mantissa [n * 2^(53 - d)] at
    exponent [d - 53], [d] being the number of binary digits of [n]. *)
Lemma Zdigits2_range (n : Z) :
  0 < n -> 2 ^ (Zdigits2 n - 1) <= n < 2 ^ Zdigits2 n /\ 0 < Zdigits2 n.
Proof.
  intros Hn. destruct n as [|p|p]; try lia. cbn [Zdigits2].
  pose proof (digits_gt p) as Hg. pose proof (digits_le p) as Hl.
  set (d := Zpos (digits2_pos p)) in *.
  assert (Hd : 0 < d) by (unfold d; lia).
  replace d with (1 + (d - 1)) in Hl by lia. rewrite Z.pow_add_r in Hl by lia.
  change (2 ^ 1) with 2 in Hl. lia.
Qed.

Lemma mantissa_range (n : Z) :
  0 < n < 2 ^ 53 -> 2 ^ 52 <= n * 2 ^ (53 - Zdigits2 n) < 2 ^ 53 /\ 0 < Zdigits2 n <= 53.
Proof.
  intros [Hn Hlt]. destruct (Zdigits2_range n Hn) as ([Hlo Hhi] & Hd).
  set (d := Zdigits2 n) in *.
  assert (Hd53 : d <= 53).
  { assert (H : 2 ^ (d - 1) < 2 ^ 53) by lia. apply Z.pow_lt_mono_r_iff in H; lia. }
  split; [|lia].
  assert (Ha : 0 < 2 ^ (53 - d)) by (apply Z.pow_pos_nonneg; lia).
  assert (E52 : 2 ^ 52 = 2 ^ (d - 1) * 2 ^ (53 - d)).
  { rewrite <- Z.pow_add_r by lia. f_equal. lia. }
  assert (E53 : 2 ^ 53 = 2 ^ d * 2 ^ (53 - d)).
  { rewrite <- Z.pow_add_r by lia. f_equal. lia. }
  rewrite E52, E53. split.
  - apply Z.mul_le_mono_nonneg_r; lia.
  - apply Z.mul_lt_mono_pos_r; lia.
Qed.

Lemma count_small (n : Z) :
  0 < n < 2 ^ 53 ->
  count n = S754_finite false (Z.to_pos (n * 2 ^ (53 - Zdigits2 n))) (Zdigits2 n - 53).
Proof.
  intros Hn. destruct (mantissa_range n Hn) as (Hm & Hd).
  destruct n as [|p|p]; try lia.
  unfold count, binary_normalize, binary_round.
  change (Zpos (digits2_pos p)) with (Zdigits2 (Zpos p)) in *.
  set (d := Zdigits2 (Zpos p)) in *.
  rewrite Z.add_0_r, fexp_normal by lia.
  rewrite shl_align_le by lia. rewrite Z.min_r by lia.
  replace (0 - (d - 53)) with (53 - d) by lia.
  rewrite Z2Pos.id by lia.
  pose proof (binary_round_aux_exact false (Zpos p * 2 ^ (53 - d)) 0 (d - 53) Hm) as Hx.
  change (2 ^ 0) with 1 in Hx. rewrite Z.mul_1_r, Z.add_0_r in Hx.
  apply Hx; lia.
Qed.

Lemma count_one : count 1 = S754_finite false 4503599627370496 (-52).
Proof. reflexivity. Qed.

(** Adding one to a count below [2^53] is exact. *)
Lemma SFadd_count_one (n : Z) :
  0 < n -> n + 1 < 2 ^ 53 -> SFadd prec emax (count n) (count 1) = count (n + 1).
Proof.
  intros Hn Hn1.
  destruct (mantissa_range n ltac:(lia)) as (Hm & Hd).
  destruct (mantissa_range (n + 1) ltac:(lia)) as (Hm' & Hd').
  rewrite (count_small n), (count_small (n + 1)), count_one by lia.
  set (d := Zdigits2 n) in *. set (d' := Zdigits2 (n + 1)) in *.
  unfold SFadd. rewrite Z.min_r by lia.
  rewrite shl_align_le by lia. rewrite (shl_align_le 4503599627370496 (-52) (-52)) by lia.
  cbn [fst cond_Zopp]. rewrite Z2Pos.id by lia.
  replace (d - 53 - -52) with (d - 1) by lia.
  replace (- 52 - -52) with 0 by lia. change (Z.pos 4503599627370496 * 2 ^ 0) with (2 ^ 52).
  cbn [Z.to_pos]. change (Z.pos (Z.to_pos (2 ^ 52))) with (2 ^ 52).
  assert (Hsum : Z.pos (Z.to_pos (n * 2 ^ (53 - d))) * 2 ^ (d - 1) + 2 ^ 52
                 = (n + 1) * 2 ^ (53 - d') * 2 ^ (d' - 1)).
  { rewrite Z2Pos.id by lia.
    rewrite <- !Z.mul_assoc, <- !Z.pow_add_r by lia.
    replace (53 - d + (d - 1)) with 52 by lia. replace (53 - d' + (d' - 1)) with 52 by lia.
    lia. }
  rewrite Hsum.
  assert (Hd2 : 2 <= d').
  { destruct (Zdigits2_range (n + 1) ltac:(lia)) as ([Hlo Hhi] & _). fold d' in Hlo, Hhi.
    destruct (Z.eq_dec d' 1) as [E|E]; [|lia]. rewrite E in Hhi. change (2 ^ 1) with 2 in Hhi. lia. }
  pose proof (Z.pow_pos_nonneg 2 (d' - 1)) as Hp.
  unfold binary_normalize.
  destruct ((n + 1) * 2 ^ (53 - d') * 2 ^ (d' - 1)) as [|P|P] eqn:HP; try nia.
  unfold binary_round.
  assert (HdP : Zpos (digits2_pos P) = 53 + (d' - 1)).
  { change (Zpos (digits2_pos P)) with (Zdigits2 (Zpos P)). rewrite <- HP.
    apply Zdigits2_unique; [|lia].
    replace (53 + (d' - 1) - 1) with (52 + (d' - 1)) by lia.
    rewrite !Z.pow_add_r by lia. nia. }
  rewrite HdP, fexp_normal by lia. rewrite shl_align_ge by lia.
  rewrite <- HP.
  rewrite (binary_round_aux_exact false ((n + 1) * 2 ^ (53 - d')) (d' - 1) (-52)) by lia.
  f_equal. lia.
Qed.

Lemma count_top : count (2 ^ 53) = S754_finite false 4503599627370496 1.
Proof. reflexivity. Qed.

(** The form of a positive count: a finite positive number between 1 and
    [2^53]. *)
Lemma count_form (n : Z) :
  0 < n <= 2 ^ 53 ->
  exists m e, count n = S754_finite false m e /\ 1 <= Zpos (digits2_pos m) + e <= 54.
Proof.
  intros Hn. destruct (Z.eq_dec n (2 ^ 53)) as [-> | Hne].
  - rewrite count_top. do 2 eexists. split; [reflexivity|]. cbn. lia.
  - destruct (mantissa_range n ltac:(lia)) as (Hm & Hd).
    rewrite count_small by lia. do 2 eexists. split; [reflexivity|].
    change (Zpos (digits2_pos ?p)) with (Zdigits2 (Zpos p)).
    rewrite Z2Pos.id by lia.
    rewrite (Zdigits2_unique (n * 2 ^ (53 - Zdigits2 n)) 53) by (change (53 - 1) with 52; lia).
    lia.
Qed.

(** Adding one to a count yields the next count, and stays at [2^53]. *)
Lemma SFadd_count (n : Z) :
  0 <= n <= 2 ^ 53 ->
  SFadd prec emax (count n) (count 1) = count (Z.min (n + 1) (2 ^ 53)).
Proof.
  intros Hn.
  destruct (Z.eq_dec n 0) as [-> | H0]; [reflexivity|].
  destruct (Z.eq_dec n (2 ^ 53)) as [-> | Htop]; [reflexivity|].
  destruct (Z.eq_dec n (2 ^ 53 - 1)) as [-> | Hpred]; [reflexivity|].
  rewrite Z.min_l by lia. apply SFadd_count_one; lia.
Qed.

(** The quotient of a count by a positive count is a finite number. *)
Lemma SFdiv_count_finite (m n : Z) :
  0 <= m <= 2 ^ 53 -> 0 < n <= 2 ^ 53 ->
  SF_is_finite (SFdiv prec emax (count m) (count n)) = true.
Proof.
  intros Hm Hn. destruct (count_form n Hn) as (mn & en & -> & Hmag).
  destruct (Z.eq_dec m 0) as [-> | H0]; [reflexivity|].
  destruct (count_form m ltac:(lia)) as (mm & em & -> & Hmag').
  apply SFdiv_finite. lia.
Qed.

(** *** From the specification of binary64 to the numbers themselves *)
Lemma is_finite_SF (x : float) :
  SF_is_finite (Prim2SF x) = true -> PrimFloat.is_finite x = true.
Proof.
  unfold PrimFloat.is_finite, PrimFloat.is_nan, PrimFloat.is_infinity.
  rewrite !FloatAxioms.eqb_spec, FloatAxioms.abs_spec.
  change (Prim2SF infinity) with (S754_infinity false).
  destruct (Prim2SF x) as [s|s| |s m e]; cbn [SF_is_finite]; try discriminate; intros _.
  - destruct s; reflexivity.
  - unfold SFeqb, SFabs, SFcompare.
    rewrite Z.compare_refl.
    change (PosDef.Pos.compare_cont Eq m m) with (m ?= m)%positive.
    rewrite Pos.compare_refl. destruct s; reflexivity.
Qed.

Lemma counts_zero : counts 0%float 0.
Proof. split; [lia | reflexivity]. Qed.

Lemma counts_succ (c : float) (n : Z) :
  counts c n -> counts (c + 1)%float (Z.min (n + 1) (2 ^ 53)).
Proof.
  intros [Hn Hc]. split; [lia|].
  rewrite FloatAxioms.add_spec, Hc. change (Prim2SF 1) with (count 1).
  apply SFadd_count, Hn.
Qed.

Lemma counts_div_finite (h s : float) (m n : Z) :
  counts h m -> counts s n -> 0 < n -> PrimFloat.is_finite (h / s)%float = true.
Proof.
  intros [Hm Hh] [Hn Hs] Hpos. apply is_finite_SF.
  rewrite FloatAxioms.div_spec, Hh, Hs. apply SFdiv_count_finite; lia.
Qed.

(** A count above zero is a positive count. *)
Lemma counts_gtb (s : float) (n : Z) : counts s n -> (0 <? s)%float = true -> 0 < n.
Proof.
  intros [Hn Hs] Hgt. destruct (Z.eq_dec n 0) as [-> | H0]; [|lia].
  rewrite FloatAxioms.ltb_spec, Hs in Hgt. discriminate Hgt.
Qed.

End Counting.

(* ================================================================== *)
(** ** EnhancedAimLockEngine: the counters of a tick *)

Section Engine.

Import EnhancedAimLockEngine.
Local Open Scope float_scope.

(** Neither the selection, nor the aiming, nor the end of the tick touches
    the counters; the end of the tick keeps the accuracy too. *)
Lemma select_counters (h : Heap) (this : t) (w : JS.World) :
  totalShots (snd (fst (select h this w))) = totalShots this /\
  totalHits (snd (fst (select h this w))) = totalHits this.
Proof.
  unfold select, JS.bind, JS.ret, PerformanceMonitor.startFrame, JS.Date_now.
  cbn [JS.clock JS.clock_reads]. split_pairs. split; reflexivity.
Qed.

Lemma aim_counters (target : Target.t) (currentTime deltaTime : float) (this : t)
    (w : JS.World) :
  totalShots (fst (aim target currentTime deltaTime this w)) = totalShots this /\
  totalHits (fst (aim target currentTime deltaTime this w)) = totalHits this.
Proof.
  unfold aim, JS.bind, JS.ret. split_pairs. split; reflexivity.
Qed.

Lemma finish_counters (currentTime deltaTime : float) (this : t) (w : JS.World) :
  totalShots (fst (finish currentTime deltaTime this w)) = totalShots this /\
  totalHits (fst (finish currentTime deltaTime this w)) = totalHits this /\
  currentAccuracy (fst (finish currentTime deltaTime this w)) = currentAccuracy this.
Proof.
  unfold finish, JS.bind, JS.ret. split_pairs. repeat split.
Qed.

(** The auto fire logic counts with what [fire] returned. *)
Lemma autoFireLogic_counters (target : Target.t) (this : t) (w : JS.World) :
  firesOnLock this = true ->
  let fired := fst (fst (SmartAutoFire.fire target (currentAccuracy this) (autoFire this) w)) in
  totalShots (fst (autoFireLogic target this w)) = fst (tally fired this) /\
  totalHits (fst (autoFireLogic target this w)) = snd (tally fired this) /\
  currentAccuracy (fst (autoFireLogic target this w)) = currentAccuracy this.
Proof.
  intros Hf. unfold autoFireLogic, JS.bind, JS.ret. rewrite Hf. cbv zeta.
  destruct (SmartAutoFire.fire _ _ _ _) as [[fired af] w'].
  cbn [fst snd]. destruct (tally fired this). repeat split.
Qed.

Lemma autoFireLogic_idle (target : Target.t) (this : t) (w : JS.World) :
  firesOnLock this = false -> autoFireLogic target this w = (this, w).
Proof. intros Hf. unfold autoFireLogic. now rewrite Hf. Qed.

(** A tick that selects a target is the aiming, the auto fire logic and the
    end of the tick, in this order. *)
Lemma updateAimLock_selected (h : Heap) (this : t) (w : JS.World) (l : loc)
    (currentTime deltaTime : float) (h1 : Heap) (e0 : t) (w0 : JS.World) :
  select h this w = (Some l, currentTime, deltaTime, h1, e0, w0) ->
  let '(e1, w1) := aim (deref h1 l) currentTime deltaTime e0 w0 in
  let '(e2, w2) := autoFireLogic (deref h1 l) e1 w1 in
  let '(e3, w3) := finish currentTime deltaTime e2 w2 in
  updateAimLock h this w = (h1, e3, w3).
Proof.
  intros Hsel. unfold updateAimLock, JS.bind at 1. rewrite Hsel.
  unfold JS.bind, JS.ret.
  destruct (aim _ _ _ _ _) as [e1 w1].
  destruct (autoFireLogic _ _ _) as [e2 w2].
  destruct (finish _ _ _ _) as [e3 w3]. reflexivity.
Qed.

(** C8, as the code has it: in a tick that calls [fire] (a target [l] is
    selected and, after aiming, fire-on-lock is on and the lock duration is
    above [minLockTime]), the shot counter goes up by one exactly when [fire]
    returns [true], and the hit counter goes up by one exactly when [fire]
    returns [true] and the accuracy is above 0.9; when [fire] returns [false]
    both counters stay as they were. *)
Theorem updateAimLock_counters (h : Heap) (this : t) (w : JS.World) (l : loc)
    (currentTime deltaTime : float) (h1 : Heap) (e0 e1 : t) (w0 w1 : JS.World) :
  select h this w = (Some l, currentTime, deltaTime, h1, e0, w0) ->
  aim (deref h1 l) currentTime deltaTime e0 w0 = (e1, w1) ->
  firesOnLock e1 = true ->
  let fired :=
    fst (fst (SmartAutoFire.fire (deref h1 l) (currentAccuracy e1) (autoFire e1) w1)) in
  let e' := snd (fst (updateAimLock h this w)) in
  currentAccuracy e' = currentAccuracy e1 /\
  totalShots e' = (if fired then totalShots this + 1 else totalShots this) /\
  totalHits e' =
    (if fired && JS.gtb (currentAccuracy e1) 0.9 then totalHits this + 1
     else totalHits this).
Proof.
  intros Hsel Haim Hfires fired e'.
  pose proof (updateAimLock_selected h this w l _ _ _ _ _ Hsel) as Hrun.
  rewrite Haim in Hrun.
  destruct (autoFireLogic_counters (deref h1 l) e1 w1 Hfires) as (Hs & Hh & Ha).
  fold fired in Hs, Hh.
  destruct (autoFireLogic (deref h1 l) e1 w1) as [e2 w2].
  destruct (finish_counters currentTime deltaTime e2 w2) as (Hs' & Hh' & Ha').
  destruct (finish currentTime deltaTime e2 w2) as [e3 w3].
  unfold e'. rewrite Hrun. cbn [fst snd] in *.
  rewrite Hs', Hh', Ha', Hs, Hh, Ha.
  destruct (select_counters h this w) as [Hs0 Hh0]. rewrite Hsel in Hs0, Hh0.
  destruct (aim_counters (deref h1 l) currentTime deltaTime e0 w0) as [Hs1 Hh1].
  rewrite Haim in Hs1, Hh1. cbn [fst snd] in *.
  unfold tally. rewrite Hs1, Hh1, Hs0, Hh0.
  destruct fired; cbn [fst snd andb]; repeat split.
Qed.

(** The second tick of the two runs calls [fire] with accuracy 1; the
    adaptive accuracy is 0.1 by then.  With a draw of 0.5 [fire] returns
    [false] and no counter moves; with a draw of 0.05 it returns [true] and
    both counters go up. *)
Lemma updateAimLock_counters_witness :
  (totalShots (snd (fst Run.after_tick2)) = 0 /\
   totalHits (snd (fst Run.after_tick2)) = 0) /\
  (totalShots (snd (fst Run.lucky_tick2)) = 1 /\
   totalHits (snd (fst Run.lucky_tick2)) = 1).
Proof.
  split.
  - destruct (updateAimLock_counters
                (fst (fst Run.after_tick1)) (snd (fst Run.after_tick1))
                (snd Run.after_tick1) 0%nat
                (snd (fst (fst (fst (fst (Run.select_of Run.after_tick1))))))
                (snd (fst (fst (fst (Run.select_of Run.after_tick1)))))
                (snd (fst (fst (Run.select_of Run.after_tick1))))
                (snd (fst (Run.select_of Run.after_tick1)))
                (fst (Run.aimed_of Run.after_tick1))
                (snd (Run.select_of Run.after_tick1))
                (snd (Run.aimed_of Run.after_tick1)))
      as (_ & Hs & Hh); [vm_compute; reflexivity..|].
    unfold Run.after_tick2, Run.tick. rewrite Hs, Hh. split; vm_compute; reflexivity.
  - destruct (updateAimLock_counters
                (fst (fst Run.lucky_tick1)) (snd (fst Run.lucky_tick1))
                (snd Run.lucky_tick1) 0%nat
                (snd (fst (fst (fst (fst (Run.select_of Run.lucky_tick1))))))
                (snd (fst (fst (fst (Run.select_of Run.lucky_tick1)))))
                (snd (fst (fst (Run.select_of Run.lucky_tick1))))
                (snd (fst (Run.select_of Run.lucky_tick1)))
                (fst (Run.aimed_of Run.lucky_tick1))
                (snd (Run.select_of Run.lucky_tick1))
                (snd (Run.aimed_of Run.lucky_tick1)))
      as (_ & Hs & Hh); [vm_compute; reflexivity..|].
    unfold Run.lucky_tick2, Run.tick. rewrite Hs, Hh. split; vm_compute; reflexivity.
Defined.

(** C8 as stated fails: the second tick of the run selects the target, finds
    fire-on-lock on and the lock duration (0.018) above [minLockTime] (0.01),
    and calls [fire] with accuracy 1, above 0.9; [fire] passes its gates,
    stamps 1700000000048 and misses (it prints the miss), and neither counter
    is incremented. *)
Lemma updateAimLock_miss_not_counted :
  fst (fst (fst (fst (fst (Run.select_of Run.after_tick1))))) = Some 0%nat /\
  firesOnLock (fst (Run.aimed_of Run.after_tick1)) = true /\
  currentAccuracy (fst (Run.aimed_of Run.after_tick1)) = 1 /\
  JS.gtb (currentAccuracy (fst (Run.aimed_of Run.after_tick1))) 0.9 = true /\
  SmartAutoFire.lastFireTime (autoFire (snd (fst Run.after_tick1))) = 0 /\
  SmartAutoFire.lastFireTime (autoFire (snd (fst Run.after_tick2))) = 1700000000048 /\
  JS.console (snd Run.after_tick2) = [JS.LogFireMiss 1] /\
  totalShots (snd (fst Run.after_tick1)) = 0 /\
  totalHits (snd (fst Run.after_tick1)) = 0 /\
  totalShots (snd (fst Run.after_tick2))
    <> totalShots (snd (fst Run.after_tick1)) + 1 /\
  totalHits (snd (fst Run.after_tick2))
    <> totalHits (snd (fst Run.after_tick1)) + 1.
Proof.
  repeat split; try (vm_compute; reflexivity); vm_compute; float_neq.
Qed.

(** *** The counters along a run *)

Lemma counted_ext (e e' : t) :
  totalShots e' = totalShots e -> totalHits e' = totalHits e -> counted e -> counted e'.
Proof. intros Hs Hh (m & n & Hle & Hm & Hn). exists m, n. now rewrite Hs, Hh. Qed.

Lemma constructor_counted (config : Config.t) (w : JS.World) :
  counted (fst (constructor config w)).
Proof.
  exists 0%Z, 0%Z. unfold constructor, JS.bind, JS.ret. split_pairs. cbn.
  split; [lia|]. split; apply counts_zero.
Qed.

Lemma addTarget_counters (x y z priority : float) (type : string) (h : Heap) (this : t)
    (w : JS.World) :
  totalShots (snd (fst (addTarget x y z priority type h this w))) = totalShots this /\
  totalHits (snd (fst (addTarget x y z priority type h this w))) = totalHits this.
Proof. unfold addTarget, JS.bind, JS.ret. split_pairs. split; reflexivity. Qed.

Lemma start_counters (this : t) (w : JS.World) :
  totalShots (fst (start this w)) = totalShots this /\
  totalHits (fst (start this w)) = totalHits this.
Proof. unfold start, JS.bind, JS.ret. split_pairs. split; reflexivity. Qed.

Lemma resetTracking_counters (this : t) (w : JS.World) :
  totalShots (fst (resetTracking this w)) = totalShots this /\
  totalHits (fst (resetTracking this w)) = totalHits this.
Proof. unfold resetTracking, JS.bind, JS.ret. split_pairs. split; reflexivity. Qed.

(** What the auto fire logic does to the counters keeps them counts. *)
Lemma tally_counted (fired : bool) (this e' : t) :
  totalShots e' = fst (tally fired this) -> totalHits e' = snd (tally fired this) ->
  counted this -> counted e'.
Proof.
  intros Hs Hh (m & n & Hle & Hm & Hn). unfold tally in Hs, Hh.
  destruct fired; cbn [fst snd] in Hs, Hh.
  - destruct (JS.gtb (currentAccuracy this) 0.9).
    + exists (Z.min (m + 1) (2 ^ 53)), (Z.min (n + 1) (2 ^ 53)).
      rewrite Hs, Hh. split; [lia|]. split; now apply counts_succ.
    + exists m, (Z.min (n + 1) (2 ^ 53)).
      rewrite Hs, Hh. destruct Hm as [Hm1 Hm2].
      split; [lia|]. split; [now split | now apply counts_succ].
  - exists m, n. now rewrite Hs, Hh.
Qed.

Lemma autoFireLogic_counted (target : Target.t) (this : t) (w : JS.World) :
  counted this -> counted (fst (autoFireLogic target this w)).
Proof.
  intros Hc. destruct (firesOnLock this) eqn:Hf.
  - destruct (autoFireLogic_counters target this w Hf) as (Hs & Hh & _).
    eapply tally_counted; eauto.
  - now rewrite autoFireLogic_idle.
Qed.

Lemma updateAimLock_counted (h : Heap) (this : t) (w : JS.World) :
  counted this -> counted (snd (fst (updateAimLock h this w))).
Proof.
  intros Hc.
  destruct (select_counters h this w) as [Hs0 Hh0].
  destruct (select h this w) as [[[[[target currentTime] deltaTime] h1] e0] w0] eqn:Hsel.
  cbn [fst snd] in Hs0, Hh0.
  assert (Hc0 : counted e0) by (eapply counted_ext; eauto).
  destruct target as [l|].
  - pose proof (updateAimLock_selected h this w l _ _ _ _ _ Hsel) as Hrun.
    destruct (aim_counters (deref h1 l) currentTime deltaTime e0 w0) as [Hs1 Hh1].
    destruct (aim (deref h1 l) currentTime deltaTime e0 w0) as [e1 w1].
    pose proof (autoFireLogic_counted (deref h1 l) e1 w1) as Hc2.
    destruct (autoFireLogic (deref h1 l) e1 w1) as [e2 w2].
    destruct (finish_counters currentTime deltaTime e2 w2) as (Hs3 & Hh3 & _).
    destruct (finish currentTime deltaTime e2 w2) as [e3 w3].
    rewrite Hrun. cbn [fst snd] in *.
    eapply counted_ext; [exact Hs3 | exact Hh3 |].
    apply Hc2. eapply counted_ext; eauto.
  - unfold updateAimLock, JS.bind at 1. rewrite Hsel. unfold JS.bind, JS.ret.
    destruct (resetTracking_counters e0 w0) as [Hs1 Hh1].
    destruct (resetTracking e0 w0) as [e1 w1].
    destruct (PerformanceMonitor.endFrame _ w1) as [pm w2]. cbn [fst snd] in *.
    eapply counted_ext; [| |exact Hc0]; assumption.
Qed.

(** In every state of a run both counters are counts. *)
Lemma reachable_counted (e : t) : reachable e -> counted e.
Proof.
  induction 1 as [config w | x y z priority type h e w _ IH | e w _ IH | e w _ IH
                 | h e w _ IH | h e w _ IH | target currentTime deltaTime e w _ IH
                 | target e w _ IH].
  - apply constructor_counted.
  - destruct (addTarget_counters x y z priority type h e w). eapply counted_ext; eauto.
  - destruct (start_counters e w). eapply counted_ext; eauto.
  - destruct (resetTracking_counters e w). eapply counted_ext; eauto.
  - now apply updateAimLock_counted.
  - destruct (select_counters h e w). eapply counted_ext; eauto.
  - destruct (aim_counters target currentTime deltaTime e w). eapply counted_ext; eauto.
  - now apply autoFireLogic_counted.
Qed.

Lemma started_reachable (w : JS.World) : reachable (snd (fst (Run.started_in w))).
Proof.
  unfold Run.started_in, JS.bind, JS.ret.
  pose proof (reach_constructor EnhancedConfig w) as H0.
  destruct (constructor EnhancedConfig w) as [e0 w0]. cbn [fst] in H0.
  pose proof (reach_addTarget 0 0 0 1 "head" ∅ e0 w0 H0) as H1.
  destruct (addTarget 0 0 0 1 "head" ∅ e0 w0) as [[[l h] e1] w1]. cbn [fst snd] in H1.
  pose proof (reach_start e1 w1 H1) as H2.
  destruct (start e1 w1) as [e2 w2]. exact H2.
Qed.

Lemma lucky_tick2_reachable : reachable (snd (fst Run.lucky_tick2)).
Proof.
  unfold Run.lucky_tick2, Run.lucky_tick1, Run.tick.
  do 2 apply reach_updateAimLock. apply started_reachable.
Qed.

(** C9: [getHitRate] divides only by a number above zero, which is neither a
    zero nor NaN: in every engine state it returns [totalHits / totalShots]
    when [totalShots > 0] and [0] otherwise, in particular when [totalShots]
    is zero; and in every state of a run, the one handed to [updateAccuracy]
    included, what it returns is a finite number. *)
Theorem getHitRate_guarded (this : t) :
  (JS.gtb (totalShots this) 0 = true ->
   getHitRate this = totalHits this / totalShots this /\
   PrimFloat.is_zero (totalShots this) = false /\
   PrimFloat.is_nan (totalShots this) = false) /\
  (JS.gtb (totalShots this) 0 = false -> getHitRate this = 0) /\
  (PrimFloat.is_zero (totalShots this) = true -> getHitRate this = 0) /\
  (reachable this -> PrimFloat.is_finite (getHitRate this) = true).
Proof.
  unfold getHitRate. split; [|split; [|split]].
  - intros Hgt. rewrite Hgt. split; [reflexivity|]. now apply gtb_zero_nonzero.
  - intros Hle. now rewrite Hle.
  - intros Hz. now rewrite (is_zero_not_gtb _ Hz).
  - intros Hr. destruct (reachable_counted this Hr) as (m & n & _ & Hm & Hn).
    destruct (JS.gtb (totalShots this) 0) eqn:Hgt; [|reflexivity].
    apply (counts_div_finite _ _ m n Hm Hn).
    exact (counts_gtb _ _ Hn Hgt).
Qed.

(** Before any shot the rate is 0; after the one hit of the lucky run it is
    1/1, a finite number. *)
Lemma getHitRate_guarded_witness :
  getHitRate (snd (fst Run.started)) = 0 /\
  getHitRate (snd (fst Run.lucky_tick2)) = 1 /\
  PrimFloat.is_finite (getHitRate (snd (fst Run.lucky_tick2))) = true.
Proof.
  destruct (getHitRate_guarded (snd (fst Run.started))) as (_ & _ & Hzero & _).
  destruct (getHitRate_guarded (snd (fst Run.lucky_tick2))) as (Hdiv & _ & _ & Hfin).
  split; [|split].
  - apply Hzero. vm_compute. reflexivity.
  - destruct Hdiv as (-> & _); vm_compute; reflexivity.
  - apply Hfin, lucky_tick2_reachable.
Defined.

End Engine.

(* ================================================================== *)
(** ** TargetPredictor: the history *)

Section PredictorHistory.

Import TargetPredictor.
Local Open Scope float_scope.

Lemma slice_last_length {A} (n : nat) (l : list A) :
  (List.length (slice_last n l) <= n)%nat.
Proof. unfold slice_last. rewrite List.length_skipn. lia. Qed.

(** Taking the last [n] entries before appending changes nothing to the last
    [n] entries of the whole. *)
Lemma slice_last_slice_app {A} (n : nat) (l1 l2 : list A) :
  slice_last n (slice_last n l1 ++ l2) = slice_last n (l1 ++ l2).
Proof.
  unfold slice_last.
  rewrite !List.length_app, List.length_skipn, !List.skipn_app, List.skipn_skipn,
    List.length_skipn.
  f_equal; f_equal; lia.
Qed.

(** One call of [addPosition] on a history within its bound. *)
Lemma addPosition_history (pos : Vector3.t) (timestamp : float) (this : t) :
  (List.length (positionHistory this) <= maxHistorySize this)%nat ->
  positionHistory (addPosition pos timestamp this) =
  slice_last (maxHistorySize this) (positionHistory this ++ [sample pos timestamp]).
Proof.
  intros Hlen. unfold addPosition, slice_last. cbn [positionHistory].
  destruct pos as [px py pz]. unfold Vector3.clone. cbn [Vector3.x Vector3.y Vector3.z].
  rewrite List.length_app. cbn [List.length].
  destruct (Nat.ltb_spec (maxHistorySize this) (List.length (positionHistory this) + 1)).
  - replace (List.length (positionHistory this) + 1 - maxHistorySize this)%nat with 1%nat
      by lia.
    reflexivity.
  - replace (List.length (positionHistory this) + 1 - maxHistorySize this)%nat with 0%nat
      by lia.
    reflexivity.
Qed.

Lemma addPosition_maxHistorySize (pos : Vector3.t) (timestamp : float) (this : t) :
  maxHistorySize (addPosition pos timestamp this) = maxHistorySize this.
Proof. reflexivity. Qed.

(** X1.  A predictor whose history is within its bound keeps exactly the last
    [maxHistorySize] samples it was given, oldest first: after any sequence of
    calls of [addPosition] the history is the tail of the old history followed
    by the new samples, and it never grows beyond the bound. *)
Theorem feed_history (samples : list Sample) (this : t) :
  (List.length (positionHistory this) <= maxHistorySize this)%nat ->
  positionHistory (Scenario.feed samples this) =
    slice_last (maxHistorySize this) (positionHistory this ++ samples) /\
  maxHistorySize (Scenario.feed samples this) = maxHistorySize this /\
  (List.length (positionHistory (Scenario.feed samples this)) <= maxHistorySize this)%nat.
Proof.
  revert this. induction samples as [| s samples IH]; intros this Hlen.
  - cbn [Scenario.feed fold_left]. rewrite List.app_nil_r.
    unfold slice_last.
    replace (List.length (positionHistory this) - maxHistorySize this)%nat with 0%nat by lia.
    auto.
  - change (Scenario.feed (s :: samples) this)
      with (Scenario.feed samples (addPosition (position s) (time s) this)).
    pose proof (addPosition_history (position s) (time s) this Hlen) as Hadd.
    assert (Hlen' : (List.length (positionHistory (addPosition (position s) (time s) this))
                     <= maxHistorySize (addPosition (position s) (time s) this))%nat).
    { rewrite Hadd, addPosition_maxHistorySize. apply slice_last_length. }
    destruct (IH _ Hlen') as (Hh & Hm & Hl).
    rewrite addPosition_maxHistorySize in Hh, Hm, Hl.
    repeat split; [| exact Hm | exact Hl].
    rewrite Hh, Hadd, slice_last_slice_app, <- List.app_assoc.
    destruct s; reflexivity.
Qed.

(** Twelve samples fed to a new predictor: the first two are gone. *)
Lemma feed_history_witness :
  positionHistory (Scenario.feed Scenario.twelve (constructor EnhancedConfig)) =
    slice_last 10 Scenario.twelve /\
  maxHistorySize (Scenario.feed Scenario.twelve (constructor EnhancedConfig)) = 10%nat /\
  (List.length (positionHistory (Scenario.feed Scenario.twelve (constructor EnhancedConfig)))
   <= 10)%nat.
Proof.
  apply (feed_history Scenario.twelve (constructor EnhancedConfig)). cbn. lia.
Defined.

(** X2.  With no sample the prediction is the zero vector and with a single
    sample it is that sample's position, whatever the time ahead; this is what
    [predictPosition] gives right after [reset], and after the first
    [addPosition] that follows a [reset]. *)
Theorem predictPosition_after_reset (timeAhead : float) (pos : Vector3.t)
    (timestamp : float) (this : t) :
  predictPosition timeAhead (reset this) = Vector3.zero /\
  ((1 <= maxHistorySize this)%nat ->
   predictPosition timeAhead (addPosition pos timestamp (reset this)) = pos).
Proof.
  split; [reflexivity |].
  intros Hmax. unfold predictPosition, addPosition, reset.
  cbn [positionHistory maxHistorySize config app List.length].
  destruct (Nat.ltb_spec (maxHistorySize this) 1) as [Hlt | _]; [lia |].
  cbn. destruct pos; reflexivity.
Qed.

Lemma predictPosition_after_reset_witness :
  predictPosition 0.15 (reset Run.predictor_three) = Vector3.zero /\
  predictPosition 0.15 (addPosition (Vector3.new 1 2 3) 5000 (reset Run.predictor_three))
    = Vector3.new 1 2 3.
Proof.
  destruct (predictPosition_after_reset 0.15 (Vector3.new 1 2 3) 5000 Run.predictor_three)
    as [Hzero Hone].
  split; [exact Hzero | apply Hone; cbn; lia].
Defined.

(** X3.  A pair of samples whose elapsed time is not positive contributes no
    velocity, but the divisor stays the number of pairs: with the last three
    samples [s0], [s1], [s2] and only the pair [s1], [s2] counted, the result
    is the last position plus [((0 + v12) * (1/2)) * timeAhead]; with only the
    pair [s0], [s1] counted it is the last position plus
    [((0 + v01) * (1/2)) * timeAhead]; and with two samples whose pair is not
    counted it is the last position plus [(0 * (1/1)) * timeAhead]. *)
Theorem predictPosition_skipped_pair (timeAhead : float) (this : t) :
  (forall older s0 s1 s2,
     positionHistory this = older ++ [s0; s1; s2] ->
     JS.gtb (elapsed s0 s1) 0 = false ->
     JS.gtb (elapsed s1 s2) 0 = true ->
     predictPosition timeAhead this =
     Vector3.add (position s2)
       (Vector3.multiply
          (Vector3.multiply (Vector3.add Vector3.zero (pairVelocity s1 s2)) 0.5)
          timeAhead)) /\
  (forall older s0 s1 s2,
     positionHistory this = older ++ [s0; s1; s2] ->
     JS.gtb (elapsed s0 s1) 0 = true ->
     JS.gtb (elapsed s1 s2) 0 = false ->
     predictPosition timeAhead this =
     Vector3.add (position s2)
       (Vector3.multiply
          (Vector3.multiply (Vector3.add Vector3.zero (pairVelocity s0 s1)) 0.5)
          timeAhead)) /\
  (forall s0 s1,
     positionHistory this = [s0; s1] ->
     JS.gtb (elapsed s0 s1) 0 = false ->
     predictPosition timeAhead this =
     Vector3.add (position s1)
       (Vector3.multiply (Vector3.multiply Vector3.zero 1) timeAhead)).
Proof.
  repeat split.
  - intros older s0 s1 s2 Hh H01 H12.
    rewrite (predictPosition_last_three _ _ _ _ _ _ Hh).
    rewrite (sumVelocities_skip _ _ _ _ H01), (sumVelocities_add _ _ _ _ H12).
    reflexivity.
  - intros older s0 s1 s2 Hh H01 H12.
    rewrite (predictPosition_last_three _ _ _ _ _ _ Hh).
    rewrite (sumVelocities_add _ _ _ _ H01), (sumVelocities_skip _ _ _ _ H12).
    reflexivity.
  - intros s0 s1 Hh H01. unfold predictPosition. rewrite Hh.
    cbn [List.length Nat.ltb Nat.leb slice_last Nat.sub skipn nth].
    rewrite (sumVelocities_skip _ _ _ _ H01). reflexivity.
Qed.

(** The target stood at the origin, was seen at [(1,0,0)] in the same
    millisecond and at [(3,0,0)] a second later: the velocity of the one pair
    counted is 2 units per second, the prediction one second ahead moves by
    half of it. *)
Lemma predictPosition_skipped_pair_witness :
  predictPosition 1 Scenario.stalled = Vector3.new 4 0 0.
Proof.
  destruct (predictPosition_skipped_pair 1 Scenario.stalled) as (Hskip & _ & _).
  rewrite (Hskip [] (sample (Vector3.new 0 0 0) 1000) (sample (Vector3.new 1 0 0) 1000)
             (sample (Vector3.new 3 0 0) 2000)); reflexivity.
Defined.

End PredictorHistory.

(* ================================================================== *)
(** ** EnhancedTargetManager: adding, refreshing and removing targets *)

Section RegistryOperations.

Import EnhancedTargetManager.
Local Open Scope float_scope.

Lemma filter_all {A} (f : A -> bool) (l : list A) :
  (forall a, In a l -> f a = true) -> List.filter f l = l.
Proof.
  induction l as [| a l IH]; intros Hall; [reflexivity |].
  cbn. rewrite (Hall a (or_introl eq_refl)), IH; [reflexivity |].
  intros b Hb. apply Hall. now right.
Qed.

Lemma filter_idem {A} (f : A -> bool) (l : list A) :
  List.filter f (List.filter f l) = List.filter f l.
Proof. apply filter_all. intros a Ha. now apply List.filter_In in Ha. Qed.

Lemma find_none_iff {A} (f : A -> bool) (l : list A) :
  List.find f l = None <-> forall a, In a l -> f a = false.
Proof.
  split; [apply List.find_none |].
  induction l as [| a l IH]; intros Hall; [reflexivity |].
  cbn. rewrite (Hall a (or_introl eq_refl)). apply IH.
  intros b Hb. apply Hall. now right.
Qed.

(** X4.  [removeTarget(id)] keeps, in their order, exactly the targets whose
    id the test [!==] tells apart from [id], and keeps the selection exactly
    when its id is not [=== id]; a second call changes nothing more; and when
    no target and no selection has that id the manager is left as it was. *)
Theorem removeTarget_spec (targetId : float) (h : Heap) (this : t) :
  let m := removeTarget targetId h this in
  targets m =
    List.filter (fun l => negb (Target.id (deref h l) =? targetId)) (targets this) /\
  (forall l, In l (targets m) <->
             In l (targets this) /\ (Target.id (deref h l) =? targetId) = false) /\
  (forall c, currentTarget m = Some c <->
             currentTarget this = Some c /\ (Target.id (deref h c) =? targetId) = false) /\
  removeTarget targetId h m = m /\
  ((forall l, In l (targets this) -> (Target.id (deref h l) =? targetId) = false) ->
   (forall c, currentTarget this = Some c -> (Target.id (deref h c) =? targetId) = false) ->
   m = this).
Proof.
  cbn zeta. repeat split.
  - unfold removeTarget in H. cbn [targets] in H. now apply List.filter_In in H.
  - unfold removeTarget in H. cbn [targets] in H. apply List.filter_In in H.
    destruct H as [_ H]. unfold JS.neqb in H. now apply negb_true_iff in H.
  - intros [Hin Hid]. unfold removeTarget. cbn [targets]. apply List.filter_In.
    split; [exact Hin |]. unfold JS.neqb. now rewrite Hid.
  - unfold removeTarget in H. cbn [currentTarget] in H.
    destruct (currentTarget this) as [c' |]; [| discriminate].
    destruct (Target.id (deref h c') =? targetId); [discriminate | exact H].
  - unfold removeTarget in H. cbn [currentTarget] in H.
    destruct (currentTarget this) as [c' |]; [| discriminate].
    destruct (Target.id (deref h c') =? targetId) eqn:E; [discriminate |].
    now inversion H; subst.
  - intros [Hc Hid]. unfold removeTarget. cbn [currentTarget]. now rewrite Hc, Hid.
  - unfold removeTarget. cbn [targets currentTarget config targetLockTime switchCooldown].
    rewrite filter_idem. f_equal.
    destruct (currentTarget this) as [c |]; [| reflexivity].
    destruct (Target.id (deref h c) =? targetId) eqn:E; [reflexivity | now rewrite E].
  - intros Hts Hc. unfold removeTarget. destruct this as [cfg ts cur lock cool].
    cbn [targets currentTarget config targetLockTime switchCooldown] in *.
    rewrite filter_all.
    + destruct cur as [c |]; [| reflexivity]. now rewrite (Hc c eq_refl).
    + intros l Hl. unfold JS.neqb. now rewrite (Hts l Hl).
Qed.

(** In the registry holding [a] (selected) and [b], no target has id 7:
    removing id 7 changes nothing. *)
Lemma removeTarget_spec_witness :
  removeTarget 7 (fst (fst Run.registry_first)) (snd (fst Run.registry_first))
  = snd (fst Run.registry_first).
Proof.
  apply (removeTarget_spec 7 (fst (fst Run.registry_first)) (snd (fst Run.registry_first))).
  - intros l [<- | [<- | []]]; vm_compute; reflexivity.
  - intros c Hc. vm_compute in Hc. injection Hc as <-. vm_compute. reflexivity.
Defined.

(** X5.  [updateTarget(id, p)] does nothing, and does not read the clock, when
    no target has that id.  Otherwise it refreshes the first target with that
    id and no other object: position [p], last seen at the clock reading, and
    visible again, with id, priority, type, health and distance as they were;
    from then on that target passes the filter of [getBestTarget] at a time
    [t] exactly when [t - now] is below the timeout and its health is
    positive. *)
Theorem updateTarget_spec (targetId : float) (newPosition : Vector3.t) (h : Heap)
    (this : t) (w : JS.World) :
  ((forall l, In l (targets this) -> (Target.id (deref h l) =? targetId) = false) ->
   updateTarget targetId newPosition h this w = (h, w)) /\
  (forall l,
     List.find (fun l => Target.id (deref h l) =? targetId) (targets this) = Some l ->
     let now := JS.clock w (JS.clock_reads w) in
     let h' := fst (updateTarget targetId newPosition h this w) in
     In l (targets this) /\
     (Target.id (deref h l) =? targetId) = true /\
     deref h' l =
       Target.mk (Target.id (deref h l)) newPosition (Target.priority (deref h l))
         (Target.targetType (deref h l)) now true (Target.health (deref h l))
         (Target.distance (deref h l)) /\
     (forall l', l' <> l -> deref h' l' = deref h l') /\
     (forall t, isValid this t (deref h' l) =
                (t - now <? Config.targetTimeout (config this)) &&
                JS.gtb (Target.health (deref h l)) 0) /\
     JS.clock_reads (snd (updateTarget targetId newPosition h this w))
       = S (JS.clock_reads w)).
Proof.
  split.
  - intros Hnone. unfold updateTarget.
    now rewrite (proj2 (find_none_iff _ _) Hnone).
  - intros l Hfind. cbn zeta. unfold updateTarget. rewrite Hfind.
    apply List.find_some in Hfind. destruct Hfind as [Hin Hid].
    cbn -[deref store]. rewrite clone_id.
    assert (Hl : deref (store l (Target.set_seen newPosition
                                   (JS.clock w (JS.clock_reads w)) (deref h l)) h) l
                 = Target.set_seen newPosition (JS.clock w (JS.clock_reads w)) (deref h l)).
    { rewrite deref_store. now destruct (decide (l = l)). }
    repeat split; try assumption.
    + intros l' Hne. rewrite deref_store. destruct (decide (l = l')); [| reflexivity].
      now subst.
    + intros t. rewrite Hl. reflexivity.
Qed.

(** In the registry holding [a] and [b], [updateTarget(a.id, (1,2,3))] at the
    next clock reading (1030 ms) moves [a]; an unknown id changes nothing. *)
Lemma updateTarget_spec_witness :
  updateTarget 7 (Vector3.new 1 2 3) (fst (fst Run.registry_first))
    (snd (fst Run.registry_first)) (snd Run.registry_first)
  = (fst (fst Run.registry_first), snd Run.registry_first) /\
  deref (fst (updateTarget 1000.25 (Vector3.new 1 2 3) (fst (fst Run.registry_first))
                (snd (fst Run.registry_first)) (snd Run.registry_first))) 0%nat
  = Target.mk 1000.25 (Vector3.new 1 2 3) 1 "head" 1030 true 100 0.
Proof.
  split.
  - apply (updateTarget_spec 7 (Vector3.new 1 2 3) (fst (fst Run.registry_first))
             (snd (fst Run.registry_first)) (snd Run.registry_first)).
    intros l [<- | [<- | []]]; vm_compute; reflexivity.
  - destruct (updateTarget_spec 1000.25 (Vector3.new 1 2 3) (fst (fst Run.registry_first))
                (snd (fst Run.registry_first)) (snd Run.registry_first)) as [_ Hsome].
    destruct (Hsome 0%nat) as (_ & _ & Hl & _); [vm_compute; reflexivity |].
    rewrite Hl. vm_compute. reflexivity.
Defined.

(** X6.  [addTarget] creates a new object: its reference was not in use, every
    object already in the store is left as it was, and the new target comes
    last in the list.  Its id is the first clock reading plus the random
    number drawn, its last-seen time the second clock reading; it is visible,
    with health 100 and distance 0.  The selection and the cooldown are not
    touched. *)
Theorem addTarget_spec (pos : Vector3.t) (priority : float) (targetType : string)
    (h : Heap) (this : t) (w : JS.World) :
  let r := addTarget pos priority targetType h this w in
  let l := fst (fst (fst r)) in
  let h' := snd (fst (fst r)) in
  let m := snd (fst r) in
  h !! l = None /\
  deref h' l =
    Target.mk (JS.clock w (JS.clock_reads w) + JS.random w (JS.random_draws w)) pos
      priority targetType (JS.clock w (S (JS.clock_reads w))) true 100 0 /\
  (forall l', l' <> l -> h' !! l' = h !! l') /\
  targets m = targets this ++ [l] /\
  currentTarget m = currentTarget this /\
  switchCooldown m = switchCooldown this /\
  JS.clock_reads (snd r) = S (S (JS.clock_reads w)) /\
  JS.random_draws (snd r) = S (JS.random_draws w).
Proof.
  cbn -[deref store alloc]. rewrite clone_id. repeat split.
  - apply not_elem_of_dom. unfold alloc. apply is_fresh.
  - rewrite deref_store. now destruct (decide (alloc h = alloc h)).
  - intros l' Hne. unfold store. now rewrite lookup_insert_ne.
Qed.

End RegistryOperations.

(* ================================================================== *)
(** ** EnhancedTargetManager: what [getBestTarget] returns and writes *)

Section RegistrySelection.

Import EnhancedTargetManager.
Local Open Scope float_scope.

(** No target passes the filter: nothing is returned and nothing changes. *)
Lemma getBestTarget_no_valid (cameraPos : Vector3.t) (h : Heap) (this : t) (w : JS.World) :
  List.filter (fun l => isValid this (JS.clock w (JS.clock_reads w)) (deref h l))
    (targets this) = [] ->
  fst (getBestTarget cameraPos h this w) = (None, h, this).
Proof.
  intros Hvalid. unfold getBestTarget.
  destruct (List.length (targets this) =? 0)%nat; [reflexivity |].
  cbn -[updateDistances selectLoop calculateTargetScore switchTo].
  now rewrite Hvalid.
Qed.

(** The switching logic always returns a target, which is the selection from
    then on: the best one, or the selection held so far. *)
Lemma switchTo_result (h : Heap) (this : t) (best : loc) :
  exists r,
    fst (switchTo h this best) = Some r /\
    currentTarget (snd (switchTo h this best)) = Some r /\
    (r = best \/ currentTarget this = Some r) /\
    targets (snd (switchTo h this best)) = targets this /\
    config (snd (switchTo h this best)) = config this.
Proof.
  unfold switchTo. destruct (currentTarget this) as [c |] eqn:Hc.
  - destruct (JS.neqb _ _).
    + destruct (JS.gtb (switchCooldown this) 0 && negb (Config.instantSwitch (config this))).
      * exists c. cbn. auto.
      * exists best. cbn. auto.
    + exists best. cbn. auto.
  - exists best. cbn. auto.
Qed.

(** The distances written by [forEach]: each target of the list gets the
    distance from the camera to its position, every other field and every
    other object stays. *)
Lemma updateDistances_spec (cameraPos : Vector3.t) (ls : list loc) (h : Heap) (l : loc) :
  (In l ls ->
   deref (updateDistances cameraPos ls h) l =
   Target.set_distance (Vector3.distanceTo cameraPos (Target.position (deref h l)))
     (deref h l)) /\
  (~ In l ls -> deref (updateDistances cameraPos ls h) l = deref h l).
Proof.
  revert h. induction ls as [| a ls IH]; intros h.
  - split; [intros [] | reflexivity].
  - change (updateDistances cameraPos (a :: ls) h)
      with (updateDistances cameraPos ls
              (store a (Target.set_distance
                          (Vector3.distanceTo cameraPos (Target.position (deref h a)))
                          (deref h a)) h)).
    destruct (IH (store a (Target.set_distance
                             (Vector3.distanceTo cameraPos (Target.position (deref h a)))
                             (deref h a)) h)) as [IHin IHout].
    rewrite deref_store in IHin, IHout.
    destruct (List.in_dec Nat.eq_dec l ls) as [Hin | Hnin].
    + split; [intros _ | intros Hn; exfalso; apply Hn; now right].
      rewrite (IHin Hin). destruct (decide (a = l)) as [-> | _]; reflexivity.
    + rewrite (IHout Hnin). destruct (decide (a = l)) as [-> | Hne].
      * split; [reflexivity | intros Hn; exfalso; apply Hn; now left].
      * split; [intros [Heq | Hin]; [now elim Hne | now elim Hnin] | reflexivity].
Qed.

(** A candidate that no later one scores above stays the best. *)
Lemma selectLoop_first (h : Heap) (this : t) (cameraPos : Vector3.t) (rest : list loc)
    (best : loc) (score : float) :
  (forall l, In l rest -> JS.gtb (calculateTargetScore h this l cameraPos) score = false) ->
  selectLoop h this cameraPos rest best score = best.
Proof.
  induction rest as [| l rest IH]; intros Hall; [reflexivity |].
  cbn [selectLoop]. rewrite (Hall l (or_introl eq_refl)). apply IH.
  intros l' Hl'. apply Hall. now right.
Qed.

(** X7.  [getBestTarget] returns [null] exactly when no target passes its
    filter (visible, seen less than the timeout ago, health positive) at the
    clock reading it takes; and then it changes nothing: no distance is
    written and the manager, its selection included, is as before. *)
Theorem getBestTarget_none (cameraPos : Vector3.t) (h : Heap) (this : t) (w : JS.World) :
  let valid :=
    List.filter (fun l => isValid this (JS.clock w (JS.clock_reads w)) (deref h l))
      (targets this) in
  (fst (fst (fst (getBestTarget cameraPos h this w))) = None <-> valid = []) /\
  (valid = [] -> fst (getBestTarget cameraPos h this w) = (None, h, this)).
Proof.
  cbn zeta. split; [split |].
  - intros Hnone.
    destruct (List.filter _ (targets this)) as [| first rest] eqn:Hvalid; [reflexivity |].
    rewrite (getBestTarget_valid cameraPos h this w first rest Hvalid) in Hnone.
    cbn [fst] in Hnone.
    destruct (switchTo_result (updateDistances cameraPos (first :: rest) h) this
                (selectLoop (updateDistances cameraPos (first :: rest) h) this cameraPos rest
                   first
                   (calculateTargetScore (updateDistances cameraPos (first :: rest) h) this
                      first cameraPos))) as (r & Hr & _).
    rewrite Hr in Hnone. discriminate.
  - intros Hvalid. now rewrite (getBestTarget_no_valid cameraPos h this w Hvalid).
  - apply getBestTarget_no_valid.
Qed.

(** The registry holding [a] (selected) and [b], both last seen before
    1030 ms, asked at 5000 ms: nothing passes the filter, and [a] stays
    selected. *)
Lemma getBestTarget_none_witness :
  fst (getBestTarget (Vector3.new 0 0 0) (fst (fst Run.registry_first))
         (snd (fst Run.registry_first)) Scenario.late_world)
  = (None, fst (fst Run.registry_first), snd (fst Run.registry_first)) /\
  currentTarget (snd (fst Run.registry_first)) = Some 0%nat.
Proof.
  split; [| reflexivity].
  apply (getBestTarget_none (Vector3.new 0 0 0) (fst (fst Run.registry_first))
           (snd (fst Run.registry_first)) Scenario.late_world).
  vm_compute. reflexivity.
Defined.

(** X8.  A target returned by [getBestTarget] is the manager's selection from
    then on; it is one of the targets that passed the filter, or the selection
    held before the call; the list of targets is not changed. *)
Theorem getBestTarget_selection (cameraPos : Vector3.t) (h : Heap) (this : t)
    (w : JS.World) (r : loc) :
  let valid :=
    List.filter (fun l => isValid this (JS.clock w (JS.clock_reads w)) (deref h l))
      (targets this) in
  fst (fst (fst (getBestTarget cameraPos h this w))) = Some r ->
  currentTarget (snd (fst (getBestTarget cameraPos h this w))) = Some r /\
  (In r valid \/ currentTarget this = Some r) /\
  targets (snd (fst (getBestTarget cameraPos h this w))) = targets this.
Proof.
  cbn zeta. intros Hsome.
  destruct (List.filter _ (targets this)) as [| first rest] eqn:Hvalid.
  - rewrite (getBestTarget_no_valid cameraPos h this w Hvalid) in Hsome. discriminate.
  - rewrite (getBestTarget_valid cameraPos h this w first rest Hvalid) in Hsome |- *.
    cbn [fst snd] in Hsome |- *.
    set (h' := updateDistances cameraPos (first :: rest) h) in *.
    set (best := selectLoop h' this cameraPos rest first
                   (calculateTargetScore h' this first cameraPos)) in *.
    destruct (switchTo_result h' this best) as (r' & Hr & Hcur & Hor & Hts & _).
    rewrite Hr in Hsome. injection Hsome as ->.
    repeat split; [exact Hcur | | exact Hts].
    destruct Hor as [-> | Hc]; [left | now right].
    apply selectLoop_In.
Qed.

Lemma getBestTarget_selection_witness :
  currentTarget (snd (fst (getBestTarget (Vector3.new 0 0 0) (fst (fst Run.registry_one))
                             (snd (fst Run.registry_one)) (snd Run.registry_one))))
  = Some 0%nat.
Proof.
  apply (getBestTarget_selection (Vector3.new 0 0 0) (fst (fst Run.registry_one))
           (snd (fst Run.registry_one)) (snd Run.registry_one) 0%nat).
  vm_compute. reflexivity.
Defined.

(** X9.  [getBestTarget] writes the distance from the camera to each target
    that passes the filter, and nothing else: those objects keep every other
    field, and the objects that do not pass, the current selection among
    them, keep even the distance they had.  This holds whichever target is
    returned. *)
Theorem getBestTarget_distances (cameraPos : Vector3.t) (h : Heap) (this : t)
    (w : JS.World) (l : loc) :
  let valid :=
    List.filter (fun l => isValid this (JS.clock w (JS.clock_reads w)) (deref h l))
      (targets this) in
  let h' := snd (fst (fst (getBestTarget cameraPos h this w))) in
  (In l valid ->
   deref h' l =
   Target.set_distance (Vector3.distanceTo cameraPos (Target.position (deref h l)))
     (deref h l)) /\
  (~ In l valid -> deref h' l = deref h l).
Proof.
  cbn zeta.
  destruct (List.filter _ (targets this)) as [| first rest] eqn:Hvalid.
  - rewrite (getBestTarget_no_valid cameraPos h this w Hvalid). cbn [fst snd].
    split; [intros [] | reflexivity].
  - rewrite (getBestTarget_valid cameraPos h this w first rest Hvalid). cbn [fst snd].
    apply updateDistances_spec.
Qed.

(** The camera at [(3,4,0)]: the one target, at the origin, is 5 away. *)
Lemma getBestTarget_distances_witness :
  Target.distance
    (deref (snd (fst (fst (getBestTarget (Vector3.new 3 4 0) (fst (fst Run.registry_one))
                             (snd (fst Run.registry_one)) (snd Run.registry_one))))) 0%nat)
  = 5.
Proof.
  destruct (getBestTarget_distances (Vector3.new 3 4 0) (fst (fst Run.registry_one))
              (snd (fst Run.registry_one)) (snd Run.registry_one) 0%nat) as [Hin _].
  rewrite Hin; [vm_compute; reflexivity |].
  vm_compute. left. reflexivity.
Defined.

(** X10.  Ties go to the earlier target: when nothing is selected yet and no
    other target that passes the filter scores above the first one that
    does (in particular when their scores are equal, or when a score is
    NaN), [getBestTarget] returns that first one. *)
Theorem getBestTarget_ties (cameraPos : Vector3.t) (h : Heap) (this : t)
    (w : JS.World) (first : loc) (rest : list loc) :
  let h' := updateDistances cameraPos (first :: rest) h in
  List.filter (fun l => isValid this (JS.clock w (JS.clock_reads w)) (deref h l))
    (targets this) = first :: rest ->
  currentTarget this = None ->
  (forall l, In l rest ->
     JS.gtb (calculateTargetScore h' this l cameraPos)
            (calculateTargetScore h' this first cameraPos) = false) ->
  fst (fst (fst (getBestTarget cameraPos h this w))) = Some first /\
  currentTarget (snd (fst (getBestTarget cameraPos h this w))) = Some first.
Proof.
  cbn zeta. intros Hvalid Hcur Hties.
  rewrite (getBestTarget_valid cameraPos h this w first rest Hvalid). cbn [fst snd].
  rewrite (selectLoop_first _ _ _ _ _ _ Hties).
  rewrite (switchTo_keep _ _ _ (or_introl Hcur)). split; reflexivity.
Qed.

(** Two targets with the same score: the one added first is returned. *)
Lemma getBestTarget_ties_witness :
  fst (fst (fst (getBestTarget (Vector3.new 0 0 0) (fst (fst Scenario.registry_tie))
                   (snd (fst Scenario.registry_tie)) (snd Scenario.registry_tie))))
  = Some 0%nat.
Proof.
  apply (getBestTarget_ties (Vector3.new 0 0 0) (fst (fst Scenario.registry_tie))
           (snd (fst Scenario.registry_tie)) (snd Scenario.registry_tie) 0%nat [1%nat]).
  - vm_compute. reflexivity.
  - reflexivity.
  - intros l [<- | []]. vm_compute. reflexivity.
Defined.

End RegistrySelection.

(* ================================================================== *)
(** ** SmartAutoFire: a shot that passes the gates *)

Section TriggerShot.

Import SmartAutoFire.
Local Open Scope float_scope.

(** X11.  When the three gates of [canFire] let the call through, [fire]
    reads the clock a second time and stamps [lastFireTime] with that
    reading, on a miss as well as on a hit; it draws exactly one random
    number [r] and hits exactly when [r < aimAccuracy * accuracy]; a hit
    raises [consecutiveHits] by one and a miss sets it to 0; [accuracy] is
    not changed; one line is printed. *)
Theorem fire_shot (target : Target.t) (aimAccuracy : float) (this : t) (w : JS.World) :
  (JS.clock w (JS.clock_reads w) - lastFireTime this <? Config.fireRate (config this))
    = false ->
  JS.gtb (Target.distance target) (Config.maxFireDistance (config this)) = false ->
  (aimAccuracy <? Config.minAccuracy (config this)) = false ->
  let now := JS.clock w (S (JS.clock_reads w)) in
  let hit := JS.random w (JS.random_draws w) <? aimAccuracy * accuracy this in
  fire target aimAccuracy this w =
  (hit,
   mk (config this) now (if hit then consecutiveHits this + 1 else 0) (accuracy this),
   JS.mkWorld (JS.clock w) (S (S (JS.clock_reads w))) (JS.random w)
     (S (JS.random_draws w))
     (JS.console w ++
      [if hit then JS.LogFireHit (consecutiveHits this + 1)
       else JS.LogFireMiss aimAccuracy])).
Proof.
  intros Hrate Hdist Hacc. cbn zeta.
  unfold fire, canFire, gates, JS.bind, JS.Date_now, JS.Math_random, JS.console_log, JS.ret.
  rewrite Hrate, Hdist, Hacc.
  cbn [negb JS.clock JS.clock_reads JS.random JS.random_draws JS.console
       config lastFireTime consecutiveHits accuracy].
  destruct (JS.random w (JS.random_draws w) <? aimAccuracy * accuracy this); reflexivity.
Qed.

(** A new trigger (accuracy 10, never fired), perfect aim, the generator
    drawing 0.5: a hit, stamped with the second clock reading. *)
Lemma fire_shot_witness :
  fst (fire (deref (fst (fst Run.started)) 0%nat) 1 (constructor EnhancedConfig) Run.world)
  = (true, mk EnhancedConfig 1700000000002 1 10).
Proof.
  rewrite (fire_shot (deref (fst (fst Run.started)) 0%nat) 1 (constructor EnhancedConfig)
             Run.world); vm_compute; reflexivity.
Defined.

End TriggerShot.

(* ================================================================== *)
(** ** AdvancedKalmanFilter: [reset] *)

Section KalmanReset.

Import AdvancedKalmanFilter.
Local Open Scope float_scope.

(** X12.  [reset] leaves the filter exactly as the constructor would with
    the same noise parameters at the same clock reading: whatever the filter
    had learnt, the velocity and every predicted position read 0 right after
    it, and the next [update(m)] behaves as a first sample, returning [m] and
    leaving the state [[m, 0]] with the identity covariance. *)
Theorem reset_forgets (m timeAhead : float) (k : t) (w : JS.World) :
  let k0 := fst (reset k w) in
  let w0 := snd (reset k w) in
  reset k w = constructor (R k) (Q k) (processNoise k) w /\
  getVelocity k0 = 0 /\
  getPredictedPosition timeAhead k0 = 0 /\
  fst (fst (update m k0 w0)) = m /\
  state (snd (fst (update m k0 w0))) = (m, 0) /\
  covariance (snd (fst (update m k0 w0))) = ((1, 0), (0, 1)) /\
  isInitialized (snd (fst (update m k0 w0))) = true.
Proof. repeat split. Qed.

End KalmanReset.

(* ================================================================== *)
(** ** EnhancedAimLockEngine: a tick without a target *)

Section EngineIdle.

Import EnhancedAimLockEngine.
Local Open Scope float_scope.

Lemma filter_none {A} (f : A -> bool) (l : list A) :
  (forall a, In a l -> f a = false) -> List.filter f l = [].
Proof.
  induction l as [| a l IH]; intros Hall; [reflexivity |].
  cbn. rewrite (Hall a (or_introl eq_refl)). apply IH.
  intros b Hb. apply Hall. now right.
Qed.

(** [getBestTarget] draws no random number and prints nothing. *)
Lemma getBestTarget_world (cameraPos : Vector3.t) (h : Heap)
    (m : EnhancedTargetManager.t) (w : JS.World) :
  JS.random_draws (snd (EnhancedTargetManager.getBestTarget cameraPos h m w))
    = JS.random_draws w /\
  JS.console (snd (EnhancedTargetManager.getBestTarget cameraPos h m w)) = JS.console w /\
  JS.clock (snd (EnhancedTargetManager.getBestTarget cameraPos h m w)) = JS.clock w.
Proof.
  unfold EnhancedTargetManager.getBestTarget.
  destruct (List.length (EnhancedTargetManager.targets m) =? 0)%nat; [now cbn |].
  unfold JS.bind, JS.Date_now, JS.ret.
  destruct (List.filter _ _); [now cbn |].
  destruct (EnhancedTargetManager.switchTo _ _ _). now cbn.
Qed.

(** X13.  A tick in which no target passes the filter (at the third clock
    reading of the tick, the one [getBestTarget] takes) resets the tracking
    and nothing else: the three filters are uninitialized with state [[0, 0]]
    and the identity covariance, the predictor's history is empty and the
    lock duration is 0; [lastUpdateTime] is the tick's second clock reading.
    The store, the camera, the drag lock, the trigger, the target manager
    (the selection it holds included), the accuracy last computed and both
    counters are as before; no random number is drawn and nothing is
    printed. *)
Theorem updateAimLock_no_target (h : Heap) (this : t) (w : JS.World) :
  (forall l, In l (EnhancedTargetManager.targets (targetManager this)) ->
     EnhancedTargetManager.isValid (targetManager this)
       (JS.clock w (2 + JS.clock_reads w)) (deref h l) = false) ->
  let h' := fst (fst (updateAimLock h this w)) in
  let e' := snd (fst (updateAimLock h this w)) in
  let w' := snd (updateAimLock h this w) in
  h' = h /\
  (forall k, In k [kalmanX e'; kalmanY e'; kalmanZ e'] ->
     AdvancedKalmanFilter.isInitialized k = false /\
     AdvancedKalmanFilter.state k = (0, 0) /\
     AdvancedKalmanFilter.covariance k = ((1, 0), (0, 1))) /\
  TargetPredictor.positionHistory (predictor e') = [] /\
  lockDuration e' = 0 /\
  lastUpdateTime e' = JS.clock w (S (JS.clock_reads w)) /\
  camera e' = camera this /\
  dragLock e' = dragLock this /\
  autoFire e' = autoFire this /\
  targetManager e' = targetManager this /\
  currentAccuracy e' = currentAccuracy this /\
  totalShots e' = totalShots this /\
  totalHits e' = totalHits this /\
  JS.random_draws w' = JS.random_draws w /\
  JS.console w' = JS.console w.
Proof.
  intros Hnone. cbn zeta.
  unfold updateAimLock, select, PerformanceMonitor.startFrame, JS.bind, JS.Date_now, JS.ret.
  cbn [JS.clock JS.clock_reads JS.random JS.random_draws JS.console].
  set (w2 := JS.mkWorld (JS.clock w) (S (S (JS.clock_reads w))) _ _ _).
  assert (Hvalid : List.filter
            (fun l => EnhancedTargetManager.isValid (targetManager this)
                        (JS.clock w2 (JS.clock_reads w2)) (deref h l))
            (EnhancedTargetManager.targets (targetManager this)) = []).
  { apply filter_none. exact Hnone. }
  pose proof (getBestTarget_no_valid (EnhancedCamera.position (camera this)) h
                (targetManager this) w2 Hvalid) as Hsel.
  destruct (getBestTarget_world (EnhancedCamera.position (camera this)) h
              (targetManager this) w2) as (Hdraws & Hconsole & _).
  destruct (EnhancedTargetManager.getBestTarget _ h (targetManager this) w2)
    as [[[r hh] mm] w3].
  cbn [fst snd] in Hsel, Hdraws, Hconsole. injection Hsel as -> -> ->.
  unfold resetTracking, AdvancedKalmanFilter.reset, PerformanceMonitor.endFrame,
    JS.bind, JS.Date_now, JS.ret.
  cbn -[PrimFloat.ltb PrimFloat.sub PrimFloat.add].
  match goal with |- context [if ?c then _ else _] => destruct c end;
    cbn -[PrimFloat.ltb PrimFloat.sub PrimFloat.add].
  all: split; [reflexivity |]; split;
         [intros k [<- | [<- | [<- | []]]]; repeat split |];
         repeat split; assumption.
Qed.

(** Ten seconds after the second tick of the engine run its target has
    expired: the tick clears the lock, and the accuracy still reads 1. *)
Lemma updateAimLock_no_target_witness :
  lockDuration (snd (fst Scenario.abandoned)) = 0.018000000000000002 /\
  lockDuration
    (snd (fst (updateAimLock (fst (fst Scenario.abandoned)) (snd (fst Scenario.abandoned))
                 (snd Scenario.abandoned)))) = 0 /\
  currentAccuracy
    (snd (fst (updateAimLock (fst (fst Scenario.abandoned)) (snd (fst Scenario.abandoned))
                 (snd Scenario.abandoned)))) = 1.
Proof.
  split; [vm_compute; reflexivity |].
  destruct (updateAimLock_no_target (fst (fst Scenario.abandoned))
              (snd (fst Scenario.abandoned)) (snd Scenario.abandoned))
    as (_ & _ & _ & Hlock & _ & _ & _ & _ & _ & Hacc & _).
  - assert (Hts : EnhancedTargetManager.targets (targetManager (snd (fst Scenario.abandoned)))
                  = [0%nat]) by (vm_compute; reflexivity).
    intros l Hl. rewrite Hts in Hl. destruct Hl as [<- | []]. vm_compute. reflexivity.
  - split; [exact Hlock |].
    rewrite Hacc. vm_compute. reflexivity.
Defined.

End EngineIdle.

(* ================================================================== *)
(** ** More on the order of numbers *)

Section Order.

Local Open Scope float_scope.

Lemma SFcompare_antisym (x y : spec_float) :
  SFcompare y x = option_map CompOpp (SFcompare x y).
Proof.
  unfold SFcompare.
  destruct x as [sx|sx| |sx mx ex], y as [sy|sy| |sy my ey];
    repeat match goal with s : bool |- _ => destruct s end; try reflexivity;
    change (PosDef.Pos.compare_cont Eq) with Pos.compare; cbn [option_map];
    rewrite (Z.compare_antisym ex ey), (Pos.compare_antisym mx my);
    destruct (ex ?= ey)%Z, (mx ?= my)%positive; reflexivity.
Qed.

Lemma SFcompare_defined (x y : spec_float) :
  SFeqb x x = true -> SFeqb y y = true -> SFcompare x y <> None.
Proof.
  unfold SFeqb, SFcompare.
  destruct x as [sx|sx| |sx mx ex], y as [sy|sy| |sy my ey];
    repeat match goal with s : bool |- _ => destruct s end; try discriminate.
Qed.

(** [<=] is [<] or [==]. *)
Lemma leb_ltb_eqb (a b : float) : (a <=? b) = (a <? b) || (a =? b).
Proof.
  rewrite FloatAxioms.leb_spec, FloatAxioms.ltb_spec, FloatAxioms.eqb_spec.
  unfold SFleb, SFltb, SFeqb. destruct (SFcompare _ _) as [[]|]; reflexivity.
Qed.

(** Two numbers, neither of them NaN, neither below the other, are equal. *)
Lemma not_ltb_eqb (a b : float) :
  PrimFloat.is_nan a = false -> PrimFloat.is_nan b = false ->
  (a <? b) = false -> (b <? a) = false -> (a =? b) = true.
Proof.
  unfold PrimFloat.is_nan.
  rewrite !FloatAxioms.ltb_spec, !FloatAxioms.eqb_spec, !negb_false_iff.
  intros Ha Hb. pose proof (SFcompare_defined _ _ Ha Hb) as Hdef.
  unfold SFltb, SFeqb. rewrite (SFcompare_antisym (Prim2SF a) (Prim2SF b)).
  destruct (SFcompare (Prim2SF a) (Prim2SF b)) as [[]|]; cbn; congruence.
Qed.

Lemma ltb_leb (a b : float) : (a <? b) = true -> (a <=? b) = true.
Proof. intros H. now rewrite leb_ltb_eqb, H. Qed.

(** NaN is below nothing and nothing is below NaN. *)
Lemma ltb_not_nan (a b : float) :
  (a <? b) = true -> PrimFloat.is_nan a = false /\ PrimFloat.is_nan b = false.
Proof.
  unfold PrimFloat.is_nan. rewrite FloatAxioms.ltb_spec, !FloatAxioms.eqb_spec.
  unfold SFltb, SFeqb, SFcompare.
  destruct (Prim2SF a) as [sx|sx| |sx mx ex], (Prim2SF b) as [sy|sy| |sy my ey];
    repeat match goal with s : bool |- _ => destruct s end; try discriminate;
    intros _; cbn; change (PosDef.Pos.compare_cont Eq) with Pos.compare;
    rewrite ?Z.compare_refl, ?Pos.compare_refl; split; reflexivity.
Qed.

Lemma ltb_asym (a b : float) : (a <? b) = true -> (b <? a) = false.
Proof. intros H. exact (gtb_asym b a H). Qed.

Lemma is_finite_not_nan (x : float) :
  PrimFloat.is_finite x = true -> PrimFloat.is_nan x = false.
Proof.
  unfold PrimFloat.is_finite. destruct (PrimFloat.is_nan x); [discriminate | reflexivity].
Qed.

(** [Math.max(0, x)] is never below zero. *)
Lemma Math_max_zero (x : float) : (JS.Math_max 0 x <? 0) = false.
Proof.
  unfold JS.Math_max. change (PrimFloat.is_nan 0) with false. cbn [orb].
  destruct (PrimFloat.is_nan x); [reflexivity |].
  destruct (0 <? x) eqn:H1; [exact (gtb_asym x 0 H1) |].
  destruct (x <? 0); reflexivity.
Qed.

(** [Math.max(0.1, Math.min(1.0, p))], case by case. *)
Lemma clamp_nan (p : float) :
  PrimFloat.is_nan p = true -> PrimFloat.is_nan (JS.Math_max 0.1 (JS.Math_min 1.0 p)) = true.
Proof.
  intros Hp. unfold JS.Math_max, JS.Math_min. rewrite Hp.
  change (PrimFloat.is_nan 1) with false. cbn [orb].
  change (PrimFloat.is_nan nan) with true. rewrite orb_true_r. reflexivity.
Qed.

Lemma clamp_range (p : float) :
  PrimFloat.is_nan p = false -> clamped (JS.Math_max 0.1 (JS.Math_min 1.0 p)).
Proof.
  intros Hp.
  assert (Hmin : (JS.Math_min 1 p <=? 1) = true /\ PrimFloat.is_nan (JS.Math_min 1 p) = false).
  { unfold JS.Math_min. rewrite Hp. change (PrimFloat.is_nan 1) with false. cbn [orb].
    destruct (1 <? p) eqn:H1; [split; reflexivity |].
    destruct (p <? 1) eqn:H2; [split; [now apply ltb_leb | exact Hp] |].
    change (PrimFloat.get_sign 1) with false. cbn iota. split; [| exact Hp].
    rewrite leb_ltb_eqb, H2, (not_ltb_eqb p 1 Hp eq_refl H2 H1). reflexivity. }
  destruct Hmin as [Hle Hq]. unfold clamped, JS.Math_max. rewrite Hq.
  change (PrimFloat.is_nan 0.1) with false. cbn [orb].
  destruct (0.1 <? JS.Math_min 1 p) eqn:H1; [split; [now apply ltb_leb | exact Hle] |].
  destruct (JS.Math_min 1 p <? 0.1); split; reflexivity.
Qed.

Lemma clamp_high (p : float) :
  (1 <? p) = true -> JS.Math_max 0.1 (JS.Math_min 1.0 p) = 1.
Proof.
  intros Hhigh. destruct (ltb_not_nan _ _ Hhigh) as [_ Hp].
  unfold JS.Math_max, JS.Math_min. rewrite Hp, Hhigh.
  change (PrimFloat.is_nan 1) with false. cbn [orb]. reflexivity.
Qed.

Lemma clamp_inside (p : float) :
  (0.1 <? p) = true -> (p <? 1) = true -> JS.Math_max 0.1 (JS.Math_min 1.0 p) = p.
Proof.
  intros Hlow Hhigh. destruct (ltb_not_nan _ _ Hlow) as [_ Hp].
  unfold JS.Math_max, JS.Math_min. rewrite Hp, (ltb_asym _ _ Hhigh), Hhigh.
  change (PrimFloat.is_nan 1) with false. cbn [orb].
  rewrite Hp. change (PrimFloat.is_nan 0.1) with false. cbn [orb].
  rewrite Hlow. reflexivity.
Qed.

Lemma clamp_low (p : float) :
  (p <? 0.1) = true -> JS.Math_max 0.1 (JS.Math_min 1.0 p) = 0.1.
Proof.
  intros Hlow. destruct (ltb_not_nan _ _ Hlow) as [Hp _].
  assert (H1 : (1 <? p) = false).
  { destruct (1 <? p) eqn:E; [| reflexivity].
    assert (Hc : JS.gtb 1 0.1 = true) by reflexivity.
    pose proof (gtb_asym _ _ (gtb_trans p 1 0.1 E Hc)) as Hn.
    unfold JS.gtb in Hn. congruence. }
  unfold JS.Math_max, JS.Math_min. rewrite Hp, H1.
  change (PrimFloat.is_nan 1) with false. cbn [orb].
  assert (Hq : (if p <? 1 then p else if PrimFloat.get_sign 1 then 1 else p) = p)
    by (destruct (p <? 1); reflexivity).
  rewrite Hq, Hp. change (PrimFloat.is_nan 0.1) with false. cbn [orb].
  rewrite (ltb_asym _ _ Hlow), Hlow. reflexivity.
Qed.

End Order.

(* ================================================================== *)
(** ** SmartAutoFire: the adaptive accuracy *)

Section TriggerAccuracy.

Import SmartAutoFire.
Local Open Scope float_scope.

(** X14.  [updateAccuracy(p)] clamps [p] to the range from 0.1 to 1: for
    every [p] that is not NaN the accuracy afterwards is at least 0.1 and at
    most 1; it is 0.1 when [p < 0.1], 1 when [p > 1], and [p] itself when [p]
    lies strictly between.  A NaN goes through: the accuracy becomes NaN.
    Nothing else of the trigger changes. *)
Theorem updateAccuracy_clamped (recentPerformance : float) (this : t) :
  let a := accuracy (updateAccuracy recentPerformance this) in
  (PrimFloat.is_nan recentPerformance = true -> PrimFloat.is_nan a = true) /\
  (PrimFloat.is_nan recentPerformance = false -> (0.1 <=? a) = true /\ (a <=? 1) = true) /\
  ((recentPerformance <? 0.1) = true -> a = 0.1) /\
  ((1 <? recentPerformance) = true -> a = 1) /\
  ((0.1 <? recentPerformance) = true -> (recentPerformance <? 1) = true ->
   a = recentPerformance) /\
  lastFireTime (updateAccuracy recentPerformance this) = lastFireTime this /\
  consecutiveHits (updateAccuracy recentPerformance this) = consecutiveHits this.
Proof.
  cbn zeta. unfold updateAccuracy. cbn [accuracy lastFireTime consecutiveHits].
  split; [apply clamp_nan |].
  split; [apply clamp_range |].
  split; [apply clamp_low |].
  split; [apply clamp_high |].
  split; [apply clamp_inside |].
  split; reflexivity.
Qed.

(** A hit rate of 0 is raised to 0.1, one of 0.5 is kept, and the
    constructor's 10 would be cut to 1. *)
Lemma updateAccuracy_clamped_witness :
  accuracy (updateAccuracy 0 (constructor EnhancedConfig)) = 0.1 /\
  accuracy (updateAccuracy 0.5 (constructor EnhancedConfig)) = 0.5 /\
  accuracy (updateAccuracy 10 (constructor EnhancedConfig)) = 1.
Proof.
  destruct (updateAccuracy_clamped 0 (constructor EnhancedConfig))
    as (_ & _ & Hlow & _).
  destruct (updateAccuracy_clamped 0.5 (constructor EnhancedConfig))
    as (_ & _ & _ & _ & Hin & _).
  destruct (updateAccuracy_clamped 10 (constructor EnhancedConfig))
    as (_ & _ & _ & Hhigh & _).
  split; [apply Hlow; reflexivity |].
  split; [apply Hin; reflexivity | apply Hhigh; reflexivity].
Defined.

End TriggerAccuracy.

(* ================================================================== *)
(** ** EnhancedAimLockEngine: the trigger through a tick *)

Section EngineTrigger.

Import EnhancedAimLockEngine.
Local Open Scope float_scope.

Lemma getHitRate_finite (e : t) : counted e -> PrimFloat.is_finite (getHitRate e) = true.
Proof.
  intros (m & n & _ & Hm & Hn). unfold getHitRate.
  destruct (JS.gtb (totalShots e) 0) eqn:Hgt; [| reflexivity].
  apply (counts_div_finite _ _ m n Hm Hn). exact (counts_gtb _ _ Hn Hgt).
Qed.

(** [fire] never changes the adaptive accuracy. *)
Lemma fire_accuracy (target : Target.t) (aimAccuracy : float) (this : SmartAutoFire.t)
    (w : JS.World) :
  SmartAutoFire.accuracy (snd (fst (SmartAutoFire.fire target aimAccuracy this w)))
  = SmartAutoFire.accuracy this.
Proof.
  unfold SmartAutoFire.fire, SmartAutoFire.canFire, JS.bind, JS.Date_now, JS.Math_random,
    JS.console_log, JS.ret.
  destruct (SmartAutoFire.gates _ _ _ _); [| reflexivity].
  cbn [negb]. destruct (_ <? _); reflexivity.
Qed.

(** What the phases of a tick leave alone. *)
Lemma select_autoFire (h : Heap) (this : t) (w : JS.World) :
  autoFire (snd (fst (select h this w))) = autoFire this /\
  config (snd (fst (select h this w))) = config this /\
  JS.random_draws (snd (select h this w)) = JS.random_draws w.
Proof.
  unfold select, PerformanceMonitor.startFrame, JS.bind, JS.Date_now, JS.ret.
  cbn [JS.clock JS.clock_reads JS.random JS.random_draws JS.console].
  match goal with
  | |- context [EnhancedTargetManager.getBestTarget ?c ?h ?m ?w] =>
      destruct (getBestTarget_world c h m w) as (Hd & _ & _);
      destruct (EnhancedTargetManager.getBestTarget c h m w) as [[[r hh] mm] w3]
  end.
  cbn [fst snd] in *. repeat split. exact Hd.
Qed.

Lemma update_world (m : float) (k : AdvancedKalmanFilter.t) (w : JS.World) :
  snd (AdvancedKalmanFilter.update m k w) =
  JS.mkWorld (JS.clock w) (S (JS.clock_reads w)) (JS.random w) (JS.random_draws w)
    (JS.console w).
Proof.
  unfold AdvancedKalmanFilter.update, JS.bind, JS.Date_now, JS.ret.
  cbn [AdvancedKalmanFilter.isInitialized]. destruct (negb _); reflexivity.
Qed.

Lemma aim_autoFire (target : Target.t) (currentTime deltaTime : float) (this : t)
    (w : JS.World) :
  autoFire (fst (aim target currentTime deltaTime this w)) = autoFire this /\
  config (fst (aim target currentTime deltaTime this w)) = config this /\
  JS.random_draws (snd (aim target currentTime deltaTime this w)) = JS.random_draws w.
Proof.
  unfold aim. unfold JS.bind, JS.ret.
  pose proof (update_world (Vector3.x (Target.position target)) (kalmanX this) w) as Hx.
  destruct (AdvancedKalmanFilter.update _ (kalmanX this) w) as [[fx kx] wx].
  pose proof (update_world (Vector3.y (Target.position target)) (kalmanY this) wx) as Hy.
  destruct (AdvancedKalmanFilter.update _ (kalmanY this) wx) as [[fy ky] wy].
  pose proof (update_world (Vector3.z (Target.position target)) (kalmanZ this) wy) as Hz.
  destruct (AdvancedKalmanFilter.update _ (kalmanZ this) wy) as [[fz kz] wz].
  cbn [snd] in Hx, Hy, Hz. subst wx wy wz.
  split_pairs. repeat split.
Qed.

Lemma aim_lockDuration (target : Target.t) (currentTime deltaTime : float) (this : t)
    (w : JS.World) :
  let e1 := fst (aim target currentTime deltaTime this w) in
  lockDuration e1 =
  if JS.gtb (currentAccuracy e1) 0.8 then lockDuration this + deltaTime else 0.
Proof. cbn zeta. unfold aim, JS.bind, JS.ret. split_pairs. reflexivity. Qed.

Lemma aim_currentAccuracy (target : Target.t) (currentTime deltaTime : float) (this : t)
    (w : JS.World) :
  (currentAccuracy (fst (aim target currentTime deltaTime this w)) <? 0) = false.
Proof. unfold aim, JS.bind, JS.ret. split_pairs. apply Math_max_zero. Qed.

Lemma autoFireLogic_accuracy (target : Target.t) (this : t) (w : JS.World) :
  SmartAutoFire.accuracy (autoFire (fst (autoFireLogic target this w)))
  = SmartAutoFire.accuracy (autoFire this).
Proof.
  unfold autoFireLogic. destruct (firesOnLock this); [| reflexivity].
  unfold JS.bind, JS.ret.
  pose proof (fire_accuracy target (currentAccuracy this) (autoFire this) w) as Hacc.
  destruct (SmartAutoFire.fire _ _ _ w) as [[fired af] w1]. cbn [fst snd] in Hacc.
  split_pairs. exact Hacc.
Qed.

Lemma finish_autoFire (currentTime deltaTime : float) (this : t) (w : JS.World) :
  autoFire (fst (finish currentTime deltaTime this w))
  = SmartAutoFire.updateAccuracy (getHitRate this) (autoFire this) /\
  lockDuration (fst (finish currentTime deltaTime this w)) = lockDuration this /\
  JS.random_draws (snd (finish currentTime deltaTime this w)) = JS.random_draws w.
Proof.
  unfold finish, logStatus, PerformanceMonitor.endFrame, JS.bind, JS.Date_now,
    JS.console_log, JS.ret.
  destruct (JS.rem currentTime 1000 <? 16);
    cbn [JS.clock JS.clock_reads JS.random JS.random_draws JS.console performance];
    match goal with |- context [if ?c then _ else _] => destruct c end; repeat split.
Qed.

(** A tick of a run that selects a target leaves the accuracy clamped. *)
Lemma tick_clamped (h : Heap) (this : t) (w : JS.World) (l : loc)
    (currentTime deltaTime : float) (h1 : Heap) (e0 : t) (w0 : JS.World) :
  reachable this ->
  select h this w = (Some l, currentTime, deltaTime, h1, e0, w0) ->
  clamped (SmartAutoFire.accuracy (autoFire (snd (fst (updateAimLock h this w))))).
Proof.
  intros Hreach Hsel.
  pose proof (updateAimLock_selected h this w l _ _ _ _ _ Hsel) as Hrun.
  assert (H0 : reachable e0).
  { pose proof (reach_select h this w Hreach) as H0. now rewrite Hsel in H0. }
  pose proof (reach_aim (deref h1 l) currentTime deltaTime e0 w0 H0) as H1.
  destruct (aim (deref h1 l) currentTime deltaTime e0 w0) as [e1 w1].
  pose proof (reach_autoFireLogic (deref h1 l) e1 w1 H1) as H2.
  destruct (autoFireLogic (deref h1 l) e1 w1) as [e2 w2].
  destruct (finish_autoFire currentTime deltaTime e2 w2) as (Haf & _).
  destruct (finish currentTime deltaTime e2 w2) as [e3 w3].
  rewrite Hrun. cbn [fst snd] in *. rewrite Haf.
  apply clamp_range, is_finite_not_nan, getHitRate_finite, reachable_counted, H2.
Qed.

Lemma updateAimLock_calibrated (h : Heap) (this : t) (w : JS.World) :
  reachable this -> calibrated this -> calibrated (snd (fst (updateAimLock h this w))).
Proof.
  intros Hreach Hcal.
  destruct (select_autoFire h this w) as (Haf & _).
  destruct (select h this w) as [[[[[target currentTime] deltaTime] h1] e0] w0] eqn:Hsel.
  destruct target as [l |].
  - right. exact (tick_clamped h this w l _ _ _ _ _ Hreach Hsel).
  - unfold updateAimLock, JS.bind at 1. rewrite Hsel.
    unfold resetTracking, AdvancedKalmanFilter.reset, JS.bind, JS.Date_now, JS.ret.
    destruct (PerformanceMonitor.endFrame _ _) as [pm w2]. cbn [fst snd] in *.
    unfold calibrated in *. cbn [autoFire]. now rewrite Haf.
Qed.

Lemma reachable_calibrated (e : t) : reachable e -> calibrated e.
Proof.
  intros Hreach.
  induction Hreach as [config w | x y z priority type h e w Hr IH | e w _ IH
                      | e w _ IH | h e w Hr IH | h e w _ IH
                      | target currentTime deltaTime e w _ IH | target e w _ IH].
  - left. unfold constructor, JS.bind, JS.ret. split_pairs. reflexivity.
  - unfold addTarget, JS.bind, JS.ret. split_pairs. exact IH.
  - exact IH.
  - unfold resetTracking, JS.bind, JS.ret. split_pairs. exact IH.
  - now apply updateAimLock_calibrated.
  - unfold calibrated. destruct (select_autoFire h e w) as (-> & _). exact IH.
  - unfold calibrated. destruct (aim_autoFire target currentTime deltaTime e w) as (-> & _).
    exact IH.
  - unfold calibrated. rewrite autoFireLogic_accuracy. exact IH.
Qed.

(** X15.  In every state of a run the trigger's adaptive accuracy is the
    constructor's 10 or a number from 0.1 to 1, never NaN; and every tick
    that selects a target leaves it from 0.1 to 1, because the hit rate it is
    computed from is a finite number. *)
Theorem accuracy_calibrated (this : t) :
  reachable this ->
  calibrated this /\
  (forall h w l currentTime deltaTime h1 e0 w0,
     select h this w = (Some l, currentTime, deltaTime, h1, e0, w0) ->
     clamped (SmartAutoFire.accuracy (autoFire (snd (fst (updateAimLock h this w)))))).
Proof.
  intros Hreach. split; [now apply reachable_calibrated |].
  intros h w l currentTime deltaTime h1 e0 w0. now apply tick_clamped.
Qed.

Lemma accuracy_calibrated_witness :
  calibrated (snd (fst Run.lucky_tick2)).
Proof. exact (proj1 (accuracy_calibrated _ lucky_tick2_reachable)). Defined.

(** X16.  The alignment quality computed by a tick is never below zero, and
    the lock duration grows by the elapsed time exactly when that quality is
    above 0.8; otherwise, a NaN quality included, it falls back to 0. *)
Theorem aim_quality (target : Target.t) (currentTime deltaTime : float) (this : t)
    (w : JS.World) :
  let e1 := fst (aim target currentTime deltaTime this w) in
  (currentAccuracy e1 <? 0) = false /\
  (JS.gtb (currentAccuracy e1) 0.8 = true ->
   lockDuration e1 = lockDuration this + deltaTime) /\
  (JS.gtb (currentAccuracy e1) 0.8 = false -> lockDuration e1 = 0) /\
  (PrimFloat.is_nan (currentAccuracy e1) = true -> lockDuration e1 = 0).
Proof.
  cbn zeta. split; [apply aim_currentAccuracy |].
  rewrite aim_lockDuration.
  destruct (JS.gtb (currentAccuracy (fst (aim target currentTime deltaTime this w))) 0.8)
    eqn:Hq.
  - repeat split; try discriminate.
    intros Hnan. destruct (ltb_not_nan _ _ Hq) as [_ Hn]. congruence.
  - repeat split. discriminate.
Qed.

(** The first tick of the engine run: camera and target are both at the
    origin, the quality is 1 and the lock duration grows by the time that
    passed since [start]. *)
Lemma aim_quality_witness :
  lockDuration
    (fst (aim (deref (snd (fst (fst (Run.select_of Run.started)))) 0%nat)
            (snd (fst (fst (fst (fst (Run.select_of Run.started))))))
            (snd (fst (fst (fst (Run.select_of Run.started)))))
            (snd (fst (Run.select_of Run.started)))
            (snd (Run.select_of Run.started))))
  = lockDuration (snd (fst (Run.select_of Run.started)))
    + snd (fst (fst (fst (Run.select_of Run.started)))).
Proof.
  apply (aim_quality (deref (snd (fst (fst (Run.select_of Run.started)))) 0%nat)
           (snd (fst (fst (fst (fst (Run.select_of Run.started))))))
           (snd (fst (fst (fst (Run.select_of Run.started)))))
           (snd (fst (Run.select_of Run.started)))
           (snd (Run.select_of Run.started))).
  vm_compute. reflexivity.
Defined.

(** X17.  No lock, no shot: on a tick that selects a target and computes a
    quality that is not above 0.8, with a minimum lock time that is not
    negative, [fire] is not called: the lock duration is 0, both counters,
    [lastFireTime] and [consecutiveHits] are as before the tick, and no random
    number is drawn. *)
Theorem updateAimLock_no_lock (h : Heap) (this : t) (w : JS.World) (l : loc)
    (currentTime deltaTime : float) (h1 : Heap) (e0 e1 : t) (w0 w1 : JS.World) :
  select h this w = (Some l, currentTime, deltaTime, h1, e0, w0) ->
  aim (deref h1 l) currentTime deltaTime e0 w0 = (e1, w1) ->
  JS.gtb (currentAccuracy e1) 0.8 = false ->
  (Config.minLockTime (config this) <? 0) = false ->
  let e' := snd (fst (updateAimLock h this w)) in
  lockDuration e' = 0 /\
  totalShots e' = totalShots this /\
  totalHits e' = totalHits this /\
  SmartAutoFire.lastFireTime (autoFire e') = SmartAutoFire.lastFireTime (autoFire this) /\
  SmartAutoFire.consecutiveHits (autoFire e')
    = SmartAutoFire.consecutiveHits (autoFire this) /\
  JS.random_draws (snd (updateAimLock h this w)) = JS.random_draws w.
Proof.
  intros Hsel Haim Hacc Hmin. cbn zeta.
  pose proof (updateAimLock_selected h this w l _ _ _ _ _ Hsel) as Hrun.
  destruct (select_autoFire h this w) as (Haf0 & Hcfg0 & Hd0).
  destruct (select_counters h this w) as [Hs0 Hh0].
  rewrite Hsel in Haf0, Hcfg0, Hd0, Hs0, Hh0. cbn [fst snd] in Haf0, Hcfg0, Hd0, Hs0, Hh0.
  destruct (aim_autoFire (deref h1 l) currentTime deltaTime e0 w0) as (Haf1 & Hcfg1 & Hd1).
  destruct (aim_counters (deref h1 l) currentTime deltaTime e0 w0) as [Hs1 Hh1].
  pose proof (aim_lockDuration (deref h1 l) currentTime deltaTime e0 w0) as Hlock.
  cbn zeta in Hlock.
  rewrite Haim in Hrun, Haf1, Hcfg1, Hd1, Hs1, Hh1, Hlock.
  cbn [fst snd] in Haf1, Hcfg1, Hd1, Hs1, Hh1, Hlock.
  rewrite Hacc in Hlock.
  assert (Hidle : firesOnLock e1 = false).
  { unfold firesOnLock, JS.gtb. rewrite Hlock, Hcfg1, Hcfg0, Hmin. apply andb_false_r. }
  rewrite (autoFireLogic_idle _ _ _ Hidle) in Hrun.
  destruct (finish_autoFire currentTime deltaTime e1 w1) as (Haf3 & Hl3 & Hd3).
  destruct (finish_counters currentTime deltaTime e1 w1) as (Hs3 & Hh3 & _).
  destruct (finish currentTime deltaTime e1 w1) as [e3 w3].
  rewrite Hrun. cbn [fst snd] in *.
  rewrite Hl3, Hs3, Hh3, Haf3, Hd3. unfold SmartAutoFire.updateAccuracy.
  cbn [SmartAutoFire.lastFireTime SmartAutoFire.consecutiveHits].
  repeat split; congruence.
Qed.

(** The target ten units away from the camera: after the small step of the
    first tick the quality is 0, and nothing is fired. *)
Lemma updateAimLock_no_lock_witness :
  currentAccuracy (fst (Run.aimed_of Scenario.far_started)) = 0 /\
  SmartAutoFire.lastFireTime
    (autoFire (snd (fst (updateAimLock (fst (fst Scenario.far_started))
                           (snd (fst Scenario.far_started)) (snd Scenario.far_started)))))
  = SmartAutoFire.lastFireTime (autoFire (snd (fst Scenario.far_started))) /\
  JS.random_draws (snd (updateAimLock (fst (fst Scenario.far_started))
                          (snd (fst Scenario.far_started)) (snd Scenario.far_started)))
  = JS.random_draws (snd Scenario.far_started).
Proof.
  split; [vm_compute; reflexivity |].
  destruct (updateAimLock_no_lock
              (fst (fst Scenario.far_started)) (snd (fst Scenario.far_started))
              (snd Scenario.far_started) 0%nat
              (snd (fst (fst (fst (fst (Run.select_of Scenario.far_started))))))
              (snd (fst (fst (fst (Run.select_of Scenario.far_started)))))
              (snd (fst (fst (Run.select_of Scenario.far_started))))
              (snd (fst (Run.select_of Scenario.far_started)))
              (fst (Run.aimed_of Scenario.far_started))
              (snd (Run.select_of Scenario.far_started))
              (snd (Run.aimed_of Scenario.far_started)))
    as (_ & _ & _ & Hfire & _ & Hdraws); [vm_compute; reflexivity.. |].
  split; [exact Hfire | exact Hdraws].
Defined.

End EngineTrigger.

(* ================================================================== *)
(** ** Arithmetic of binary64 numbers: symmetry, commutativity, zeros *)

Section Arithmetic.

Local Open Scope float_scope.

Lemma SFmul_comm (x y : spec_float) : SFmul prec emax x y = SFmul prec emax y x.
Proof.
  destruct x as [sx|sx| |sx mx ex], y as [sy|sy| |sy my ey]; cbn [SFmul];
    rewrite ?(xorb_comm sy sx); try reflexivity.
  now rewrite (Pos.mul_comm my mx), (Z.add_comm ey ex).
Qed.

Lemma SFadd_comm (x y : spec_float) : SFadd prec emax x y = SFadd prec emax y x.
Proof.
  destruct x as [sx|sx| |sx mx ex], y as [sy|sy| |sy my ey]; cbn [SFadd];
    try reflexivity; try (destruct sx, sy; reflexivity).
  now rewrite (Z.min_comm ey ex), Z.add_comm.
Qed.

Lemma mul_comm (a b : float) : a * b = b * a.
Proof. apply FloatAxioms.Prim2SF_inj. rewrite !FloatAxioms.mul_spec. apply SFmul_comm. Qed.

Lemma add_comm (a b : float) : a + b = b + a.
Proof. apply FloatAxioms.Prim2SF_inj. rewrite !FloatAxioms.add_spec. apply SFadd_comm. Qed.

(** Rounding does not look at the sign. *)
Lemma binary_round_aux_abs (s s' : bool) (m e : Z) (l : location) :
  SFabs (binary_round_aux prec emax s m e l) = SFabs (binary_round_aux prec emax s' m e l).
Proof.
  unfold binary_round_aux.
  destruct (shr_fexp prec emax m e l) as [mrs' e'].
  destruct (shr_fexp prec emax _ e' loc_Exact) as [mrs'' e''].
  destruct (shr_m mrs''); try reflexivity.
  destruct (Z.leb e'' (emax - prec)); reflexivity.
Qed.

Lemma binary_normalize_abs (m e : Z) :
  SFabs (binary_normalize prec emax (- m) e false) = SFabs (binary_normalize prec emax m e false).
Proof.
  destruct m as [| p | p]; unfold Z.opp, binary_normalize; try reflexivity;
    unfold binary_round; destruct (shl_align _ _ _) as [mz ez]; apply binary_round_aux_abs.
Qed.

(** [|x - y|] and [|y - x|] are the same number. *)
Lemma SFsub_abs (x y : spec_float) :
  SFabs (SFsub prec emax x y) = SFabs (SFsub prec emax y x).
Proof.
  destruct x as [sx|sx| |sx mx ex], y as [sy|sy| |sy my ey]; cbn [SFsub];
    try reflexivity; try (destruct sx, sy; reflexivity).
  rewrite (Z.min_comm ey ex), <- binary_normalize_abs. f_equal. f_equal. lia.
Qed.

(** Numbers that differ at most in sign have the same square. *)
Lemma SFmul_square (u v : spec_float) :
  SFabs u = SFabs v -> SFmul prec emax u u = SFmul prec emax v v.
Proof.
  destruct u as [su|su| |su mu eu], v as [sv|sv| |sv mv ev]; cbn [SFabs SFmul];
    try discriminate; try reflexivity; intros H;
    try (destruct su, sv; reflexivity).
  injection H as -> ->. destruct su, sv; reflexivity.
Qed.

Lemma sub_abs (a b : float) : PrimFloat.abs (a - b) = PrimFloat.abs (b - a).
Proof.
  apply FloatAxioms.Prim2SF_inj. rewrite !FloatAxioms.abs_spec, !FloatAxioms.sub_spec.
  apply SFsub_abs.
Qed.

Lemma sub_square (a b : float) : (a - b) * (a - b) = (b - a) * (b - a).
Proof.
  apply FloatAxioms.Prim2SF_inj. rewrite !FloatAxioms.mul_spec, !FloatAxioms.sub_spec.
  apply SFmul_square, SFsub_abs.
Qed.

Lemma SF_is_finite_of (x : float) :
  PrimFloat.is_finite x = true -> Binary64.SF_is_finite (Prim2SF x) = true.
Proof.
  unfold PrimFloat.is_finite, PrimFloat.is_nan, PrimFloat.is_infinity.
  rewrite !FloatAxioms.eqb_spec, FloatAxioms.abs_spec.
  change (Prim2SF infinity) with (S754_infinity false).
  destruct (Prim2SF x) as [s|s| |s m e]; try reflexivity; cbn; try discriminate.
  destruct s; discriminate.
Qed.

Lemma is_zero_SF (x : float) : PrimFloat.is_zero x = SF_is_zero (Prim2SF x).
Proof.
  unfold PrimFloat.is_zero. rewrite FloatAxioms.eqb_spec.
  change (Prim2SF zero) with (S754_zero false).
  destruct (Prim2SF x) as [s|s| |s m e]; try reflexivity; destruct s; reflexivity.
Qed.

Lemma binary_round_aux_nonneg (m e : Z) (l : location) :
  SFltb (binary_round_aux prec emax false m e l) (S754_zero false) = false.
Proof.
  unfold binary_round_aux.
  destruct (shr_fexp prec emax m e l) as [mrs' e'].
  destruct (shr_fexp prec emax _ e' loc_Exact) as [mrs'' e''].
  destruct (shr_m mrs''); try reflexivity.
  destruct (Z.leb e'' (emax - prec)); reflexivity.
Qed.

(** A square root is never below zero. *)
Lemma sqrt_nonneg (x : float) : (JS.Math_sqrt x <? 0) = false.
Proof.
  unfold JS.Math_sqrt. rewrite FloatAxioms.ltb_spec, FloatAxioms.sqrt_spec.
  change (Prim2SF 0) with (S754_zero false). unfold SF64sqrt, SFsqrt.
  destruct (Prim2SF x) as [s|s| |s m e]; try (destruct s; reflexivity); try reflexivity.
  destruct s; [reflexivity |].
  destruct (SFsqrt_core_binary prec emax (Z.pos m) e) as [[mz ez] lz].
  apply binary_round_aux_nonneg.
Qed.

(** A finite number minus itself is [+0]. *)
Lemma sub_diag (x : float) : PrimFloat.is_finite x = true -> x - x = 0.
Proof.
  intros Hfin. apply SF_is_finite_of in Hfin.
  apply FloatAxioms.Prim2SF_inj. rewrite FloatAxioms.sub_spec.
  change (Prim2SF 0) with (S754_zero false). unfold SF64sub.
  destruct (Prim2SF x) as [s|s| |s m e]; try discriminate.
  - destruct s; reflexivity.
  - cbn [SFsub]. rewrite Z.sub_diag. reflexivity.
Qed.

(** Zeros through the four operations. *)
Lemma div_zero (a s : float) :
  PrimFloat.is_zero a = true -> (0 <? s) = true -> PrimFloat.is_zero (a / s) = true.
Proof.
  rewrite !is_zero_SF, FloatAxioms.ltb_spec, FloatAxioms.div_spec.
  change (Prim2SF 0) with (S754_zero false).
  destruct (Prim2SF a) as [sa|sa| |sa ma ea]; try discriminate; intros _.
  destruct (Prim2SF s) as [ss|ss| |ss ms es]; try discriminate; try reflexivity.
Qed.

Lemma mul_zero (a b : float) :
  PrimFloat.is_zero a = true -> PrimFloat.is_finite b = true ->
  PrimFloat.is_zero (a * b) = true.
Proof.
  rewrite !is_zero_SF, FloatAxioms.mul_spec. intros Ha Hb. apply SF_is_finite_of in Hb.
  destruct (Prim2SF a) as [sa|sa| |sa ma ea]; try discriminate.
  destruct (Prim2SF b) as [sb|sb| |sb mb eb]; try discriminate; reflexivity.
Qed.

Lemma add_zero (a b : float) :
  PrimFloat.is_zero a = true -> PrimFloat.is_zero b = true ->
  PrimFloat.is_zero (a + b) = true.
Proof.
  rewrite !is_zero_SF, FloatAxioms.add_spec.
  destruct (Prim2SF a) as [sa|sa| |sa ma ea]; try discriminate.
  destruct (Prim2SF b) as [sb|sb| |sb mb eb]; try discriminate.
  destruct sa, sb; reflexivity.
Qed.

Lemma sub_zero (a b : float) :
  PrimFloat.is_zero a = true -> PrimFloat.is_zero b = true ->
  PrimFloat.is_zero (a - b) = true.
Proof.
  rewrite !is_zero_SF, FloatAxioms.sub_spec.
  destruct (Prim2SF a) as [sa|sa| |sa ma ea]; try discriminate.
  destruct (Prim2SF b) as [sb|sb| |sb mb eb]; try discriminate.
  destruct sa, sb; reflexivity.
Qed.

End Arithmetic.

(* ================================================================== *)
(** ** Vector3: distances, sums and products *)

Section Vectors.

Import Vector3.
Local Open Scope float_scope.

(** X18.  [distanceTo] and [equals] do not depend on the order of the two
    vectors, bit for bit; a distance and a length are never below zero; and
    a vector with finite components is at distance 0 from itself and
    [equals] itself for every tolerance above 0. *)
Theorem distanceTo_metric (u v : t) (tolerance : float) :
  distanceTo u v = distanceTo v u /\
  equals u v tolerance = equals v u tolerance /\
  (distanceTo u v <? 0) = false /\
  (length u <? 0) = false /\
  (PrimFloat.is_finite (x u) = true -> PrimFloat.is_finite (y u) = true ->
   PrimFloat.is_finite (z u) = true ->
   distanceTo u u = 0 /\
   ((0 <? tolerance) = true -> equals u u tolerance = true)).
Proof.
  split; [| split; [| split; [| split]]].
  - unfold distanceTo.
    now rewrite (sub_square (x u)), (sub_square (y u)), (sub_square (z u)).
  - unfold equals, JS.Math_abs.
    now rewrite (sub_abs (x u)), (sub_abs (y u)), (sub_abs (z u)).
  - apply sqrt_nonneg.
  - apply sqrt_nonneg.
  - intros Hx Hy Hz. unfold distanceTo, equals, JS.Math_abs.
    rewrite (sub_diag _ Hx), (sub_diag _ Hy), (sub_diag _ Hz).
    split; [reflexivity |].
    intros Htol. change (PrimFloat.abs 0) with 0. now rewrite Htol.
Qed.

Lemma distanceTo_metric_witness :
  distanceTo (new 1 2 3) (new 1 2 3) = 0 /\
  equals (new 1 2 3) (new 1 2 3) default_tolerance = true.
Proof.
  destruct (distanceTo_metric (new 1 2 3) (new 1 2 3) default_tolerance)
    as (_ & _ & _ & _ & Hself).
  destruct Hself as [Hzero Heq]; [reflexivity.. |].
  split; [exact Hzero | apply Heq; reflexivity].
Defined.

(** X19.  [add] and [dot] are commutative, bit for bit: binary64 addition
    and multiplication are, and [dot] adds its three products in the same
    order either way. *)
Theorem add_dot_commutative (u v : t) :
  add u v = add v u /\ dot u v = dot v u.
Proof.
  unfold add, dot. split.
  - now rewrite (add_comm (x u)), (add_comm (y u)), (add_comm (z u)).
  - now rewrite (mul_comm (x u)), (mul_comm (y u)), (mul_comm (z u)).
Qed.

End Vectors.

(* ================================================================== *)
(** ** AdvancedKalmanFilter: the velocity is never estimated *)

Section KalmanVelocity.

Import AdvancedKalmanFilter.
Local Open Scope float_scope.

(** X20.  The filter never learns a velocity.  A new or reset filter has
    velocity 0 and P10 = 0; [predict] and the first [update] keep both; and
    every later [update] keeps both zero as long as its numbers stay in
    range: the gain of the velocity is [P10 / S], a zero, so the velocity and
    P10 receive zero corrections.  In range means: the innovation variance
    [S = P00' + R] is above zero, and the predicted variance [P00'] and the
    residual are finite. *)
Theorem velocity_never_estimated (m r q noise dt : float) (k : t) (w : JS.World) :
  velocity_blind (fst (constructor r q noise w)) /\
  velocity_blind (fst (reset k w)) /\
  (velocity_blind k -> velocity_blind (predict dt k)) /\
  (velocity_blind k -> isInitialized k = false ->
   velocity_blind (snd (fst (update m k w)))) /\
  (let now := JS.clock w (JS.clock_reads w) in
   let elapsed := (now - lastTime k) / 1000 in
   let P00' := P00 k + elapsed * P10 k + processNoise k in
   let residual := m - (position k + velocity k * elapsed) in
   velocity_blind k ->
   isInitialized k = true ->
   (0 <? P00' + R k) = true ->
   PrimFloat.is_finite P00' = true ->
   PrimFloat.is_finite residual = true ->
   velocity_blind (snd (fst (update m k w))) /\
   PrimFloat.is_zero (getVelocity (snd (fst (update m k w)))) = true).
Proof.
  split; [split; reflexivity |]. split; [split; reflexivity |].
  split; [| split].
  - intros [Hv Hp]. unfold velocity_blind, predict.
    destruct (negb (isInitialized k)); [now split |]. now split.
  - intros [Hv Hp] Hinit. unfold velocity_blind, update, JS.bind, JS.Date_now, JS.ret.
    cbn [isInitialized]. rewrite Hinit. cbn. split; [reflexivity | exact Hp].
  - destruct k as [R0 Q0 pn [pos vel] [[p00 p01] [p10 p11]] init last].
    unfold velocity_blind, getVelocity, update, predict, JS.bind, JS.Date_now, JS.ret,
      position, velocity, P00, P01, P10, P11.
    cbn [fst snd state covariance isInitialized lastTime R Q processNoise].
    intros [Hv Hp] -> HS Hfin Hres.
    cbn [negb fst snd state covariance isInitialized lastTime R Q processNoise].
    pose proof (div_zero _ _ Hp HS) as HK.
    pose proof (add_zero _ _ Hv (mul_zero _ _ HK Hres)) as Hvel.
    repeat split; try exact Hvel.
    apply sub_zero; [exact Hp |]. apply mul_zero; [exact HK | exact Hfin].
Qed.

(** The filter fed 5 and then, 2 ms later, 7: the estimate moves towards 7
    and the velocity still reads 0. *)
Lemma velocity_never_estimated_witness :
  velocity_blind (snd (fst (update 7 (snd (fst Scenario.kalman_first))
                              (snd Scenario.kalman_first)))) /\
  PrimFloat.is_zero
    (getVelocity (snd (fst (update 7 (snd (fst Scenario.kalman_first))
                              (snd Scenario.kalman_first))))) = true.
Proof.
  destruct (velocity_never_estimated 7 0 0 0 0 (snd (fst Scenario.kalman_first))
              (snd Scenario.kalman_first)) as (_ & _ & _ & _ & Hstep).
  apply Hstep; try (vm_compute; reflexivity).
  split; vm_compute; reflexivity.
Defined.

End KalmanVelocity.

(* ================================================================== *)
(** ** EnhancedAimLockEngine: the camera, the targets and the frame *)

Section EngineTick.

Import EnhancedAimLockEngine.
Local Open Scope float_scope.

(** What is below a number that is not below zero leaves that number above zero. *)
Lemma nonneg_ltb_pos (d s : float) :
  (d <? 0) = false -> (d <? s) = true -> (0 <? s) = true.
Proof.
  rewrite !FloatAxioms.ltb_spec. change (Prim2SF 0) with (S754_zero false).
  unfold SFltb, SFcompare.
  destruct (Prim2SF d) as [sd|sd| |sd md ed], (Prim2SF s) as [ss|ss| |ss ms es];
    repeat match goal with b : bool |- _ => destruct b end;
    try discriminate; try reflexivity.
Qed.

Lemma one_minus_zero_div (s : float) : (0 <? s) = true -> 1 - 0 / s = 1.
Proof.
  intros Hs. apply FloatAxioms.Prim2SF_inj.
  rewrite FloatAxioms.sub_spec, FloatAxioms.div_spec.
  rewrite FloatAxioms.ltb_spec in Hs. revert Hs.
  change (Prim2SF 0) with (S754_zero false).
  destruct (Prim2SF s) as [ss|ss| |ss ms es]; try (destruct ss); try discriminate;
    intros _; vm_compute; reflexivity.
Qed.

Lemma aim_dragLock (target : Target.t) (currentTime deltaTime : float) (this : t)
    (w : JS.World) :
  let p := finalTarget target currentTime this w in
  let r := EnhancedDragLock.applyDragLock (EnhancedCamera.position (camera this)) p
             deltaTime (dragLock this) in
  let e1 := fst (aim target currentTime deltaTime this w) in
  EnhancedCamera.position (camera e1) = fst r /\
  dragLock e1 = snd r /\
  currentAccuracy e1 =
    JS.Math_max 0 (1 - Vector3.distanceTo (fst r) p / Config.snapThreshold (config this)).
Proof.
  cbn zeta. unfold aim, finalTarget, JS.bind, JS.ret.
  destruct (AdvancedKalmanFilter.update _ (kalmanX this) w) as [[fx kx] wx].
  destruct (AdvancedKalmanFilter.update _ (kalmanY this) wx) as [[fy ky] wy].
  destruct (AdvancedKalmanFilter.update _ (kalmanZ this) wy) as [[fz kz] wz].
  cbn [fst snd].
  destruct (EnhancedDragLock.applyDragLock _ _ _ _) as [newPos dl].
  cbn [fst snd camera dragLock currentAccuracy EnhancedCamera.setPosition
       EnhancedCamera.position].
  rewrite clone_id. repeat split.
Qed.

Lemma applyDragLock_snap (cur tgt : Vector3.t) (dt : float) (this : EnhancedDragLock.t) :
  let delta := Vector3.subtract tgt cur in
  let distance := Vector3.length delta in
  let v := Vector3.lerp (EnhancedDragLock.velocity this)
             (Vector3.multiply delta (EnhancedDragLock.force this distance))
             (Config.smoothingFactor (EnhancedDragLock.config this)) in
  EnhancedDragLock.snaps this distance v = true ->
  fst (EnhancedDragLock.applyDragLock cur tgt dt this) = tgt.
Proof.
  cbn zeta. intros Hsnap. unfold EnhancedDragLock.applyDragLock.
  cbn [EnhancedDragLock.config EnhancedDragLock.velocity].
  unfold EnhancedDragLock.snaps in *. cbn [EnhancedDragLock.config].
  unfold EnhancedDragLock.force in *. cbn [EnhancedDragLock.config].
  now rewrite Hsnap.
Qed.

(** X21.  When the drag lock snaps onto an aim point with finite
    coordinates, the camera lands exactly on that point, the quality of the
    tick is exactly 1 and the lock duration grows by the elapsed time.  (The
    drag lock holds the engine's configuration, as the constructor makes
    it.) *)
Theorem aim_snap (target : Target.t) (currentTime deltaTime : float) (this : t)
    (w : JS.World) :
  let p := finalTarget target currentTime this w in
  let delta := Vector3.subtract p (EnhancedCamera.position (camera this)) in
  let distance := Vector3.length delta in
  let v := Vector3.lerp (EnhancedDragLock.velocity (dragLock this))
             (Vector3.multiply delta (EnhancedDragLock.force (dragLock this) distance))
             (Config.smoothingFactor (EnhancedDragLock.config (dragLock this))) in
  let e1 := fst (aim target currentTime deltaTime this w) in
  EnhancedDragLock.config (dragLock this) = config this ->
  EnhancedDragLock.snaps (dragLock this) distance v = true ->
  PrimFloat.is_finite (Vector3.x p) = true ->
  PrimFloat.is_finite (Vector3.y p) = true ->
  PrimFloat.is_finite (Vector3.z p) = true ->
  EnhancedCamera.position (camera e1) = p /\
  currentAccuracy e1 = 1 /\
  lockDuration e1 = lockDuration this + deltaTime.
Proof.
  cbn zeta. intros Hcfg Hsnap Hx Hy Hz.
  destruct (aim_dragLock target currentTime deltaTime this w) as (Hcam & _ & Hacc).
  pose proof (aim_lockDuration target currentTime deltaTime this w) as Hlock.
  cbn zeta in Hlock.
  rewrite (applyDragLock_snap _ _ _ _ Hsnap) in Hcam, Hacc.
  assert (Hpos : (0 <? Config.snapThreshold (config this)) = true).
  { unfold EnhancedDragLock.snaps in Hsnap. rewrite Hcfg in Hsnap.
    apply andb_prop in Hsnap. destruct Hsnap as [Hsnap _].
    apply andb_prop in Hsnap. destruct Hsnap as [Hd _].
    exact (nonneg_ltb_pos _ _ (sqrt_nonneg _) Hd). }
  assert (Hself : Vector3.distanceTo (finalTarget target currentTime this w)
                    (finalTarget target currentTime this w) = 0).
  { unfold Vector3.distanceTo.
    now rewrite (sub_diag _ Hx), (sub_diag _ Hy), (sub_diag _ Hz). }
  rewrite Hself, (one_minus_zero_div _ Hpos) in Hacc.
  change (JS.Math_max 0 1) with 1 in Hacc.
  rewrite Hacc in Hlock. change (JS.gtb 1 0.8) with true in Hlock.
  repeat split; assumption.
Qed.

(** The first tick of the engine run: camera and target are both at the
    origin, the drag lock snaps, the quality is 1. *)
Lemma aim_snap_witness :
  currentAccuracy
    (fst (aim (deref (snd (fst (fst (Run.select_of Run.started)))) 0%nat)
            (snd (fst (fst (fst (fst (Run.select_of Run.started))))))
            (snd (fst (fst (fst (Run.select_of Run.started)))))
            (snd (fst (Run.select_of Run.started)))
            (snd (Run.select_of Run.started))))
  = 1.
Proof.
  destruct (aim_snap (deref (snd (fst (fst (Run.select_of Run.started)))) 0%nat)
              (snd (fst (fst (fst (fst (Run.select_of Run.started))))))
              (snd (fst (fst (fst (Run.select_of Run.started)))))
              (snd (fst (Run.select_of Run.started)))
              (snd (Run.select_of Run.started)))
    as (_ & Hacc & _); [vm_compute; reflexivity.. |].
  exact Hacc.
Defined.

Lemma set_distance_same (o : Target.t) : Target.set_distance (Target.distance o) o = o.
Proof. now destruct o. Qed.

(** [getBestTarget] keeps the list of targets and the configuration, and
    writes nothing but distances. *)
Lemma getBestTarget_frame (cameraPos : Vector3.t) (h : Heap)
    (m : EnhancedTargetManager.t) (w : JS.World) :
  let r := fst (EnhancedTargetManager.getBestTarget cameraPos h m w) in
  EnhancedTargetManager.targets (snd r) = EnhancedTargetManager.targets m /\
  EnhancedTargetManager.config (snd r) = EnhancedTargetManager.config m /\
  forall l, exists d, deref (snd (fst r)) l = Target.set_distance d (deref h l).
Proof.
  cbn zeta.
  destruct (List.filter
              (fun l => EnhancedTargetManager.isValid m (JS.clock w (JS.clock_reads w))
                          (deref h l))
              (EnhancedTargetManager.targets m)) as [| first rest] eqn:Hvalid.
  - rewrite (getBestTarget_no_valid cameraPos h m w Hvalid). cbn [fst snd].
    repeat split. intros l. exists (Target.distance (deref h l)).
    now rewrite set_distance_same.
  - rewrite (getBestTarget_valid cameraPos h m w first rest Hvalid). cbn [fst snd].
    match goal with
    | |- context [EnhancedTargetManager.switchTo ?a ?b ?c] =>
        destruct (switchTo_result a b c) as (r & _ & _ & _ & Hts & Hcfg)
    end.
    repeat split; [exact Hts | exact Hcfg |].
    intros l. apply updateDistances_fields.
Qed.

Lemma select_frame (h : Heap) (this : t) (w : JS.World) :
  let r := fst (select h this w) in
  EnhancedTargetManager.targets (targetManager (snd r))
    = EnhancedTargetManager.targets (targetManager this) /\
  isActive (snd r) = isActive this /\
  forall l, exists d, deref (snd (fst r)) l = Target.set_distance d (deref h l).
Proof.
  cbn zeta. unfold select, PerformanceMonitor.startFrame, JS.bind, JS.Date_now, JS.ret.
  cbn [JS.clock JS.clock_reads JS.random JS.random_draws JS.console].
  match goal with
  | |- context [EnhancedTargetManager.getBestTarget ?c ?h ?m ?w] =>
      destruct (getBestTarget_frame c h m w) as (Hts & _ & Hh);
      destruct (EnhancedTargetManager.getBestTarget c h m w) as [[[r hh] mm] w3]
  end.
  cbn [fst snd] in *. repeat split; assumption.
Qed.

Lemma aim_frame (target : Target.t) (currentTime deltaTime : float) (this : t)
    (w : JS.World) :
  targetManager (fst (aim target currentTime deltaTime this w)) = targetManager this /\
  isActive (fst (aim target currentTime deltaTime this w)) = isActive this.
Proof. unfold aim, JS.bind, JS.ret. split_pairs. split; reflexivity. Qed.

Lemma autoFireLogic_frame (target : Target.t) (this : t) (w : JS.World) :
  targetManager (fst (autoFireLogic target this w)) = targetManager this /\
  isActive (fst (autoFireLogic target this w)) = isActive this /\
  config (fst (autoFireLogic target this w)) = config this.
Proof.
  unfold autoFireLogic. destruct (firesOnLock this); [| repeat split].
  unfold JS.bind, JS.ret. split_pairs. repeat split.
Qed.

Lemma finish_frame (currentTime deltaTime : float) (this : t) (w : JS.World) :
  targetManager (fst (finish currentTime deltaTime this w))
    = EnhancedTargetManager.update deltaTime (targetManager this) /\
  isActive (fst (finish currentTime deltaTime this w)) = isActive this /\
  config (fst (finish currentTime deltaTime this w)) = config this.
Proof. unfold finish, JS.bind, JS.ret. split_pairs. repeat split. Qed.

Lemma update_targets (deltaTime : float) (m : EnhancedTargetManager.t) :
  EnhancedTargetManager.targets (EnhancedTargetManager.update deltaTime m)
  = EnhancedTargetManager.targets m /\
  EnhancedTargetManager.currentTarget (EnhancedTargetManager.update deltaTime m)
  = EnhancedTargetManager.currentTarget m.
Proof. unfold EnhancedTargetManager.update. destruct (JS.gtb _ 0); split; reflexivity. Qed.

(** X22.  A tick never adds, removes or reorders targets, and writes nothing
    into a target but its distance: position, last-seen time, visibility and
    health of every object are as before, so a target leaves the selection
    only by growing older than the timeout.  The configuration and the
    activity flag are kept too. *)
Theorem updateAimLock_keeps_targets (h : Heap) (this : t) (w : JS.World) :
  let h' := fst (fst (updateAimLock h this w)) in
  let e' := snd (fst (updateAimLock h this w)) in
  EnhancedTargetManager.targets (targetManager e')
    = EnhancedTargetManager.targets (targetManager this) /\
  (forall l, exists d, deref h' l = Target.set_distance d (deref h l)) /\
  config e' = config this /\
  isActive e' = isActive this.
Proof.
  cbn zeta.
  destruct (select_frame h this w) as (Hts0 & Hact0 & Hh0).
  destruct (select_autoFire h this w) as (_ & Hcfg0 & _).
  destruct (select h this w) as [[[[[target currentTime] deltaTime] h1] e0] w0] eqn:Hsel.
  cbn [fst snd] in Hts0, Hact0, Hh0, Hcfg0.
  destruct target as [l |].
  - pose proof (updateAimLock_selected h this w l _ _ _ _ _ Hsel) as Hrun.
    destruct (aim_frame (deref h1 l) currentTime deltaTime e0 w0) as (Htm1 & Hact1).
    destruct (aim_autoFire (deref h1 l) currentTime deltaTime e0 w0) as (_ & Hcfg1 & _).
    destruct (aim (deref h1 l) currentTime deltaTime e0 w0) as [e1 w1].
    destruct (autoFireLogic_frame (deref h1 l) e1 w1) as (Htm2 & Hact2 & Hcfg2).
    destruct (autoFireLogic (deref h1 l) e1 w1) as [e2 w2].
    destruct (finish_frame currentTime deltaTime e2 w2) as (Htm3 & Hact3 & Hcfg3).
    destruct (finish currentTime deltaTime e2 w2) as [e3 w3].
    rewrite Hrun. cbn [fst snd] in *.
    rewrite Htm3, (proj1 (update_targets _ _)), Htm2, Htm1.
    repeat split; try assumption; congruence.
  - remember (updateAimLock h this w) as r eqn:Hr.
    unfold updateAimLock, JS.bind at 1 in Hr. rewrite Hsel in Hr.
    unfold resetTracking, AdvancedKalmanFilter.reset, JS.bind, JS.Date_now, JS.ret in Hr.
    destruct (PerformanceMonitor.endFrame _ _) as [pm w2] in Hr. subst r.
    cbn [fst snd targetManager config isActive].
    repeat split; assumption.
Qed.

Lemma getBestTarget_reads (cameraPos : Vector3.t) (h : Heap)
    (m : EnhancedTargetManager.t) (w : JS.World) :
  (JS.clock_reads w <= JS.clock_reads (snd (EnhancedTargetManager.getBestTarget cameraPos h m w)))%nat.
Proof.
  unfold EnhancedTargetManager.getBestTarget.
  destruct (List.length (EnhancedTargetManager.targets m) =? 0)%nat; [cbn; lia |].
  unfold JS.bind, JS.Date_now, JS.ret.
  destruct (List.filter _ _); [cbn; lia |].
  destruct (EnhancedTargetManager.switchTo _ _ _). cbn. lia.
Qed.

Lemma select_clock (h : Heap) (this : t) (w : JS.World) :
  let e0 := snd (fst (select h this w)) in
  let w0 := snd (select h this w) in
  JS.clock w0 = JS.clock w /\
  (JS.clock_reads w + 2 <= JS.clock_reads w0)%nat /\
  performance e0 =
    PerformanceMonitor.mk (PerformanceMonitor.frameCount (performance this))
      (PerformanceMonitor.lastFpsUpdate (performance this))
      (PerformanceMonitor.fps (performance this))
      (PerformanceMonitor.frameTime (performance this))
      (JS.clock w (JS.clock_reads w)).
Proof.
  cbn zeta. unfold select, PerformanceMonitor.startFrame, JS.bind, JS.Date_now, JS.ret.
  cbn [JS.clock JS.clock_reads JS.random JS.random_draws JS.console].
  match goal with
  | |- context [EnhancedTargetManager.getBestTarget ?c ?h ?m ?w] =>
      destruct (getBestTarget_world c h m w) as (_ & _ & Hc);
      pose proof (getBestTarget_reads c h m w) as Hr;
      destruct (EnhancedTargetManager.getBestTarget c h m w) as [[[r hh] mm] w3]
  end.
  cbn [fst snd JS.clock JS.clock_reads performance] in *. repeat split; [exact Hc | lia].
Qed.

Lemma aim_clock (target : Target.t) (currentTime deltaTime : float) (this : t)
    (w : JS.World) :
  JS.clock (snd (aim target currentTime deltaTime this w)) = JS.clock w /\
  (JS.clock_reads w <= JS.clock_reads (snd (aim target currentTime deltaTime this w)))%nat /\
  performance (fst (aim target currentTime deltaTime this w)) = performance this.
Proof.
  unfold aim. unfold JS.bind, JS.ret.
  pose proof (update_world (Vector3.x (Target.position target)) (kalmanX this) w) as Hx.
  destruct (AdvancedKalmanFilter.update _ (kalmanX this) w) as [[fx kx] wx].
  pose proof (update_world (Vector3.y (Target.position target)) (kalmanY this) wx) as Hy.
  destruct (AdvancedKalmanFilter.update _ (kalmanY this) wx) as [[fy ky] wy].
  pose proof (update_world (Vector3.z (Target.position target)) (kalmanZ this) wy) as Hz.
  destruct (AdvancedKalmanFilter.update _ (kalmanZ this) wy) as [[fz kz] wz].
  cbn [snd] in Hx, Hy, Hz. subst wx wy wz.
  split_pairs. cbn. repeat split. lia.
Qed.

Lemma fire_clock (target : Target.t) (aimAccuracy : float) (this : SmartAutoFire.t)
    (w : JS.World) :
  JS.clock (snd (SmartAutoFire.fire target aimAccuracy this w)) = JS.clock w /\
  (JS.clock_reads w <= JS.clock_reads (snd (SmartAutoFire.fire target aimAccuracy this w)))%nat.
Proof.
  unfold SmartAutoFire.fire, SmartAutoFire.canFire, JS.bind, JS.Date_now, JS.Math_random,
    JS.console_log, JS.ret.
  destruct (SmartAutoFire.gates _ _ _ _); [| cbn; split; [reflexivity | lia]].
  cbn [negb]. destruct (_ <? _); cbn; split; try reflexivity; lia.
Qed.

Lemma autoFireLogic_clock (target : Target.t) (this : t) (w : JS.World) :
  JS.clock (snd (autoFireLogic target this w)) = JS.clock w /\
  (JS.clock_reads w <= JS.clock_reads (snd (autoFireLogic target this w)))%nat /\
  performance (fst (autoFireLogic target this w)) = performance this.
Proof.
  unfold autoFireLogic. destruct (firesOnLock this); [| cbn; repeat split; lia].
  unfold JS.bind, JS.ret.
  destruct (fire_clock target (currentAccuracy this) (autoFire this) w) as [Hc Hr].
  destruct (SmartAutoFire.fire _ _ _ w) as [[fired af] w1]. cbn [fst snd] in *.
  split_pairs. cbn. repeat split; assumption.
Qed.

Lemma endFrame_framed (pm : PerformanceMonitor.t) (w : JS.World) :
  framed pm (fst (PerformanceMonitor.endFrame pm w)) (JS.clock w (JS.clock_reads w)) /\
  JS.clock (snd (PerformanceMonitor.endFrame pm w)) = JS.clock w /\
  JS.clock_reads (snd (PerformanceMonitor.endFrame pm w)) = S (JS.clock_reads w).
Proof.
  unfold framed, PerformanceMonitor.endFrame, JS.bind, JS.Date_now, JS.ret.
  destruct (JS.gtb _ 1000); cbn; repeat split.
Qed.

Lemma finish_clock (currentTime deltaTime : float) (this : t) (w : JS.World) :
  let e' := fst (finish currentTime deltaTime this w) in
  let w' := snd (finish currentTime deltaTime this w) in
  JS.clock w' = JS.clock w /\
  JS.clock_reads w' = S (JS.clock_reads w) /\
  framed (performance this) (performance e') (JS.clock w (JS.clock_reads w)).
Proof.
  cbn zeta. unfold finish, logStatus, JS.bind, JS.console_log, JS.ret.
  destruct (JS.rem currentTime 1000 <? 16);
    match goal with
    | |- context [PerformanceMonitor.endFrame ?pm ?w1] =>
        destruct (endFrame_framed pm w1) as (Hf & Hc & Hr);
        destruct (PerformanceMonitor.endFrame pm w1) as [pm' w2]
    end; cbn [fst snd performance JS.clock JS.clock_reads] in *;
    (split; [| split]; assumption).
Qed.

(** X23.  Every tick, with or without a target, is one frame of the
    performance monitor: it reads the clock at least three times and changes
    nothing of the clock itself; the frame starts at the tick's first clock
    reading and [frameTime] is the tick's last reading minus its first; when
    that last reading is more than 1000 ms after [lastFpsUpdate], [fps]
    becomes the number of frames counted, this one included, the count
    restarts at 0 and [lastFpsUpdate] becomes that reading; otherwise the
    count grows by one. *)
Theorem updateAimLock_frame (h : Heap) (this : t) (w : JS.World) :
  let e' := snd (fst (updateAimLock h this w)) in
  let w' := snd (updateAimLock h this w) in
  let first := JS.clock w (JS.clock_reads w) in
  let last := JS.clock w (Nat.pred (JS.clock_reads w')) in
  JS.clock w' = JS.clock w /\
  (JS.clock_reads w + 3 <= JS.clock_reads w')%nat /\
  PerformanceMonitor.lastFrameTime (performance e') = first /\
  PerformanceMonitor.frameTime (performance e') = last - first /\
  (if JS.gtb (last - PerformanceMonitor.lastFpsUpdate (performance this)) 1000
   then PerformanceMonitor.fps (performance e')
          = PerformanceMonitor.frameCount (performance this) + 1 /\
        PerformanceMonitor.frameCount (performance e') = 0 /\
        PerformanceMonitor.lastFpsUpdate (performance e') = last
   else PerformanceMonitor.fps (performance e') = PerformanceMonitor.fps (performance this) /\
        PerformanceMonitor.frameCount (performance e')
          = PerformanceMonitor.frameCount (performance this) + 1 /\
        PerformanceMonitor.lastFpsUpdate (performance e')
          = PerformanceMonitor.lastFpsUpdate (performance this)).
Proof.
  cbn zeta.
  destruct (select_clock h this w) as (Hc0 & Hr0 & Hp0).
  destruct (select h this w) as [[[[[target currentTime] deltaTime] h1] e0] w0] eqn:Hsel.
  cbn [fst snd] in Hc0, Hr0, Hp0.
  remember (updateAimLock h this w) as r eqn:Hr.
  destruct target as [l |].
  - pose proof (updateAimLock_selected h this w l _ _ _ _ _ Hsel) as Hrun.
    destruct (aim_clock (deref h1 l) currentTime deltaTime e0 w0) as (Hc1 & Hr1 & Hp1).
    destruct (aim (deref h1 l) currentTime deltaTime e0 w0) as [e1 w1].
    destruct (autoFireLogic_clock (deref h1 l) e1 w1) as (Hc2 & Hr2 & Hp2).
    destruct (autoFireLogic (deref h1 l) e1 w1) as [e2 w2].
    destruct (finish_clock currentTime deltaTime e2 w2) as (Hc3 & Hr3 & Hf).
    destruct (finish currentTime deltaTime e2 w2) as [e3 w3].
    rewrite Hrun in Hr. subst r. cbn [fst snd] in *.
    rewrite Hr3. cbn [Nat.pred].
    assert (Hclock : JS.clock w2 = JS.clock w) by congruence.
    rewrite Hclock in Hf. rewrite Hp2, Hp1, Hp0 in Hf.
    unfold framed in Hf. cbn [PerformanceMonitor.lastFrameTime PerformanceMonitor.frameCount
      PerformanceMonitor.lastFpsUpdate PerformanceMonitor.fps] in Hf.
    destruct Hf as (Hft & Hlf & Hrest).
    repeat split; try assumption; try congruence; try lia.
  - unfold updateAimLock, JS.bind at 1 in Hr. rewrite Hsel in Hr.
    unfold resetTracking, AdvancedKalmanFilter.reset, JS.bind, JS.Date_now, JS.ret in Hr.
    cbn [performance JS.clock JS.clock_reads] in Hr.
    match type of Hr with
    | context [PerformanceMonitor.endFrame ?pm ?w1] =>
        destruct (endFrame_framed pm w1) as (Hf & Hc & Hr');
        destruct (PerformanceMonitor.endFrame pm w1) as [pm' w2]
    end.
    subst r. cbn [fst snd performance JS.clock JS.clock_reads] in *.
    rewrite Hr'. cbn [Nat.pred].
    rewrite Hc0, Hp0 in Hf. unfold framed in Hf.
    cbn [PerformanceMonitor.lastFrameTime PerformanceMonitor.frameCount
      PerformanceMonitor.lastFpsUpdate PerformanceMonitor.fps] in Hf.
    destruct Hf as (Hft & Hlf & Hrest).
    repeat split; try assumption; try congruence; try lia.
Qed.

End EngineTick.

(* ================================================================== *)
(** ** The hit rate is a proportion *)

Section HitRate.

Import Binary64.
Local Open Scope Z_scope.

(** Truncation to the precision: the exponent does not go down, and the
    mantissa is the quotient by the power of two in between. *)
Lemma shr_fexp_div (m e : Z) (l : location) :
  0 <= m ->
  let r := shr_fexp prec emax m e l in
  e <= snd r /\ shr_m (fst r) = m / 2 ^ (snd r - e).
Proof.
  intros Hm r. unfold r, shr_fexp.
  set (n := fexp prec emax (Zdigits2 m + e) - e).
  destruct (shr_spec (shr_record_of_loc m l) e n) as (He & _ & Hdiv).
  { now rewrite shr_record_of_loc_m. }
  rewrite shr_record_of_loc_m in Hdiv. rewrite He, Hdiv.
  split; [lia |]. f_equal. f_equal. lia.
Qed.

Lemma pow52 : 2 ^ 52 = 4503599627370496.
Proof. reflexivity. Qed.

(** Two positive numbers in normal form compare by exponent, then by
    mantissa. *)
Lemma finite_leb (p q : positive) (e2 e : Z) :
  e2 < e \/ (e2 = e /\ Zpos p <= Zpos q) ->
  SFleb (S754_finite false p e2) (S754_finite false q e) = true.
Proof.
  unfold SFleb, SFcompare. intros [Hlt | [-> Hle]].
  - apply Z.compare_lt_iff in Hlt. rewrite Hlt. reflexivity.
  - rewrite Z.compare_refl. change (PosDef.Pos.compare_cont Eq) with Pos.compare.
    change ((p ?= q)%positive <> Gt) in Hle.
    destruct (p ?= q)%positive; try reflexivity. now elim Hle.
Qed.

Lemma finite_le_one (p : positive) (e2 : Z) :
  e2 <= -52 -> Zpos p <= 2 ^ (- e2) -> SFleb (S754_finite false p e2) SF_one = true.
Proof.
  intros He2 Hm3. apply finite_leb.
  assert (Hcase : e2 < -52 \/ e2 = -52) by lia. clear He2.
  destruct Hcase as [Hlt | ->]; [now left | right].
  split; [reflexivity |]. replace (- -52) with 52 in Hm3 by reflexivity.
  rewrite pow52 in Hm3. exact Hm3.
Qed.

(** A mantissa [m] at exponent [e <= -53] with [m * 2^e < 1] rounds to a
    number that is at most 1. *)
Lemma binary_round_aux_le_one (m e : Z) (l : location) :
  0 <= m < 2 ^ (- e) -> e <= -53 ->
  SFleb (binary_round_aux prec emax false m e l) SF_one = true.
Proof.
  intros Hm He. unfold binary_round_aux.
  pose proof (shr_fexp_spec m e l 0 ltac:(replace (0 - e) with (- e) by lia; exact Hm)
                ltac:(lia) ltac:(lia)) as H1. cbv zeta in H1.
  destruct (shr_fexp prec emax m e l) as [mrs1 e1]. cbn [fst snd] in H1.
  destruct H1 as (He1 & Hm1).
  pose proof (round_nearest_even_bounds (shr_m mrs1) (loc_of_shr_record mrs1)) as Hr.
  set (m2 := round_nearest_even (shr_m mrs1) (loc_of_shr_record mrs1)) in *.
  assert (Hm2 : 0 <= m2 <= 2 ^ (- e1)).
  { replace (0 - e1) with (- e1) in Hm1 by lia. lia. }
  pose proof (shr_fexp_spec m2 e1 loc_Exact 1) as H2. cbv zeta in H2.
  pose proof (shr_fexp_div m2 e1 loc_Exact ltac:(lia)) as H3. cbv zeta in H3.
  destruct (shr_fexp prec emax m2 e1 loc_Exact) as [mrs2 e2]. cbn [fst snd] in H2, H3.
  destruct H2 as (He2 & _).
  { split; [lia |]. apply Z.le_lt_trans with (2 ^ (- e1)); [lia |].
    apply Z.pow_lt_mono_r; lia. }
  { lia. } { lia. }
  destruct H3 as (_ & Hdiv).
  assert (Hpos : 0 <= shr_m mrs2).
  { rewrite Hdiv. apply Z.div_pos; [lia | apply Z.pow_pos_nonneg; lia]. }
  assert (Hm3 : shr_m mrs2 <= 2 ^ (- e2)).
  { rewrite Hdiv. apply Z.div_le_upper_bound; [apply Z.pow_pos_nonneg; lia |].
    rewrite <- Z.pow_add_r by lia. replace (e2 - e1 + - e2) with (- e1) by lia. lia. }
  assert (He2' : e2 <= -52) by lia.
  destruct (shr_m mrs2) as [| p | p]; [reflexivity | | lia].
  replace (e2 <=? emax - prec) with true by (symmetry; apply Z.leb_le; unfold emax, prec; lia).
  now apply finite_le_one.
Qed.

(** The number a positive count is: a 53-bit mantissa and its exponent. *)
Lemma count_value (n : Z) :
  0 < n <= 2 ^ 53 ->
  exists (p : positive) (e : Z),
    count n = S754_finite false p e /\
    2 ^ 52 <= Zpos p < 2 ^ 53 /\ -52 <= e <= 1 /\
    Zpos p * 2 ^ (e + 52) = n * 2 ^ 52.
Proof.
  intros [Hpos Hle]. destruct (Z.eq_dec n (2 ^ 53)) as [-> | Hne].
  - rewrite count_top. exists 4503599627370496%positive, 1. repeat split; try lia; reflexivity.
  - assert (Hn : 0 < n < 2 ^ 53) by lia.
    destruct (mantissa_range n Hn) as (Hrange & Hd).
    rewrite (count_small n Hn).
    exists (Z.to_pos (n * 2 ^ (53 - Zdigits2 n))), (Zdigits2 n - 53).
    rewrite Z2Pos.id by lia. repeat split; try lia.
    rewrite <- Z.mul_assoc, <- Z.pow_add_r by lia.
    f_equal. f_equal. lia.
Qed.

Lemma digits_53 (p : positive) : 2 ^ 52 <= Zpos p < 2 ^ 53 -> Zpos (digits2_pos p) = 53.
Proof.
  intros Hp. change (Zpos (digits2_pos p)) with (Zdigits2 (Zpos p)).
  apply Zdigits2_unique; [exact Hp | lia].
Qed.

(** The quotient of a count by a count that is not smaller is at most 1. *)
Lemma SFdiv_count_le_one (m n : Z) :
  0 <= m <= n -> 0 < n <= 2 ^ 53 ->
  SFleb (SFdiv prec emax (count m) (count n)) SF_one = true.
Proof.
  intros [Hm Hmn] Hn.
  destruct (count_value n Hn) as (p2 & e2 & -> & Hp2 & He2 & Hv2).
  destruct (Z.eq_dec m 0%Z) as [-> | Hm0]; [reflexivity |].
  destruct (count_value m ltac:(lia)) as (p1 & e1 & -> & Hp1 & He1 & Hv1).
  unfold SFdiv, SFdiv_core_binary. cbn [Zdigits2 xorb].
  rewrite (digits_53 p1 Hp1), (digits_53 p2 Hp2).
  assert (Hee : e1 <= e2).
  { destruct (Z_le_gt_dec e1 e2) as [| Hgt]; [assumption | exfalso].
    assert (2 ^ (e2 + 52 + 1) <= 2 ^ (e1 + 52)) by (apply Z.pow_le_mono_r; lia).
    rewrite Z.pow_add_r in H by lia. change (2 ^ 1) with 2 in H.
    assert (0 < 2 ^ (e2 + 52)) by (apply Z.pow_pos_nonneg; lia).
    nia. }
  assert (Hf : fexp prec emax (53 + e1 - (53 + e2)) = e1 - e2 - 53)
    by (unfold fexp, emin, emax, prec; lia).
  rewrite Hf. replace (Z.min (e1 - e2 - 53) (e1 - e2)) with (e1 - e2 - 53) by lia.
  replace (e1 - e2 - (e1 - e2 - 53)) with 53 by lia.
  rewrite Z.shiftl_mul_pow2 by lia.
  pose proof (Z_div_mod (Zpos p1 * 2 ^ 53) (Zpos p2) ltac:(lia)) as Hdiv.
  destruct (Z.div_eucl (Zpos p1 * 2 ^ 53) (Zpos p2)) as [q r]. destruct Hdiv as [Hq Hr].
  assert (Hqpos : 0 <= q) by nia.
  assert (Hpe : 0 < 2 ^ (e2 - e1)) by (apply Z.pow_pos_nonneg; lia).
  assert (Hrel : Zpos p1 * 2 ^ (e1 + 52) <= Zpos p2 * (2 ^ (e2 - e1) * 2 ^ (e1 + 52))).
  { rewrite <- Z.pow_add_r by lia. replace (e2 - e1 + (e1 + 52)) with (e2 + 52) by lia.
    rewrite Hv1, Hv2. apply Z.mul_le_mono_nonneg_r; lia. }
  assert (Hp1le : Zpos p1 <= Zpos p2 * 2 ^ (e2 - e1)).
  { assert (0 < 2 ^ (e1 + 52)) by (apply Z.pow_pos_nonneg; lia). nia. }
  destruct (Z.eq_dec m n) as [Heq | Hlt].
  - (* equal counts: the quotient is exactly 1 *)
    subst m. assert (e1 = e2 /\ Zpos p1 = Zpos p2) as [-> Hpp].
    { rewrite <- Hv2 in Hv1.
      destruct (Z.eq_dec e1 e2) as [-> | Hne].
      - split; [reflexivity |]. assert (0 < 2 ^ (e2 + 52)) by (apply Z.pow_pos_nonneg; lia). nia.
      - exfalso. assert (He12 : e1 < e2) by lia.
        assert (2 ^ (e1 + 52 + 1) <= 2 ^ (e2 + 52)) by (apply Z.pow_le_mono_r; lia).
        rewrite Z.pow_add_r in H by lia. change (2 ^ 1) with 2 in H.
        assert (0 < 2 ^ (e1 + 52)) by (apply Z.pow_pos_nonneg; lia). nia. }
    rewrite Hpp in Hq.
    assert (q = 2 ^ 53 /\ r = 0) as [-> ->].
    { apply (Z.div_mod_unique (Zpos p2)); [lia | lia |]. rewrite <- Hq. ring. }
    replace (e2 - e2 - 53) with (-53) by lia.
    replace (new_location (Zpos p2) 0) with loc_Exact
      by (unfold new_location, new_location_even, new_location_odd;
          destruct (Z.even (Zpos p2)); reflexivity).
    change (2 ^ 53) with (2 ^ 52 * 2 ^ 1).
    rewrite (binary_round_aux_exact false (2 ^ 52) 1 (-53)) by lia.
    reflexivity.
  - apply binary_round_aux_le_one; [| lia].
    split; [exact Hqpos |].
    replace (- (e1 - e2 - 53)) with (53 + (e2 - e1)) by lia.
    rewrite Z.pow_add_r by lia.
    assert (Hstrict : Zpos p1 < Zpos p2 * 2 ^ (e2 - e1)).
    { assert (0 < 2 ^ (e1 + 52)) by (apply Z.pow_pos_nonneg; lia).
      assert (Zpos p1 * 2 ^ (e1 + 52) < Zpos p2 * (2 ^ (e2 - e1) * 2 ^ (e1 + 52))).
      { rewrite <- Z.pow_add_r by lia. replace (e2 - e1 + (e1 + 52)) with (e2 + 52) by lia.
        rewrite Hv1, Hv2. apply Z.mul_lt_mono_pos_r; lia. }
      nia. }
    assert (0 < 2 ^ 53) by lia. nia.
Qed.

End HitRate.

Section HitRateOfARun.

Import Binary64.
Import EnhancedAimLockEngine.
Local Open Scope float_scope.

Lemma counts_div_le_one (h s : float) (m n : Z) :
  counts h m -> counts s n -> (m <= n)%Z -> (0 < n)%Z -> (h / s <=? 1) = true.
Proof.
  intros [Hm Hh] [Hn Hs] Hmn Hpos.
  rewrite FloatAxioms.leb_spec, FloatAxioms.div_spec, Hh, Hs.
  change (Prim2SF 1) with SF_one. apply SFdiv_count_le_one; lia.
Qed.

Lemma counts_div_nonneg (h s : float) (m n : Z) :
  counts h m -> counts s n -> (0 < n)%Z -> (h / s <? 0) = false.
Proof.
  intros [Hm Hh] [Hn Hs] Hpos.
  rewrite FloatAxioms.ltb_spec, FloatAxioms.div_spec, Hh, Hs.
  change (Prim2SF 0) with (S754_zero false).
  destruct (count_value n ltac:(lia)) as (p2 & e2 & -> & _).
  destruct (Z.eq_dec m 0%Z) as [-> | Hm0]; [reflexivity |].
  destruct (count_value m ltac:(lia)) as (p1 & e1 & -> & _).
  unfold SF64div, SFdiv. cbn [xorb].
  destruct (SFdiv_core_binary prec emax (Z.pos p1) e1 (Z.pos p2) e2) as [[mz ez] lz].
  apply binary_round_aux_nonneg.
Qed.

(** X24.  In every state of a run the hit rate is a proportion: it is never
    below 0 and never above 1.  The counters are exact counts with no more
    hits than shots, and the binary64 quotient of a count by a count that is
    not smaller rounds to at most 1. *)
Theorem getHitRate_proportion (this : t) :
  reachable this ->
  (getHitRate this <? 0) = false /\ (getHitRate this <=? 1) = true.
Proof.
  intros Hreach. destruct (reachable_counted this Hreach) as (m & n & Hmn & Hm & Hn).
  unfold getHitRate. destruct (JS.gtb (totalShots this) 0) eqn:Hgt; [| split; reflexivity].
  pose proof (counts_gtb _ _ Hn Hgt) as Hpos.
  split; [exact (counts_div_nonneg _ _ m n Hm Hn Hpos) |].
  exact (counts_div_le_one _ _ m n Hm Hn Hmn Hpos).
Qed.

(** After the one hit of the lucky run the rate is 1, the upper end. *)
Lemma getHitRate_proportion_witness :
  (getHitRate (snd (fst Run.lucky_tick2)) <? 0) = false /\
  (getHitRate (snd (fst Run.lucky_tick2)) <=? 1) = true.
Proof. exact (getHitRate_proportion _ lucky_tick2_reachable). Defined.

End HitRateOfARun.
